(** * Telemetry engine of the web-based GPS speedometer

    A shallow embedding of the accumulator state machines of the
    speedometer script: the distance store, the speed resolver, the speed
    statistics store, the acceleration store, the quarter-mile tracker and
    the zero-to-sixty tracker.

    Every closure of the script ([createDistanceStore], ...) becomes a
    record holding the closure's variables, and every method becomes a
    function from the old record to the new one (explicit state passing).
    [persistState] only mirrors the state into local storage and never
    feeds back into a computation, so it has no counterpart here.

    Numbers.  A JavaScript number is modelled by [num]: a rational for a
    finite value, and the three non-finite values the script tests for with
    [Number.isFinite].  Arithmetic on finite values is exact (neither
    rounding nor overflow of binary64 is modelled) and the two zeros are
    identified. *)

From Stdlib Require Import String Ascii DecimalString.
From Stdlib Require Import ZArith QArith Qabs Qreduction Qround Lqa Lia Bool List.
Import ListNotations.

Local Open Scope Q_scope.

(** ** JavaScript numbers and values *)

Module JS.

Inductive num : Type :=
| Fin (q : Q)
| PosInf
| NegInf
| NaN.

(** The values the engine handles: [null] or a number. *)
Inductive value : Type :=
| Null
| Num (n : num).

Definition Qltb (x y : Q) : bool :=
  match x ?= y with Lt => true | _ => false end.

Definition Qleb (x y : Q) : bool :=
  match x ?= y with Gt => false | _ => true end.

Definition Qeqb (x y : Q) : bool :=
  match x ?= y with Eq => true | _ => false end.

Definition nadd (a b : num) : num :=
  match a, b with
  | NaN, _ | _, NaN => NaN
  | PosInf, NegInf | NegInf, PosInf => NaN
  | PosInf, _ | _, PosInf => PosInf
  | NegInf, _ | _, NegInf => NegInf
  | Fin x, Fin y => Fin (Qred (x + y))
  end.

Definition nsub (a b : num) : num :=
  match a, b with
  | NaN, _ | _, NaN => NaN
  | PosInf, PosInf | NegInf, NegInf => NaN
  | PosInf, _ | _, NegInf => PosInf
  | NegInf, _ | _, PosInf => NegInf
  | Fin x, Fin y => Fin (Qred (x - y))
  end.

(** The infinity of the given sign. *)
Definition signed_inf (positive : bool) : num :=
  if positive then PosInf else NegInf.

Definition nmul (a b : num) : num :=
  match a, b with
  | NaN, _ | _, NaN => NaN
  | Fin x, Fin y => Fin (Qred (x * y))
  | PosInf, PosInf | NegInf, NegInf => PosInf
  | PosInf, NegInf | NegInf, PosInf => NegInf
  | PosInf, Fin x | Fin x, PosInf =>
      if Qeqb x 0 then NaN else signed_inf (Qltb 0 x)
  | NegInf, Fin x | Fin x, NegInf =>
      if Qeqb x 0 then NaN else signed_inf (Qltb x 0)
  end.

Definition ndiv (a b : num) : num :=
  match a, b with
  | NaN, _ | _, NaN => NaN
  | Fin x, Fin y =>
      if Qeqb y 0
      then (if Qeqb x 0 then NaN else signed_inf (Qltb 0 x))
      else Fin (Qred (x / y))
  | Fin _, PosInf | Fin _, NegInf => Fin 0
  | PosInf, Fin y => signed_inf (Qleb 0 y)
  | NegInf, Fin y => signed_inf (Qltb y 0)
  | _, _ => NaN
  end.

Definition nabs (a : num) : num :=
  match a with
  | Fin x => Fin (Qred (Qabs x))
  | PosInf | NegInf => PosInf
  | NaN => NaN
  end.

(** [a < b], [a <= b] and [a === b] on numbers; every comparison with
    [NaN] is false. *)
Definition nltb (a b : num) : bool :=
  match a, b with
  | NaN, _ | _, NaN => false
  | Fin x, Fin y => Qltb x y
  | NegInf, NegInf => false
  | NegInf, _ => true
  | _, NegInf => false
  | PosInf, _ => false
  | Fin _, PosInf => true
  end.

Definition nleb (a b : num) : bool :=
  match a, b with
  | NaN, _ | _, NaN => false
  | Fin x, Fin y => Qleb x y
  | NegInf, _ => true
  | _, PosInf => true
  | PosInf, _ => false
  | Fin _, NegInf => false
  end.

Definition neqb (a b : num) : bool :=
  match a, b with
  | Fin x, Fin y => Qeqb x y
  | PosInf, PosInf | NegInf, NegInf => true
  | _, _ => false
  end.

Definition ngtb (a b : num) : bool := nltb b a.
Definition ngeb (a b : num) : bool := nleb b a.

(** [Number.isFinite] on a number and on a value ([null] is not a number). *)
Definition num_finite (a : num) : bool :=
  match a with Fin _ => true | _ => false end.

Definition isFinite (v : value) : bool :=
  match v with Num a => num_finite a | Null => false end.

(** Truthiness of a number ([!x] is its negation) and of a value. *)
Definition num_truthy (a : num) : bool :=
  match a with
  | Fin x => negb (Qeqb x 0)
  | PosInf | NegInf => true
  | NaN => false
  end.

Definition truthy (v : value) : bool :=
  match v with Num a => num_truthy a | Null => false end.

(** [ToNumber]: an arithmetic or relational operator reads [null] as 0. *)
Definition toNumber (v : value) : num :=
  match v with Num a => a | Null => Fin 0 end.

(** [v === null]. *)
Definition is_null (v : value) : bool :=
  match v with Null => true | Num _ => false end.

(** [Math.min] and [Math.max] of two numbers: [NaN] if either is, and the
    first argument is kept unless the second is strictly beyond it. *)
Definition Math_min (a b : num) : num :=
  match a, b with
  | NaN, _ | _, NaN => NaN
  | _, _ => if nltb b a then b else a
  end.

Definition Math_max (a b : num) : num :=
  match a, b with
  | NaN, _ | _, NaN => NaN
  | _, _ => if nltb a b then b else a
  end.

Definition Math_abs : num -> num := nabs.

End JS.

Import JS.

(** ** Constants of the script *)

Definition EARTH_RADIUS_M : num := Fin 6371000.
Definition QUARTER_MILE_M : num := Fin 402.336.
Definition ZERO_TO_SIXTY_TARGET_MS : num := Fin 26.8224.
Definition Math_PI : num := Fin 3.141592653589793.

(** ** Position snapshots and the travel computations *)

(** [locationSnapshot = { lat, lon, time }]. *)
Record Position : Type := mkPosition {
  lat : num;
  lon : num;
  time : num
}.

(** [resolveSpeed(rawSpeed, distanceDelta, snapshot)]; the global
    [lastPosition] it reads is passed as the first argument. *)
Definition resolveSpeed (lastPosition : option Position)
    (rawSpeed : value) (distanceDelta : num) (snapshot : Position) : value :=
  if isFinite rawSpeed then rawSpeed
  else
    match lastPosition with
    | None => Null
    | Some previous =>
        let dt := nsub (time snapshot) (time previous) in
        if negb (num_truthy dt) || nleb dt (Fin 0) then Null
        else if negb (num_finite distanceDelta) then Null
        else Num (ndiv distanceDelta dt)
    end.

(** The functions of the [Math] object that [computeTravelDelta] calls.
    They are transcendental, so the embedding takes them as a parameter. *)
Record MathLib : Type := mkMathLib {
  Math_sin : num -> num;
  Math_cos : num -> num;
  Math_sqrt : num -> num;
  Math_atan2 : num -> num -> num
}.

Section Haversine.

Variable M : MathLib.

Definition toRadians (v : num) : num :=
  ndiv (nmul v Math_PI) (Fin 180).

(** [x ** 2]. *)
Definition square (x : num) : num := nmul x x.

(** [computeTravelDelta(current)], reading the global [lastPosition]. *)
Definition computeTravelDelta (lastPosition : option Position)
    (current : Position) : num :=
  match lastPosition with
  | None => Fin 0
  | Some previous =>
      let dLat := toRadians (nsub (lat current) (lat previous)) in
      let dLon := toRadians (nsub (lon current) (lon previous)) in
      let lat1 := toRadians (lat previous) in
      let lat2 := toRadians (lat current) in
      let a :=
        nadd (square (Math_sin M (ndiv dLat (Fin 2))))
             (nmul (nmul (Math_cos M lat1) (Math_cos M lat2))
                   (square (Math_sin M (ndiv dLon (Fin 2))))) in
      let c :=
        nmul (Fin 2)
             (Math_atan2 M (Math_sqrt M a) (Math_sqrt M (nsub (Fin 1) a))) in
      nmul EARTH_RADIUS_M c
  end.

End Haversine.

(** ** [createDistanceStore] *)

Module DistanceStore.

Record state : Type := mkState { total : num }.

Definition defaults : state := {| total := Fin 0 |}.

Definition get (st : state) : num := total st.

(** [update(delta)]: the store after the call; the call returns [get] of
    it. *)
Definition update (st : state) (delta : num) : state :=
  if num_finite delta && ngtb delta (Fin 0)
  then {| total := nadd (total st) delta |}
  else st.

Definition reset (st : state) : state := defaults.

End DistanceStore.

(** ** [createSpeedStatsStore] *)

Module SpeedStatsStore.

Record state : Type := mkState {
  count : num;
  total : num;
  min : value;
  max : value
}.

(** What [get()] returns. *)
Record stats : Type := mkStats {
  stats_min : value;
  stats_max : value;
  average : value
}.

Definition defaults : state :=
  {| count := Fin 0; total := Fin 0; min := Null; max := Null |}.

Definition get (st : state) : stats :=
  {| stats_min := min st;
     stats_max := max st;
     average :=
       if num_truthy (count st)
       then Num (ndiv (total st) (count st))
       else Null |}.

(** [update(speed)]: the store after the call; the call returns [get]
    of it. *)
Definition update (st : state) (speed : value) : state :=
  if negb (isFinite speed) then st
  else
    {| count := nadd (count st) (Fin 1);
       total := nadd (total st) (toNumber speed);
       min := if is_null (min st) then speed
              else Num (Math_min (toNumber (min st)) (toNumber speed));
       max := if is_null (max st) then speed
              else Num (Math_max (toNumber (max st)) (toNumber speed)) |}.

Definition reset (st : state) : state := defaults.

End SpeedStatsStore.

(** ** [createAccelerationStore] *)

Module AccelerationStore.

Record state : Type := mkState {
  lastSpeed : value;
  lastTime : value;
  peakAccel : value;
  peakDecel : value
}.

(** The closure: the persisted [state] and the transient [current]. *)
Record store : Type := mkStore {
  st : state;
  current : value
}.

(** What [get()] returns. *)
Record view : Type := mkView {
  view_current : value;
  currentDecel : value;
  view_peakAccel : value;
  view_peakDecel : value
}.

Definition defaults : state :=
  {| lastSpeed := Null; lastTime := Null; peakAccel := Null; peakDecel := Null |}.

Definition init : store := {| st := defaults; current := Null |}.

Definition get (s : store) : view :=
  let decel :=
    if truthy (current s) && nltb (toNumber (current s)) (Fin 0)
    then Num (Math_abs (toNumber (current s)))
    else match current s with
         | Num c => if neqb c (Fin 0) then Num (Fin 0) else Null
         | Null => Null
         end in
  {| view_current := if isFinite (current s) then current s else Null;
     currentDecel := if isFinite decel then decel else Null;
     view_peakAccel := peakAccel (st s);
     view_peakDecel := peakDecel (st s) |}.

Definition set_peakAccel (x : state) (v : value) : state :=
  {| lastSpeed := lastSpeed x; lastTime := lastTime x;
     peakAccel := v; peakDecel := peakDecel x |}.

Definition set_peakDecel (x : state) (v : value) : state :=
  {| lastSpeed := lastSpeed x; lastTime := lastTime x;
     peakAccel := peakAccel x; peakDecel := v |}.

Definition set_last (x : state) (speed time : value) : state :=
  {| lastSpeed := speed; lastTime := time;
     peakAccel := peakAccel x; peakDecel := peakDecel x |}.

(** The two peak updates made for a finite [current]. *)
Definition record_peaks (x : state) (cur : num) : state :=
  let x1 :=
    if ngtb cur (Fin 0)
    then set_peakAccel x
           (if is_null (peakAccel x) then Num cur
            else Num (Math_max (toNumber (peakAccel x)) cur))
    else x in
  if nltb cur (Fin 0)
  then
    let magnitude := Math_abs cur in
    set_peakDecel x1
      (if is_null (peakDecel x1) then Num magnitude
       else Num (Math_max (toNumber (peakDecel x1)) magnitude))
  else x1.

(** The first [if] of [update]: the new [current] and the peaks. *)
Definition derive (s : store) (speed : value) (timestamp : num) : store :=
  if isFinite speed && num_finite timestamp
     && negb (is_null (lastSpeed (st s))) && negb (is_null (lastTime (st s)))
  then
    let dt := nsub timestamp (toNumber (lastTime (st s))) in
    if ngtb dt (Fin 0)
    then
      let cur := ndiv (nsub (toNumber speed) (toNumber (lastSpeed (st s)))) dt in
      {| st := if num_finite cur then record_peaks (st s) cur else st s;
         current := Num cur |}
    else s
  else {| st := st s; current := Null |}.

(** [update(speed, timestamp)]: the store after the call; the call returns
    [get] of it. *)
Definition update (s : store) (speed : value) (timestamp : num) : store :=
  let s1 := derive s speed timestamp in
  if isFinite speed && num_finite timestamp
  then {| st := set_last (st s1) speed (Num timestamp); current := current s1 |}
  else s1.

Definition reset (s : store) : store := init.

End AccelerationStore.

(** ** [createQuarterMileTracker] *)

(** [shouldArmRun(speed)]. *)
Definition shouldArmRun (speed : value) : bool :=
  isFinite speed && ngeb (toNumber speed) (Fin 1).

Module QuarterMileTracker.

Record state : Type := mkState {
  bestTime : value;
  lastTime : value
}.

(** [runStart = { distance, time }]. *)
Record RunStart : Type := mkRunStart {
  distance : num;
  time : num
}.

(** The status text.  [RunningLeft r] stands for the template string
    [Running (r.toFixed(1) m left)]: the tag and the number it prints. *)
Inductive Status : Type :=
| Standby
| Running
| RunningLeft (remaining : num)
| Completed.

(** The closure: the persisted [state], and the transient [runStart]
    ([None] for [null]) and [status]. *)
Record tracker : Type := mkTracker {
  st : state;
  runStart : option RunStart;
  status : Status
}.

(** What [get()] returns. *)
Record view : Type := mkView {
  view_status : Status;
  view_lastTime : value;
  view_bestTime : value
}.

Definition defaults : state := {| bestTime := Null; lastTime := Null |}.

Definition init : tracker :=
  {| st := defaults; runStart := None; status := Standby |}.

Definition get (t : tracker) : view :=
  {| view_status := status t;
     view_lastTime := lastTime (st t);
     view_bestTime := bestTime (st t) |}.

(** [update(totalDistance, speed, timestamp)]: the tracker after the call;
    the call returns [get] of it. *)
Definition update (t : tracker) (totalDistance : num) (speed : value)
    (timestamp : num) : tracker :=
  match runStart t with
  | None =>
      if shouldArmRun speed
      then {| st := st t;
              runStart := Some {| distance := totalDistance; time := timestamp |};
              status := Running |}
      else {| st := st t; runStart := None; status := Standby |}
  | Some start =>
      let covered := nsub totalDistance (distance start) in
      if ngeb covered QUARTER_MILE_M
      then
        let elapsed := nsub timestamp (time start) in
        if num_finite elapsed && ngtb elapsed (Fin 0)
        then
          {| st := {| bestTime :=
                        if is_null (bestTime (st t))
                           || nltb elapsed (toNumber (bestTime (st t)))
                        then Num elapsed else bestTime (st t);
                      lastTime := Num elapsed |};
             runStart := None;
             status := Completed |}
        else {| st := st t; runStart := None; status := Standby |}
      else if negb (is_null speed) && isFinite speed
              && nltb (toNumber speed) (Fin 0.5)
      then {| st := st t; runStart := None; status := Standby |}
      else
        let remaining := nsub QUARTER_MILE_M covered in
        {| st := st t;
           runStart := Some start;
           status := if ngtb remaining (Fin 0)
                     then RunningLeft remaining else Running |}
  end.

Definition reset (t : tracker) : tracker := init.

End QuarterMileTracker.

(** ** [createZeroSixtyTracker] *)

Module ZeroSixtyTracker.

Record state : Type := mkState {
  bestTime : value;
  lastTime : value
}.

(** The four strings ever assigned to [phase]; the [default] arm of the
    [switch] is therefore never taken and has no counterpart. *)
Inductive Phase : Type :=
| idle
| armed
| running
| cooldown.

Record tracker : Type := mkTracker {
  st : state;
  phase : Phase;
  startTime : value
}.

(** What [get()] returns. *)
Record view : Type := mkView {
  view_lastTime : value;
  view_bestTime : value
}.

Definition defaults : state := {| bestTime := Null; lastTime := Null |}.

Definition init : tracker :=
  {| st := defaults; phase := idle; startTime := Null |}.

Definition get (t : tracker) : view :=
  {| view_lastTime := lastTime (st t); view_bestTime := bestTime (st t) |}.

Definition set_phase (t : tracker) (p : Phase) : tracker :=
  {| st := st t; phase := p; startTime := startTime t |}.

(** [update(speed, timestamp)]: the tracker after the call; the call
    returns [get] of it. *)
Definition update (t : tracker) (speed : value) (timestamp : num) : tracker :=
  if negb (isFinite speed) || negb (num_finite timestamp) then t
  else
    let v := toNumber speed in
    match phase t with
    | idle =>
        if nleb v (Fin 0.5) then set_phase t armed else t
    | armed =>
        if ngtb v (Fin 0.5)
        then {| st := st t; phase := running; startTime := Num timestamp |}
        else t
    | running =>
        if ngeb v ZERO_TO_SIXTY_TARGET_MS
        then
          let elapsed := nsub timestamp (toNumber (startTime t)) in
          if ngtb elapsed (Fin 0)
          then
            {| st := {| bestTime :=
                          if is_null (bestTime (st t))
                             || nltb elapsed (toNumber (bestTime (st t)))
                          then Num elapsed else bestTime (st t);
                        lastTime := Num elapsed |};
               phase := cooldown;
               startTime := startTime t |}
          else set_phase t idle
        else if nleb v (Fin 0.5) then set_phase t armed
        else t
    | cooldown =>
        if nleb v (Fin 0.5) then set_phase t armed else t
    end.

Definition reset (t : tracker) : tracker := init.

End ZeroSixtyTracker.

(** ** The pass over one position fix *)

(** [position.coords] and [position.timestamp] (milliseconds), as the
    geolocation watcher delivers them. *)
Record Coords : Type := mkCoords {
  latitude : num;
  longitude : num;
  heading : value;
  speed : value
}.

Record GeoPosition : Type := mkGeoPosition {
  coords : Coords;
  timestamp : num
}.

(** The module-level variables the pass reads and writes. *)
Record Engine : Type := mkEngine {
  lastPosition : option Position;
  distanceStore : DistanceStore.state;
  speedStatsStore : SpeedStatsStore.state;
  accelerationStore : AccelerationStore.store;
  quarterMileTracker : QuarterMileTracker.tracker;
  zeroSixtyTracker : ZeroSixtyTracker.tracker
}.

(** The engine of a first visit: nothing in local storage, so every
    [loadState] yields its defaults. *)
Definition fresh : Engine :=
  {| lastPosition := None;
     distanceStore := DistanceStore.defaults;
     speedStatsStore := SpeedStatsStore.defaults;
     accelerationStore := AccelerationStore.init;
     quarterMileTracker := QuarterMileTracker.init;
     zeroSixtyTracker := ZeroSixtyTracker.init |}.

(** [handlePosition(position)], without the rendering of the readouts and
    the broadcast of the snapshot. *)
Definition handlePosition (M : MathLib) (e : Engine) (position : GeoPosition)
    : Engine :=
  let timestampSeconds := ndiv (timestamp position) (Fin 1000) in
  let locationSnapshot :=
    {| lat := latitude (coords position);
       lon := longitude (coords position);
       time := timestampSeconds |} in
  let distanceDelta := computeTravelDelta M (lastPosition e) locationSnapshot in
  let distanceStore' := DistanceStore.update (distanceStore e) distanceDelta in
  let totalDistance := DistanceStore.get distanceStore' in
  let speedValue :=
    resolveSpeed (lastPosition e) (speed (coords position)) distanceDelta
      locationSnapshot in
  {| lastPosition := Some locationSnapshot;
     distanceStore := distanceStore';
     speedStatsStore := SpeedStatsStore.update (speedStatsStore e) speedValue;
     accelerationStore :=
       AccelerationStore.update (accelerationStore e) speedValue
         timestampSeconds;
     quarterMileTracker :=
       QuarterMileTracker.update (quarterMileTracker e) totalDistance
         speedValue timestampSeconds;
     zeroSixtyTracker :=
       ZeroSixtyTracker.update (zeroSixtyTracker e) speedValue
         timestampSeconds |}.

(** [resetAllStores()], without the rendering. *)
Definition resetAllStores (e : Engine) : Engine :=
  {| lastPosition := None;
     distanceStore := DistanceStore.reset (distanceStore e);
     speedStatsStore := SpeedStatsStore.reset (speedStatsStore e);
     accelerationStore := AccelerationStore.reset (accelerationStore e);
     quarterMileTracker := QuarterMileTracker.reset (quarterMileTracker e);
     zeroSixtyTracker := ZeroSixtyTracker.reset (zeroSixtyTracker e) |}.

(** ** Runs: a store fed a sequence of calls *)

(** The distance store after the updates [deltas], in order. *)
Definition distance_run (s : DistanceStore.state) (deltas : list num)
    : DistanceStore.state :=
  fold_left DistanceStore.update deltas s.

(** The engine after the fixes [fixes], in order. *)
Definition engine_run (M : MathLib) (e : Engine) (fixes : list GeoPosition)
    : Engine :=
  fold_left (handlePosition M) fixes e.

(** The quarter-mile tracker after the calls
    [update(totalDistance, speed, timestamp)] of [samples], in order. *)
Definition quarter_run (t : QuarterMileTracker.tracker)
    (samples : list (num * value * num)) : QuarterMileTracker.tracker :=
  fold_left
    (fun acc s =>
       match s with
       | (totalDistance, speed, timestamp) =>
           QuarterMileTracker.update acc totalDistance speed timestamp
       end)
    samples t.

(** The zero-to-sixty tracker after the calls [update(speed, timestamp)]
    of [samples], and the phase it is in after each of them. *)
Definition zero_sixty_run (t : ZeroSixtyTracker.tracker)
    (samples : list (value * num)) : ZeroSixtyTracker.tracker :=
  fold_left (fun acc s => ZeroSixtyTracker.update acc (fst s) (snd s))
    samples t.

Fixpoint zero_sixty_phases (t : ZeroSixtyTracker.tracker)
    (samples : list (value * num)) : list ZeroSixtyTracker.Phase :=
  match samples with
  | [] => []
  | s :: rest =>
      let t' := ZeroSixtyTracker.update t (fst s) (snd s) in
      ZeroSixtyTracker.phase t' :: zero_sixty_phases t' rest
  end.

(** The acceleration store after the calls [update(speed, timestamp)] of
    [samples], in order. *)
Definition acceleration_run (s : AccelerationStore.store)
    (samples : list (value * num)) : AccelerationStore.store :=
  fold_left (fun acc x => AccelerationStore.update acc (fst x) (snd x))
    samples s.

(** A call on the speed statistics store, and the store after a sequence
    of calls. *)
Inductive StatsCall : Type :=
| CallUpdate (speed : value)
| CallReset.

Definition stats_call (st : SpeedStatsStore.state) (c : StatsCall)
    : SpeedStatsStore.state :=
  match c with
  | CallUpdate speed => SpeedStatsStore.update st speed
  | CallReset => SpeedStatsStore.reset st
  end.

Definition stats_run (st : SpeedStatsStore.state) (calls : list StatsCall)
    : SpeedStatsStore.state :=
  fold_left stats_call calls st.

(** A rational stand-in for the [Math] object, by first-order
    approximations around the origin; it shows that [exact_at_origin] below
    can be met. *)
Definition small_angle_math : MathLib :=
  {| Math_sin := fun x => x;
     Math_cos := fun x =>
       match x with
       | Fin q => Fin (Qred (1 - q * q / 2))
       | _ => NaN
       end;
     Math_sqrt := fun x =>
       if neqb x (Fin 0) then Fin 0
       else ndiv (nadd x (Fin 1)) (Fin 2);
     Math_atan2 := fun y x => ndiv y x |}.

(** What the two-identical-point property needs of the [Math] functions:
    exact values at 0 and 1, and a finite cosine of a finite angle. *)
Definition exact_at_origin (M : MathLib) : Prop :=
  Math_sin M (Fin 0) = Fin 0 /\
  (forall q, num_finite (Math_cos M (Fin q)) = true) /\
  Math_sqrt M (Fin 0) = Fin 0 /\
  Math_sqrt M (Fin 1) = Fin 1 /\
  Math_atan2 M (Fin 0) (Fin 1) = Fin 0.

(** ** Sample sequences and orders used in the statements *)

(** Speeds 0, 0, 10, 30, 27 m/s at the timestamps 0, 1, 2, 3, 4 s. *)
Definition launch_samples : list (value * num) :=
  [ (Num (Fin 0), Fin 0); (Num (Fin 0), Fin 1); (Num (Fin 10), Fin 2);
    (Num (Fin 30), Fin 3); (Num (Fin 27), Fin 4) ].

(** The same launch with a fourth sample still below the target. *)
Definition slow_launch_samples : list (value * num) :=
  [ (Num (Fin 0), Fin 0); (Num (Fin 0), Fin 1); (Num (Fin 10), Fin 2);
    (Num (Fin 20), Fin 3); (Num (Fin 27), Fin 4) ].

(** Speeds 0, 10, 10 m/s at 0, 2, 2 s: the last fix repeats the time of
    the one before. *)
Definition repeated_fix_samples : list (value * num) :=
  [ (Num (Fin 0), Fin 0); (Num (Fin 10), Fin 2); (Num (Fin 10), Fin 2) ].

(** Three fixes with sensor speeds 0, 10, 10 m/s at 0, 2000, 2000 ms: the
    third repeats the timestamp of the second. *)
Definition repeated_fixes : list GeoPosition :=
  [ mkGeoPosition (mkCoords (Fin 45) (Fin 7) Null (Num (Fin 0))) (Fin 0);
    mkGeoPosition (mkCoords (Fin 45) (Fin 7) Null (Num (Fin 10))) (Fin 2000);
    mkGeoPosition (mkCoords (Fin 45) (Fin 7) Null (Num (Fin 10))) (Fin 2000) ].

(** The status is one of the two Running texts. *)
Definition is_running (s : QuarterMileTracker.Status) : bool :=
  match s with
  | QuarterMileTracker.Running | QuarterMileTracker.RunningLeft _ => true
  | _ => false
  end.

(** A run is armed exactly when the status is a Running text. *)
Definition armed_iff_running (t : QuarterMileTracker.tracker) : Prop :=
  match QuarterMileTracker.runStart t with
  | Some _ => is_running (QuarterMileTracker.status t) = true
  | None => is_running (QuarterMileTracker.status t) = false
  end.

(** A peak [new] is not below the peak [old]: [null] is below everything,
    a number is never followed by [null], and a number is followed by
    itself or by a strictly larger one. *)
Definition peak_le (old new : value) : Prop :=
  match old, new with
  | Null, _ => True
  | Num _, Null => False
  | Num p, Num p' => p' = p \/ nltb p p' = true
  end.

(** One step of a high-water mark: the new peak is the old one, or it is
    the finite [c] and the old one was [null] or strictly below [c]. *)
Definition peak_raised (old new : value) (c : num) : Prop :=
  new = Num c /\ (old = Null \/ exists p, old = Num p /\ nltb p c = true).

(** Speeds 0 then 10 m/s, two seconds apart. *)
Definition spike_samples : list (value * num) :=
  [ (Num (Fin 0), Fin 0); (Num (Fin 10), Fin 2) ].

(** A steady 5 m/s over one second: an acceleration of exactly 0. *)
Definition steady_samples : list (value * num) :=
  [ (Num (Fin 5), Fin 0); (Num (Fin 5), Fin 1) ].

(** The invariant of the speed statistics: [count] is a number that is
    not negative; it is 0 exactly when [min] is [null] and exactly when
    [max] is [null]; and when it is positive, [min] and [max] are finite
    with [min <= max]. *)
Definition stats_inv (st : SpeedStatsStore.state) : Prop :=
  exists c,
    SpeedStatsStore.count st = Fin c /\ 0 <= c /\
    (c == 0 <-> SpeedStatsStore.min st = Null) /\
    (c == 0 <-> SpeedStatsStore.max st = Null) /\
    (0 < c ->
     exists lo hi,
       SpeedStatsStore.min st = Num (Fin lo) /\
       SpeedStatsStore.max st = Num (Fin hi) /\ lo <= hi).

(** The finite speeds recorded by a sequence of calls since its last
    reset, oldest first; [acc] holds those recorded before the sequence. *)
Fixpoint recorded (acc : list Q) (calls : list StatsCall) : list Q :=
  match calls with
  | [] => acc
  | CallUpdate (Num (Fin v)) :: rest => recorded (acc ++ [v]) rest
  | CallUpdate _ :: rest => recorded acc rest
  | CallReset :: rest => recorded [] rest
  end.

(** The state of the store against the finite speeds [l] it has recorded:
    [count] is their number, [min] a least and [max] a greatest of them. *)
Definition stats_of (l : list Q) (st : SpeedStatsStore.state) : Prop :=
  (exists c,
     SpeedStatsStore.count st = Fin c /\
     c == inject_Z (Z.of_nat (length l))) /\
  (l = [] ->
   SpeedStatsStore.min st = Null /\ SpeedStatsStore.max st = Null) /\
  (l <> [] ->
   exists lo hi,
     SpeedStatsStore.min st = Num (Fin lo) /\
     SpeedStatsStore.max st = Num (Fin hi) /\
     In lo l /\ In hi l /\
     forall x, In x l -> lo <= x /\ x <= hi).

(** Updates with 10, 20 and 30 m/s. *)
Definition three_speeds : list StatsCall :=
  [ CallUpdate (Num (Fin 10)); CallUpdate (Num (Fin 20));
    CallUpdate (Num (Fin 30)) ].

(** ** Behaviour as the specification words it

    Second definitions, written from the specification's sentences and
    not from the script, against which the functions above are compared. *)

(** The speed resolver of the specification: the secant speed is returned
    only for a [dt] that is finite and strictly positive. *)
Definition resolveSpeed_claimed (lastPosition : option Position)
    (rawSpeed : value) (deltaMeters : num) (current : Position) : value :=
  if isFinite rawSpeed then rawSpeed
  else
    match lastPosition with
    | None => Null
    | Some previous =>
        let dt := nsub (time current) (time previous) in
        if num_finite dt && ngtb dt (Fin 0) && num_finite deltaMeters
        then Num (ndiv deltaMeters dt)
        else Null
    end.

(** ** Predicates for further properties of the engine *)

(** The test of [distanceStore.update]: [delta] is finite and positive. *)
Definition accepted (delta : num) : bool :=
  num_finite delta && ngtb delta (Fin 0).

(** [null], or a finite number that is strictly positive. *)
Definition null_or_positive (v : value) : Prop :=
  v = Null \/ exists q, v = Num (Fin q) /\ 0 < q.

(** The stored times of a run tracker: both [null], or both finite and
    strictly positive with the best one not above the last one. *)
Definition times_ok (best last : value) : Prop :=
  (best = Null /\ last = Null) \/
  exists b l, best = Num (Fin b) /\ last = Num (Fin l) /\ 0 < b /\ b <= l.

(** A best time [new] is not above the best time [old]: [null] may be
    followed by anything, a number only by itself or a smaller number. *)
Definition best_le (old new : value) : Prop :=
  match old, new with
  | Null, _ => True
  | Num _, Null => False
  | Num b, Num b' => b' = b \/ nltb b' b = true
  end.

(** The last sample of [samples] with a finite speed and a finite
    timestamp, as the pair the acceleration store keeps; [base] when there
    is none. *)
Fixpoint last_finite_sample (base : value * value)
    (samples : list (value * num)) : value * value :=
  match samples with
  | [] => base
  | x :: rest =>
      last_finite_sample
        (if isFinite (fst x) && num_finite (snd x)
         then (fst x, Num (snd x)) else base)
        rest
  end.


(** * The readouts and the page around the engine *)

(** ** More operations on numbers *)

(** Truncation of a rational toward zero. *)
Definition Qtrunc (q : Q) : Z :=
  if Qleb 0 q then Qfloor q else Qceiling q.

(** [a % b]: the remainder of the truncated division, with the sign of
    [a]. *)
Definition nrem (a b : num) : num :=
  match a, b with
  | Fin x, Fin y =>
      if Qeqb y 0 then NaN
      else Fin (Qred (x - y * inject_Z (Qtrunc (x / y))))
  | Fin x, PosInf | Fin x, NegInf => Fin x
  | _, _ => NaN
  end.

(** [Math.round]: the nearest integer, a tie going up. *)
Definition Math_round (a : num) : num :=
  match a with
  | Fin x => Fin (inject_Z (Qfloor (x + (1 # 2))))
  | _ => a
  end.

(** [arr[i]] for a number [i]: [None] (for [undefined]) unless [i] is an
    integer from 0 to the length of [arr] minus 1. *)
Definition array_get {A : Type} (arr : list A) (i : num) : option A :=
  match i with
  | Fin q =>
      if Qeqb q (inject_Z (Qfloor q)) && Qleb 0 q
      then nth_error arr (Z.to_nat (Qfloor q))
      else None
  | _ => None
  end.

(** [x || 1] for a number [x]. *)
Definition or_one (x : num) : num :=
  if num_truthy x then x else Fin 1.

(** ** The heading readout *)

(** [((value % 360) + 360) % 360], as in [handlePosition] and
    [formatHeading]. *)
Definition normalizedHeading (value : num) : num :=
  nrem (nadd (nrem value (Fin 360)) (Fin 360)) (Fin 360).

(** [headingValue] of [handlePosition]. *)
Definition headingValue (heading : value) : value :=
  if isFinite heading then Num (normalizedHeading (toNumber heading))
  else Null.

Definition headings : list string :=
  [ "N"; "NE"; "E"; "SE"; "S"; "SW"; "W"; "NW"; "N" ]%string.

(** [headingToCardinal(heading)]; [None] stands for [undefined]. *)
Definition headingToCardinal (heading : num) : option string :=
  let index := Math_round (ndiv heading (Fin 45)) in
  array_get headings index.

(** The text of [formatHeading]: two dashes, or the normalized heading
    (printed with one decimal) followed by the cardinal. *)
Inductive HeadingText : Type :=
| NoHeading
| HeadingOf (normalized : num) (cardinal : option string).

Definition formatHeading (value : value) : HeadingText :=
  if negb (isFinite value) then NoHeading
  else
    let normalized := normalizedHeading (toNumber value) in
    HeadingOf normalized (headingToCardinal normalized).

(** ** The viewport scale *)

Inductive Orientation : Type :=
| landscape
| portrait.

(** [readBaseDimensions()]: [width] and [height] are what [parseFloat]
    made of the two style variables, the fallbacks are the sides of the
    rectangle of the surface. *)
Definition readBaseDimensions (width height fallbackWidth fallbackHeight : num)
    : num * num :=
  (if num_finite width then width else or_one fallbackWidth,
   if num_finite height then height else or_one fallbackHeight).

(** [applyScale()]: the orientation it sets and the scale it writes
    (before [toFixed(4)]); the window sizes, the rectangle of the stage and
    the inputs of [readBaseDimensions] are arguments. *)
Definition applyScale (innerWidth innerHeight boundsWidth boundsHeight : num)
    (width height fallbackWidth fallbackHeight : num) : Orientation * num :=
  let orientation :=
    if ngeb innerWidth innerHeight then landscape else portrait in
  let availableWidth := Math_max boundsWidth (Fin 1) in
  let availableHeight := Math_max boundsHeight (Fin 1) in
  let base := readBaseDimensions width height fallbackWidth fallbackHeight in
  let rawScale :=
    Math_min (ndiv availableWidth (fst base))
             (ndiv availableHeight (snd base)) in
  let safeScale := Math_max (Fin 0.35) (Math_min rawScale (Fin 1.75)) in
  (orientation, safeScale).

(** ** The session clock

    [Date.now()] and the second counts are integers; they are modelled by
    [Z]. *)

(** [elapsedSeconds] of [updateSessionClock]; [sessionStart] is [None]
    for [null], and [Math.round(d / 1000)] of an integer [d] is the floor
    of [(d + 500) / 1000]. *)
Definition elapsedSeconds (sessionStart : option Z) (now : Z) : Z :=
  match sessionStart with
  | None => 0
  | Some start =>
      if (start =? 0)%Z then 0%Z
      else Z.max 0 ((now - start + 500) / 1000)
  end.

(** [value.toString()] of an integer. *)
Definition toString (value : Z) : string :=
  NilEmpty.string_of_int (Z.to_int value).

(** [s.padStart(2, "0")]. *)
Definition padStart2 (s : string) : string :=
  match String.length s with
  | O => "00"%string
  | S O => ("0" ++ s)%string
  | _ => s
  end.

Definition pad (value : Z) : string := padStart2 (toString value).

(** [formatClock(totalSeconds)]. *)
Definition formatClock (totalSeconds : Z) : string :=
  let hours := (totalSeconds / 3600)%Z in
  let minutes := (Z.rem totalSeconds 3600 / 60)%Z in
  let seconds := Z.rem totalSeconds 60 in
  (pad hours ++ ":" ++ pad minutes ++ ":" ++ pad seconds)%string.

(** The decimal digit [d] as a character, and the two digits of a number
    below 100. *)
Definition digit (d : Z) : ascii :=
  ascii_of_nat (48 + Z.to_nat d).

Definition two_digits (n : Z) : string :=
  String (digit (n / 10)) (String (digit (n mod 10)) EmptyString).

(** ** [createDisplayCarousel]

    The closure of the carousel and what it writes to the page.  The
    container, the track, the label, the indicator and the two buttons are
    taken to be present.  The width of the container, which the script
    reads from the document, is an argument [rectWidth] of every handler
    that reads it; capturing and releasing the pointer has no counterpart. *)

Module Carousel.

(** A page of the track: its [dataset.label], if any. *)
Definition Page : Type := option string.

Inductive PointerType : Type :=
| mouse
| touch
| pen.

(** The fields of a pointer event that the handlers read. *)
Record PointerEvent : Type := mkPointerEvent {
  pointerType : PointerType;
  buttons : Z;
  eventPointerId : Z;
  clientX : num
}.

(** [state], followed by what is written to the page: the transition and
    the offset of the track, the texts of the label and of the indicator,
    and the [disabled] flags of the buttons. *)
Record carousel : Type := mkCarousel {
  index : Z;
  pages : list Page;
  width : num;
  pointerId : option Z;
  startX : num;
  deltaX : num;
  activePointers : list Z;
  isMultiTouch : bool;
  transitionNone : bool;
  offset : num;
  labelText : string;
  indicatorText : string;
  prevDisabled : bool;
  nextDisabled : bool
}.

(** The set [activePointers], kept as a list without repetition. *)
Definition has (id : Z) (s : list Z) : bool := existsb (Z.eqb id) s.

Definition add (id : Z) (s : list Z) : list Z :=
  if has id s then s else s ++ [id].

Definition delete (id : Z) (s : list Z) : list Z :=
  filter (fun x => negb (Z.eqb id x)) s.

(** [state.pages[state.index]?.dataset.label], when it is a non-empty
    string. *)
Definition active_label (c : carousel) : option string :=
  if (index c <? 0)%Z then None
  else
    match nth_error (pages c) (Z.to_nat (index c)) with
    | Some (Some l) => if String.eqb l "" then None else Some l
    | _ => None
    end.

(** The four values [updateControls()] computes. *)
Definition label_of (c : carousel) : string :=
  match active_label c with
  | Some l => l
  | None => ("Display " ++ toString (index c + 1))%string
  end.

Definition indicator_of (c : carousel) : string :=
  let total := Z.max (Z.of_nat (length (pages c))) 1 in
  (toString (Z.min (index c + 1) total) ++ " / " ++ toString total)%string.

Definition prev_of (c : carousel) : bool := (index c <=? 0)%Z.

Definition next_of (c : carousel) : bool :=
  match pages c with
  | [] => true
  | _ => (Z.of_nat (length (pages c)) - 1 <=? index c)%Z
  end.

Definition updateControls (c : carousel) : carousel :=
  {| index := index c; pages := pages c; width := width c;
     pointerId := pointerId c; startX := startX c; deltaX := deltaX c;
     activePointers := activePointers c; isMultiTouch := isMultiTouch c;
     transitionNone := transitionNone c; offset := offset c;
     labelText := label_of c;
     indicatorText := indicator_of c;
     prevDisabled := prev_of c;
     nextDisabled := next_of c |}.

(** [applyTransform(extra)]. *)
Definition applyTransform (rectWidth : num) (extra : num) (c : carousel)
    : carousel :=
  let w := or_one rectWidth in
  {| index := index c; pages := pages c; width := w;
     pointerId := pointerId c; startX := startX c; deltaX := deltaX c;
     activePointers := activePointers c; isMultiTouch := isMultiTouch c;
     transitionNone := transitionNone c;
     offset := nadd (nmul (Fin (inject_Z (- index c))) w) extra;
     labelText := labelText c; indicatorText := indicatorText c;
     prevDisabled := prevDisabled c; nextDisabled := nextDisabled c |}.

Definition set_index (i : Z) (c : carousel) : carousel :=
  {| index := i; pages := pages c; width := width c;
     pointerId := pointerId c; startX := startX c; deltaX := deltaX c;
     activePointers := activePointers c; isMultiTouch := isMultiTouch c;
     transitionNone := transitionNone c; offset := offset c;
     labelText := labelText c; indicatorText := indicatorText c;
     prevDisabled := prevDisabled c; nextDisabled := nextDisabled c |}.

Definition set_pages (p : list Page) (c : carousel) : carousel :=
  {| index := index c; pages := p; width := width c;
     pointerId := pointerId c; startX := startX c; deltaX := deltaX c;
     activePointers := activePointers c; isMultiTouch := isMultiTouch c;
     transitionNone := transitionNone c; offset := offset c;
     labelText := labelText c; indicatorText := indicatorText c;
     prevDisabled := prevDisabled c; nextDisabled := nextDisabled c |}.

Definition set_transition (none : bool) (c : carousel) : carousel :=
  {| index := index c; pages := pages c; width := width c;
     pointerId := pointerId c; startX := startX c; deltaX := deltaX c;
     activePointers := activePointers c; isMultiTouch := isMultiTouch c;
     transitionNone := none; offset := offset c;
     labelText := labelText c; indicatorText := indicatorText c;
     prevDisabled := prevDisabled c; nextDisabled := nextDisabled c |}.

(** The pointer fields of [state], set together. *)
Definition set_pointer (id : option Z) (start delta : num)
    (active : list Z) (multi : bool) (c : carousel) : carousel :=
  {| index := index c; pages := pages c; width := width c;
     pointerId := id; startX := start; deltaX := delta;
     activePointers := active; isMultiTouch := multi;
     transitionNone := transitionNone c; offset := offset c;
     labelText := labelText c; indicatorText := indicatorText c;
     prevDisabled := prevDisabled c; nextDisabled := nextDisabled c |}.

Definition set_width (w : num) (c : carousel) : carousel :=
  {| index := index c; pages := pages c; width := w;
     pointerId := pointerId c; startX := startX c; deltaX := deltaX c;
     activePointers := activePointers c; isMultiTouch := isMultiTouch c;
     transitionNone := transitionNone c; offset := offset c;
     labelText := labelText c; indicatorText := indicatorText c;
     prevDisabled := prevDisabled c; nextDisabled := nextDisabled c |}.

(** [refreshPages()]; [children] are the children of the track. *)
Definition refreshPages (rectWidth : num) (children : list Page)
    (c : carousel) : carousel :=
  let c1 := set_pages children c in
  let c2 :=
    match children with
    | [] => set_index 0 c1
    | _ =>
        if (Z.of_nat (length children) <=? index c1)%Z
        then set_index (Z.of_nat (length children) - 1) c1
        else c1
    end in
  applyTransform rectWidth (Fin 0) (updateControls c2).

(** [goTo(targetIndex)]. *)
Definition goTo (rectWidth : num) (targetIndex : Z) (c : carousel)
    : carousel :=
  match pages c with
  | [] => c
  | _ =>
      let nextIndex :=
        Z.max 0 (Z.min targetIndex (Z.of_nat (length (pages c)) - 1)) in
      if (nextIndex =? index c)%Z
      then applyTransform rectWidth (Fin 0) (set_transition false c)
      else
        updateControls
          (applyTransform rectWidth (Fin 0)
             (set_transition false (set_index nextIndex c)))
  end.

(** [cancelSwipe()]. *)
Definition cancelSwipe (rectWidth : num) (c : carousel) : carousel :=
  applyTransform rectWidth (Fin 0)
    (set_transition false
       (set_pointer None (startX c) (Fin 0) (activePointers c)
          (isMultiTouch c) c)).

(** [pointerDown(event)]. *)
Definition pointerDown (rectWidth : num) (event : PointerEvent)
    (c : carousel) : carousel :=
  let is_mouse :=
    match pointerType event with mouse => true | _ => false end in
  let is_touch :=
    match pointerType event with touch => true | _ => false end in
  if is_mouse && negb (buttons event =? 1)%Z then c
  else
    let active := add (eventPointerId event) (activePointers c) in
    let c1 :=
      set_pointer (pointerId c) (startX c) (deltaX c) active
        (isMultiTouch c) c in
    if is_touch && (1 <? length active)%nat
    then
      cancelSwipe rectWidth
        (set_pointer (pointerId c1) (startX c1) (deltaX c1) active true c1)
    else if isMultiTouch c1 then c1
    else
      set_transition true
        (set_pointer (Some (eventPointerId event)) (clientX event) (Fin 0)
           active (isMultiTouch c1) c1).

(** [event.pointerId !== state.pointerId]. *)
Definition other_pointer (event : PointerEvent) (c : carousel) : bool :=
  match pointerId c with
  | Some id => negb (eventPointerId event =? id)%Z
  | None => true
  end.

(** [pointerMove(event)]. *)
Definition pointerMove (rectWidth : num) (event : PointerEvent)
    (c : carousel) : carousel :=
  if isMultiTouch c || other_pointer event c then c
  else
    let delta := nsub (clientX event) (startX c) in
    applyTransform rectWidth delta
      (set_pointer (pointerId c) (startX c) delta (activePointers c)
         (isMultiTouch c) c).

(** [finishSwipe()]. *)
Definition finishSwipe (rectWidth : num) (c : carousel) : carousel :=
  let threshold := Math_min (Fin 120) (nmul (width c) (Fin 0.2)) in
  let c1 :=
    if ngtb (Math_abs (deltaX c)) threshold
    then
      if nltb (deltaX c) (Fin 0)
      then goTo rectWidth (index c + 1) c
      else goTo rectWidth (index c - 1) c
    else applyTransform rectWidth (Fin 0) c in
  set_pointer (pointerId c1) (startX c1) (Fin 0) (activePointers c1)
    (isMultiTouch c1) c1.

(** [pointerUp(event)], also the handler of [pointercancel]. *)
Definition pointerUp (rectWidth : num) (event : PointerEvent)
    (c : carousel) : carousel :=
  let active := delete (eventPointerId event) (activePointers c) in
  let multi :=
    match active with [] => false | _ => isMultiTouch c end in
  let c1 := set_pointer (pointerId c) (startX c) (deltaX c) active multi c in
  if other_pointer event c1
  then
    match pointerId c1 with
    | Some id =>
        if has id active then c1
        else set_pointer None (startX c1) (Fin 0) active multi c1
    | None => set_pointer None (startX c1) (Fin 0) active multi c1
    end
  else
    let c2 := set_transition false c1 in
    let c3 :=
      if negb multi then finishSwipe rectWidth c2
      else applyTransform rectWidth (Fin 0) c2 in
    set_pointer None (startX c3) (Fin 0) (activePointers c3)
      (isMultiTouch c3) c3.

(** The handler of [resize]. *)
Definition resize (rectWidth : num) (c : carousel) : carousel :=
  applyTransform rectWidth (Fin 0) (set_width rectWidth c).

(** What happens to the carousel; each comes with the width of the
    container at that moment. *)
Inductive Event : Type :=
| ChildrenChanged (children : list Page)
| PrevClick
| NextClick
| PointerDown (event : PointerEvent)
| PointerMove (event : PointerEvent)
| PointerUp (event : PointerEvent)
| Resize.

Definition handle (c : carousel) (x : num * Event) : carousel :=
  let rectWidth := fst x in
  match snd x with
  | ChildrenChanged children => refreshPages rectWidth children c
  | PrevClick => goTo rectWidth (index c - 1) c
  | NextClick => goTo rectWidth (index c + 1) c
  | PointerDown event => pointerDown rectWidth event c
  | PointerMove event => pointerMove rectWidth event c
  | PointerUp event => pointerUp rectWidth event c
  | Resize => resize rectWidth c
  end.

(** [createDisplayCarousel(elements)] for a track with the given
    children: the initial [state], then the first [refreshPages()]. *)
Definition create (rectWidth : num) (children : list Page) : carousel :=
  refreshPages rectWidth children
    {| index := 0; pages := []; width := rectWidth;
       pointerId := None; startX := Fin 0; deltaX := Fin 0;
       activePointers := []; isMultiTouch := false;
       transitionNone := false; offset := Fin 0;
       labelText := ""; indicatorText := "";
       prevDisabled := false; nextDisabled := false |}.

Definition run (c : carousel) (events : list (num * Event)) : carousel :=
  fold_left handle events c.

End Carousel.

(** The carousel is consistent: the index is 0 on an empty track and a
    position of the track otherwise; no pointer is tracked during a
    multi-touch gesture, and a tracked pointer is among the active ones;
    and the label, the indicator and the buttons show what
    [updateControls] computes from the current index and pages. *)
Definition carousel_ok (c : Carousel.carousel) : Prop :=
  (0 <= Carousel.index c)%Z /\
  (Carousel.index c < Z.max 1 (Z.of_nat (length (Carousel.pages c))))%Z /\
  (Carousel.isMultiTouch c = true -> Carousel.pointerId c = None) /\
  (forall id, Carousel.pointerId c = Some id ->
              Carousel.has id (Carousel.activePointers c) = true) /\
  Carousel.labelText c = Carousel.label_of c /\
  Carousel.indicatorText c = Carousel.indicator_of c /\
  Carousel.prevDisabled c = Carousel.prev_of c /\
  Carousel.nextDisabled c = Carousel.next_of c.

(** The part of the consistency that concerns the index and the
    controls. *)
Definition shown_ok (c : Carousel.carousel) : Prop :=
  (0 <= Carousel.index c)%Z /\
  (Carousel.index c < Z.max 1 (Z.of_nat (length (Carousel.pages c))))%Z /\
  Carousel.labelText c = Carousel.label_of c /\
  Carousel.indicatorText c = Carousel.indicator_of c /\
  Carousel.prevDisabled c = Carousel.prev_of c /\
  Carousel.nextDisabled c = Carousel.next_of c.

(** The part that concerns the pointers. *)
Definition pointers_ok (c : Carousel.carousel) : Prop :=
  (Carousel.isMultiTouch c = true -> Carousel.pointerId c = None) /\
  (forall id, Carousel.pointerId c = Some id ->
              Carousel.has id (Carousel.activePointers c) = true).

(** An event that is not a change of the children of the track. *)
Definition is_gesture (e : Carousel.Event) : bool :=
  match e with
  | Carousel.ChildrenChanged _ => false
  | _ => true
  end.

(** ** Custom display files

    Strings are sequences of characters below 256; upper and lower case
    are those of the ASCII letters, the only ones that the patterns of the
    script and the names it compares can tell apart. *)

Definition is_lower (c : ascii) : bool :=
  (97 <=? nat_of_ascii c)%nat && (nat_of_ascii c <=? 122)%nat.

Definition is_upper (c : ascii) : bool :=
  (65 <=? nat_of_ascii c)%nat && (nat_of_ascii c <=? 90)%nat.

Definition upper (c : ascii) : ascii :=
  if is_lower c then ascii_of_nat (nat_of_ascii c - 32) else c.


(** Two characters that a pattern with the flag [i] takes for the same. *)
Definition eq_ci (a b : ascii) : bool := Ascii.eqb (upper a) (upper b).

(** [s] begins with [p], letter case apart. *)
Fixpoint starts_with_ci (p s : string) : bool :=
  match p with
  | EmptyString => true
  | String a p' =>
      match s with
      | EmptyString => false
      | String b s' => eq_ci a b && starts_with_ci p' s'
      end
  end.

(** [p] occurs somewhere in [s], letter case apart. *)
Fixpoint contains_ci (p s : string) : bool :=
  match s with
  | EmptyString => starts_with_ci p EmptyString
  | String _ s' => starts_with_ci p s || contains_ci p s'
  end.

(** [s.replace(/pattern/gi, replacement)] for a literal, non-empty
    [pattern]: the matches are found from left to right and do not
    overlap; [skip] counts the characters of the current match that are
    still to be dropped. *)
Fixpoint replace_ci (pattern replacement : string) (skip : nat) (s : string)
    : string :=
  match s with
  | EmptyString => EmptyString
  | String c rest =>
      match skip with
      | S k => replace_ci pattern replacement k rest
      | O =>
          if starts_with_ci pattern s
          then (replacement
                  ++ replace_ci pattern replacement
                       (String.length pattern - 1) rest)%string
          else String c (replace_ci pattern replacement 0 rest)
      end
  end.

(** The pattern of [escapeScriptContent] and what replaces it. *)
Definition script_close : string := "</script".
Definition script_close_escaped : string := "<\/script".

(** [escapeScriptContent(content)]. *)
Definition escapeScriptContent (content : string) : string :=
  replace_ci script_close script_close_escaped 0 content.


(** The split of [s] around its last dot, if it has one. *)
Fixpoint last_dot_split (s : string) : option (string * string) :=
  match s with
  | EmptyString => None
  | String c rest =>
      match last_dot_split rest with
      | Some (before, after) => Some (String c before, after)
      | None =>
          if Ascii.eqb c "." then Some (EmptyString, rest) else None
      end
  end.

(** [/\.([^.]+)$/i.exec(name)]: the text before the match and the captured
    extension.  The pattern needs a dot followed, up to the end of the
    name, by one or more characters that are not dots. *)
Definition extension_match (name : string) : option (string * string) :=
  match last_dot_split name with
  | Some (before, after) =>
      if String.eqb after "" then None else Some (before, after)
  | None => None
  end.

(** The characters of the class [[_-]], of the class [\s] (below 256) and
    of the class [\w]. *)
Definition is_sep (c : ascii) : bool :=
  Ascii.eqb c "_" || Ascii.eqb c "-".

Definition is_space (c : ascii) : bool :=
  let n := nat_of_ascii c in
  ((9 <=? n)%nat && (n <=? 13)%nat) || (n =? 32)%nat || (n =? 160)%nat.

Definition is_digit (c : ascii) : bool :=
  (48 <=? nat_of_ascii c)%nat && (nat_of_ascii c <=? 57)%nat.

Definition is_word (c : ascii) : bool :=
  is_upper c || is_lower c || is_digit c || Ascii.eqb c "_".

(** [s.replace(/[...]+/g, " ")] for the class [p]: every maximal run of
    characters of the class becomes one space; [in_run] tells that the
    previous character was of the class. *)
Fixpoint collapse (p : ascii -> bool) (in_run : bool) (s : string) : string :=
  match s with
  | EmptyString => EmptyString
  | String c rest =>
      if p c
      then (if in_run then collapse p true rest
            else String " " (collapse p true rest))
      else String c (collapse p false rest)
  end.

(** [s.trim()], in two steps. *)
Fixpoint trimStart (s : string) : string :=
  match s with
  | EmptyString => EmptyString
  | String c rest => if is_space c then trimStart rest else s
  end.

Fixpoint trimEnd (s : string) : string :=
  match s with
  | EmptyString => EmptyString
  | String c rest =>
      match trimEnd rest with
      | EmptyString => if is_space c then EmptyString else String c EmptyString
      | t => String c t
      end
  end.

Definition trim (s : string) : string := trimEnd (trimStart s).

(** [s.replace(/\b\w/g, char => char.toUpperCase())]: a word character
    that does not follow a word character is put in upper case. *)
Fixpoint capitalize (after_word : bool) (s : string) : string :=
  match s with
  | EmptyString => EmptyString
  | String c rest =>
      if is_word c
      then String (if after_word then c else upper c) (capitalize true rest)
      else String c (capitalize false rest)
  end.

(** [formatDisplayLabel(baseName)]. *)
Definition formatDisplayLabel (baseName : string) : string :=
  if String.eqb baseName "" then "Custom Display"%string
  else
    capitalize false
      (trim (collapse is_space false (collapse is_sep false baseName))).

(** Every character of [s] passes [p]. *)
Fixpoint all_chars (p : ascii -> bool) (s : string) : bool :=
  match s with
  | EmptyString => true
  | String c rest => p c && all_chars p rest
  end.

(** No space follows a space in [s], nor begins it when [prev] is set. *)
Fixpoint no_double_space (prev : bool) (s : string) : bool :=
  match s with
  | EmptyString => true
  | String c rest =>
      if Ascii.eqb c " " then negb prev && no_double_space true rest
      else no_double_space false rest
  end.

(** The spaces of [s] are single and inside: no space begins [s] (when
    [prev] is set), follows a space or ends [s]. *)
Fixpoint spaced_inside (prev : bool) (s : string) : bool :=
  match s with
  | EmptyString => true
  | String c rest =>
      if Ascii.eqb c " "
      then negb prev
           && negb (String.eqb rest "") && spaced_inside true rest
      else spaced_inside false rest
  end.

(** A tidy label: neither underscore nor hyphen, no white space but
    single spaces between two other characters. *)
Definition tidy (s : string) : bool :=
  all_chars (fun c => negb (is_sep c)) s
  && all_chars (fun c => negb (is_space c) || Ascii.eqb c " ") s
  && spaced_inside true s.

(** No character of [w] passes for [<]. *)
Fixpoint no_lt (w : string) : bool :=
  match w with
  | EmptyString => true
  | String x w' => negb (eq_ci x "<") && no_lt w'
  end.

(** [s] has no dot. *)
Fixpoint no_dot (s : string) : bool :=
  match s with
  | EmptyString => true
  | String c rest => negb (Ascii.eqb c ".") && no_dot rest
  end.

Module Upload.

(** A selected file: its name and its text. *)
Record File : Type := mkFile {
  name : string;
  text : string
}.

(** A bucket of the map built by [groupFilesByBasename]. *)
Record Group : Type := mkGroup {
  baseName : string;
  html : option File;
  css : option File;
  js : option File
}.





(** The [Map] of groups, in insertion order. *)
Definition Groups : Type := list (string * Group).

Fixpoint lookup (key : string) (groups : Groups) : option Group :=
  match groups with
  | [] => None
  | (k, g) :: rest => if String.eqb key k then Some g else lookup key rest
  end.

(** The bucket of [key] replaced by [f] of it. *)
Fixpoint update (key : string) (f : Group -> Group) (groups : Groups)
    : Groups :=
  match groups with
  | [] => []
  | (k, g) :: rest =>
      if String.eqb key k then (k, f g) :: rest
      else (k, g) :: update key f rest
  end.




(** The groups the upload handler turns into displays: it skips a group
    with neither an HTML nor a JS file. *)
Definition displayable (g : Group) : bool :=
  match html g, js g with
  | None, None => false
  | _, _ => true
  end.

End Upload.



(** ** The telemetry snapshot *)

(** The constants [handlePosition] computes on its way and renders. *)
Definition timestampSeconds (position : GeoPosition) : num :=
  ndiv (timestamp position) (Fin 1000).

Definition locationSnapshot (position : GeoPosition) : Position :=
  {| lat := latitude (coords position);
     lon := longitude (coords position);
     time := timestampSeconds position |}.

Definition distanceDelta (M : MathLib) (e : Engine) (position : GeoPosition)
    : num :=
  computeTravelDelta M (lastPosition e) (locationSnapshot position).

Definition speedValue (M : MathLib) (e : Engine) (position : GeoPosition)
    : value :=
  resolveSpeed (lastPosition e) (speed (coords position))
    (distanceDelta M e position) (locationSnapshot position).

Module Telemetry.

(** What a key of the snapshot holds: [null] or a number, or the text of
    the quarter-mile status. *)
Inductive Value : Type :=
| V (v : value)
| S (status : QuarterMileTracker.Status).

(** An object, as the list of its assignments: a later one overrides an
    earlier one of the same key, so that a spread [{...a, ...b}] and
    [Object.assign(a, b)] are both [a ++ b]. *)
Definition Object : Type := list (string * Value).

(** [o[key]]; [None] stands for [undefined]. *)
Fixpoint lookup (key : string) (o : Object) : option Value :=
  match o with
  | [] => None
  | (k, v) :: rest =>
      match lookup key rest with
      | Some later => Some later
      | None => if String.eqb k key then Some v else None
      end
  end.

(** An integer as a number. *)
Definition number (z : Z) : Value := V (Num (Fin (inject_Z z))).

(** [createDefaultTelemetrySnapshot()], [now] being what [Date.now()]
    returns. *)
Definition createDefaultTelemetrySnapshot (now : Z) : Object :=
  [ ("lat", V Null); ("lon", V Null); ("heading", V Null);
    ("gpsTimestamp", V Null); ("sessionSeconds", number 0);
    ("speed", V Null); ("speedMph", V Null); ("speedKph", V Null);
    ("speedKnots", V Null); ("speedMin", V Null); ("speedMax", V Null);
    ("speedAvg", V Null); ("accelCurrent", V Null);
    ("decelCurrent", V Null); ("peakAccel", V Null); ("peakDecel", V Null);
    ("distanceMeters", number 0); ("distanceKm", number 0);
    ("distanceMiles", number 0);
    ("quarterStatus", S QuarterMileTracker.Standby);
    ("quarterLast", V Null); ("quarterBest", V Null);
    ("zeroSixtyLast", V Null); ("zeroSixtyBest", V Null);
    ("updatedAt", number now) ]%string.

(** [pushTelemetry(update)] for an object [update], on the snapshot
    [telemetryState]; [now] is what [Date.now()] returns.  The snapshot
    after the call is what the call broadcasts. *)
Definition pushTelemetry (telemetryState update : Object) (now : Z)
    : Object :=
  (telemetryState ++ update) ++ [ ("updatedAt"%string, number now) ].

(** [Number.isFinite(x) ? x : null]. *)
Definition finite_or_null (x : value) : value :=
  if isFinite x then x else Null.

(** What the [render...] functions return. *)
Definition renderSpeed (speed : value) : Object :=
  if isFinite speed then
    let mph := nmul (toNumber speed) (Fin 2.236936) in
    let kph := nmul (toNumber speed) (Fin 3.6) in
    let knots := nmul (toNumber speed) (Fin 1.943844) in
    [ ("speed", V speed); ("speedMph", V (Num mph));
      ("speedKph", V (Num kph)); ("speedKnots", V (Num knots)) ]%string
  else
    [ ("speed", V Null); ("speedMph", V Null);
      ("speedKph", V Null); ("speedKnots", V Null) ]%string.

Definition renderSpeedStats (stats : SpeedStatsStore.stats) : Object :=
  [ ("speedMin", V (SpeedStatsStore.stats_min stats));
    ("speedMax", V (SpeedStatsStore.stats_max stats));
    ("speedAvg", V (SpeedStatsStore.average stats)) ]%string.

Definition renderAcceleration (state : AccelerationStore.view) : Object :=
  [ ("accelCurrent", V (finite_or_null (AccelerationStore.view_current state)));
    ("decelCurrent", V (finite_or_null (AccelerationStore.currentDecel state)));
    ("peakAccel", V (AccelerationStore.view_peakAccel state));
    ("peakDecel", V (AccelerationStore.view_peakDecel state)) ]%string.

Definition renderDistance (totalMeters : num) : Object :=
  let km := ndiv totalMeters (Fin 1000) in
  let miles := ndiv totalMeters (Fin 1609.344) in
  [ ("distanceMeters", V (Num totalMeters)); ("distanceKm", V (Num km));
    ("distanceMiles", V (Num miles)) ]%string.

Definition renderQuarterMile (state : QuarterMileTracker.view) : Object :=
  [ ("quarterStatus", S (QuarterMileTracker.view_status state));
    ("quarterLast", V (QuarterMileTracker.view_lastTime state));
    ("quarterBest", V (QuarterMileTracker.view_bestTime state)) ]%string.

Definition renderZeroSixty (state : ZeroSixtyTracker.view) : Object :=
  [ ("zeroSixtyLast", V (ZeroSixtyTracker.view_lastTime state));
    ("zeroSixtyBest", V (ZeroSixtyTracker.view_bestTime state)) ]%string.

(** [...statsData, ...accelerationData, ...distanceData, ...quarterData,
    ...zeroData], the end of the three large updates: each part renders
    what the call on its store returned, which is [get] of the store
    after the call. *)
Definition readouts (e : Engine) : Object :=
  renderSpeedStats (SpeedStatsStore.get (speedStatsStore e))
  ++ renderAcceleration (AccelerationStore.get (accelerationStore e))
  ++ renderDistance (DistanceStore.get (distanceStore e))
  ++ renderQuarterMile (QuarterMileTracker.get (quarterMileTracker e))
  ++ renderZeroSixty (ZeroSixtyTracker.get (zeroSixtyTracker e)).

(** The module-level variables behind the snapshot. *)
Record App : Type := mkApp {
  engine : Engine;
  telemetryState : Object;
  sessionStart : option Z;
  isTracking : bool
}.

(** [telemetryState.sessionSeconds === elapsedSeconds]. *)
Definition same_seconds (stored : option Value) (elapsedSeconds : Z) : bool :=
  match stored with
  | Some (V (Num n)) => neqb n (Fin (inject_Z elapsedSeconds))
  | _ => false
  end.

(** [updateSessionClock()]; [now] and [pushedAt] are what [Date.now()]
    returns to it and to the [pushTelemetry] it may call. *)
Definition updateSessionClock (now pushedAt : Z) (a : App) : App :=
  let elapsed := elapsedSeconds (sessionStart a) now in
  if same_seconds (lookup "sessionSeconds" (telemetryState a)) elapsed
  then a
  else
    {| engine := engine a;
       telemetryState :=
         pushTelemetry (telemetryState a)
           [ ("sessionSeconds"%string, number elapsed) ] pushedAt;
       sessionStart := sessionStart a;
       isTracking := isTracking a |}.

(** [handlePosition(position)] with its [pushTelemetry]. *)
Definition handlePosition (M : MathLib) (position : GeoPosition) (now : Z)
    (a : App) : App :=
  let e := handlePosition M (engine a) position in
  {| engine := e;
     telemetryState :=
       pushTelemetry (telemetryState a)
         ([ ("lat", V (finite_or_null (Num (latitude (coords position)))));
            ("lon", V (finite_or_null (Num (longitude (coords position)))));
            ("heading", V (headingValue (heading (coords position))));
            ("gpsTimestamp", V (Num (timestampSeconds position))) ]%string
          ++ renderSpeed (speedValue M (engine a) position)
          ++ readouts e)
         now;
     sessionStart := sessionStart a;
     isTracking := isTracking a |}.

(** The update of [resetAllStores] and [restorePersistedReadouts]. *)
Definition blank_update (e : Engine) : Object :=
  [ ("lat", V Null); ("lon", V Null); ("heading", V Null) ]%string
  ++ renderSpeed Null
  ++ readouts e
  ++ [ ("measurementTimestamp"%string, V Null) ].

(** [resetAllStores()]: [Date.now()] returns [started] to the assignment
    of [sessionStart], [now] and [pushedAt] to [updateSessionClock], and
    [finished] to the last [pushTelemetry]. *)
Definition resetAllStores (started now pushedAt finished : Z) (a : App)
    : App :=
  let e := resetAllStores (engine a) in
  let a1 :=
    updateSessionClock now pushedAt
      {| engine := e;
         telemetryState := telemetryState a;
         sessionStart := Some started;
         isTracking := isTracking a |} in
  {| engine := e;
     telemetryState :=
       pushTelemetry (telemetryState a1) (blank_update e) finished;
     sessionStart := Some started;
     isTracking := isTracking a |}.

(** [restorePersistedReadouts()]. *)
Definition restorePersistedReadouts (now : Z) (a : App) : App :=
  {| engine := engine a;
     telemetryState :=
       pushTelemetry (telemetryState a) (blank_update (engine a)) now;
     sessionStart := sessionStart a;
     isTracking := isTracking a |}.

(** [startTracking()] on a device with geolocation, and [stopTracking()]:
    the watch and the timer they set and clear show in the events that
    follow. *)
Definition startTracking (started now pushedAt : Z) (a : App) : App :=
  if isTracking a then a
  else
    updateSessionClock now pushedAt
      {| engine := engine a;
         telemetryState := telemetryState a;
         sessionStart := Some started;
         isTracking := true |}.

Definition stopTracking (a : App) : App :=
  {| engine := engine a;
     telemetryState := telemetryState a;
     sessionStart := sessionStart a;
     isTracking := false |}.

(** The start of the script, for the stores [e] read from local storage:
    the default snapshot, then [restorePersistedReadouts()]. *)
Definition load (e : Engine) (created now : Z) : App :=
  restorePersistedReadouts now
    {| engine := e;
       telemetryState := createDefaultTelemetrySnapshot created;
       sessionStart := None;
       isTracking := false |}.

(** What happens to the page, with the readings of the clock. *)
Inductive Event : Type :=
| Fix (position : GeoPosition) (now : Z)
| Tick (now pushedAt : Z)
| Reset (started now pushedAt finished : Z)
| Start (started now pushedAt : Z)
| Stop.

Definition handle (M : MathLib) (a : App) (event : Event) : App :=
  match event with
  | Fix position now => handlePosition M position now a
  | Tick now pushedAt => updateSessionClock now pushedAt a
  | Reset started now pushedAt finished =>
      resetAllStores started now pushedAt finished a
  | Start started now pushedAt => startTracking started now pushedAt a
  | Stop => stopTracking a
  end.

(** The page after the events, in every order, also those a browser
    would not deliver. *)
Definition run (M : MathLib) (a : App) (events : list Event) : App :=
  fold_left (handle M) events a.

End Telemetry.

(** Every key of the readouts of the stores holds, in the snapshot, what
    the store returns now. *)
Definition follows_stores (a : Telemetry.App) : Prop :=
  forall key v,
    Telemetry.lookup key (Telemetry.readouts (Telemetry.engine a)) = Some v ->
    Telemetry.lookup key (Telemetry.telemetryState a) = Some v.

(** A key of the snapshot holds [null] or a finite number. *)
Definition null_or_finite (stored : option Telemetry.Value) : bool :=
  match stored with
  | Some (Telemetry.V Null) => true
  | Some (Telemetry.V (Num n)) => num_finite n
  | _ => false
  end.

(** The keys a fix filters before it pushes them. *)
Definition filtered_keys : list string :=
  [ "lat"; "lon"; "heading"; "speed"; "accelCurrent"; "decelCurrent" ]%string.

(** A page that has seen one fix at five seconds of the clock of the
    receiver. *)
Definition page_after_fix : Telemetry.App :=
  Telemetry.handlePosition small_angle_math
    (mkGeoPosition (mkCoords (Fin 45) (Fin 7) Null (Num (Fin 10))) (Fin 5000))
    1000%Z (Telemetry.load fresh 0%Z 0%Z).

(** * Properties *)

#[local] Arguments Qred : simpl never.
#[local] Arguments Qplus : simpl never.
#[local] Arguments Qminus : simpl never.
#[local] Arguments Qmult : simpl never.
#[local] Arguments Qdiv : simpl never.
#[local] Arguments Qopp : simpl never.
#[local] Arguments Qabs : simpl never.
#[local] Arguments Qcompare : simpl never.

(** ** Comparisons *)

Lemma Qltb_lt (x y : Q) : Qltb x y = true <-> x < y.
Proof.
  unfold Qltb. rewrite Qlt_alt. destruct (x ?= y); intuition congruence.
Qed.

Lemma Qleb_le (x y : Q) : Qleb x y = true <-> x <= y.
Proof.
  unfold Qleb. rewrite Qle_alt. destruct (x ?= y); intuition congruence.
Qed.

Lemma Qeqb_eq (x y : Q) : Qeqb x y = true <-> x == y.
Proof.
  unfold Qeqb. rewrite Qeq_alt. destruct (x ?= y); intuition congruence.
Qed.

Lemma Qltb_nlt (x y : Q) : Qltb x y = false <-> y <= x.
Proof.
  rewrite <- not_true_iff_false, Qltb_lt. split; intros H.
  - now apply Qnot_lt_le.
  - now apply Qle_not_lt.
Qed.

Lemma Qleb_nle (x y : Q) : Qleb x y = false <-> y < x.
Proof.
  rewrite <- not_true_iff_false, Qleb_le. split; intros H.
  - now apply Qnot_le_lt.
  - now apply Qlt_not_le.
Qed.

Lemma Qred_zero (q : Q) : q == 0 -> Qred q = 0.
Proof. intros H. now rewrite (Qred_complete _ _ H). Qed.

(** Boolean tests on rationals become (in)equalities in the context and
    the goal, and [Qred] is erased, so that [lra] applies. *)
Ltac qbool :=
  repeat match goal with
  | H : Qltb _ _ = true |- _ => apply Qltb_lt in H
  | H : Qltb _ _ = false |- _ => apply Qltb_nlt in H
  | H : Qleb _ _ = true |- _ => apply Qleb_le in H
  | H : Qleb _ _ = false |- _ => apply Qleb_nle in H
  | H : Qeqb _ _ = true |- _ => apply Qeqb_eq in H
  | H : context [Qred ?q] |- _ => rewrite (Qred_correct q) in H
  | |- context [Qred ?q] => rewrite (Qred_correct q)
  | |- Qltb _ _ = true => apply Qltb_lt
  | |- Qltb _ _ = false => apply Qltb_nlt
  | |- Qleb _ _ = true => apply Qleb_le
  | |- Qleb _ _ = false => apply Qleb_nle
  | |- Qeqb _ _ = true => apply Qeqb_eq
  end.

Lemma nltb_trans (a b c : num) :
  nltb a b = true -> nltb b c = true -> nltb a c = true.
Proof.
  destruct a, b, c; simpl; try congruence; intros; qbool; lra.
Qed.

Lemma nltb_nleb (a b : num) : nltb a b = true -> nleb a b = true.
Proof. destruct a, b; simpl; try congruence; intros; qbool; lra. Qed.

Lemma nleb_trans (a b c : num) :
  nleb a b = true -> nleb b c = true -> nleb a c = true.
Proof.
  destruct a, b, c; simpl; try congruence; intros; qbool; lra.
Qed.

Lemma nleb_refl (a : num) : a <> NaN -> nleb a a = true.
Proof. destruct a; simpl; try congruence; intros; qbool; lra. Qed.

(** ** The distance store *)

Lemma distance_update_spec (st : DistanceStore.state) (delta : num) :
  DistanceStore.total (DistanceStore.update st delta) =
  if num_finite delta && ngtb delta (Fin 0)
  then nadd (DistanceStore.total st) delta
  else DistanceStore.total st.
Proof.
  unfold DistanceStore.update.
  now destruct (num_finite delta && ngtb delta (Fin 0)).
Qed.

Lemma distance_update_not_NaN (st : DistanceStore.state) (delta : num) :
  DistanceStore.total st <> NaN ->
  DistanceStore.total (DistanceStore.update st delta) <> NaN.
Proof.
  rewrite distance_update_spec.
  destruct delta as [d | | |]; simpl; trivial.
  destruct (Qltb 0 d); trivial.
  destruct (DistanceStore.total st); simpl; congruence.
Qed.

Lemma distance_update_le (st : DistanceStore.state) (delta : num) :
  DistanceStore.total st <> NaN ->
  nleb (DistanceStore.total st)
       (DistanceStore.total (DistanceStore.update st delta)) = true.
Proof.
  intros Hn. rewrite distance_update_spec.
  destruct delta as [d | | |]; simpl; try now apply nleb_refl.
  destruct (Qltb 0 d) eqn:Hd; [ | now apply nleb_refl ].
  destruct (DistanceStore.total st) as [t | | |]; simpl; try congruence.
  qbool. lra.
Qed.

Lemma distance_run_not_NaN (deltas : list num) :
  forall st, DistanceStore.total st <> NaN ->
  DistanceStore.total (distance_run st deltas) <> NaN.
Proof.
  induction deltas as [| d ds IH]; intros st Hn; simpl; trivial.
  apply IH. now apply distance_update_not_NaN.
Qed.

Lemma distance_run_le (deltas : list num) :
  forall st, DistanceStore.total st <> NaN ->
  nleb (DistanceStore.total st)
       (DistanceStore.total (distance_run st deltas)) = true.
Proof.
  induction deltas as [| d ds IH]; intros st Hn; simpl.
  - now apply nleb_refl.
  - eapply nleb_trans.
    + now apply (distance_update_le st d).
    + apply IH. now apply distance_update_not_NaN.
Qed.

Lemma engine_run_le (M : MathLib) (fixes : list GeoPosition) :
  forall e, DistanceStore.total (distanceStore e) <> NaN ->
  nleb (DistanceStore.total (distanceStore e))
       (DistanceStore.total (distanceStore (engine_run M e fixes))) = true.
Proof.
  induction fixes as [| p ps IH]; intros e Hn; simpl.
  - now apply nleb_refl.
  - eapply nleb_trans; [ | apply IH ]; simpl.
    + now apply distance_update_le.
    + now apply distance_update_not_NaN.
Qed.

(** The haversine distance from a point with finite coordinates to
    itself is 0. *)
Lemma computeTravelDelta_same (M : MathLib) (la lo : Q) (t1 t2 : num) :
  exact_at_origin M ->
  computeTravelDelta M (Some (mkPosition (Fin la) (Fin lo) t1))
    (mkPosition (Fin la) (Fin lo) t2) = Fin 0.
Proof.
  intros (Hsin & Hcos & Hs0 & Hs1 & Hat).
  unfold computeTravelDelta, toRadians, square; simpl.
  rewrite !(Qred_zero (_ - _)) by lra.
  change (Qred (0 * 3.141592653589793)) with 0.
  change (Qeqb 180 0) with false. change (Qeqb 2 0) with false.
  cbv iota. change (Qred (0 / 180)) with 0. change (Qred (0 / 2)) with 0.
  rewrite Hsin.
  pose proof (Hcos (Qred (Qred (la * 3.141592653589793) / 180))) as Hc.
  destruct (Math_cos M _) as [c | | |]; try discriminate Hc.
  simpl. change (Qred (0 * 0)) with 0.
  rewrite (Qred_zero (Qred (c * c) * 0)) by lra.
  change (Qred (0 + 0)) with 0. change (Qred (1 - 0)) with 1.
  rewrite Hs0, Hs1, Hat. reflexivity.
Qed.

Lemma small_angle_math_exact : exact_at_origin small_angle_math.
Proof. repeat split. Qed.

(** C1.  The cumulative distance never decreases.  [update(delta)] adds
    [delta] to the total exactly when [delta] is finite and strictly
    positive and leaves the total unchanged otherwise; hence, from a total
    that is a number, the total after any sequence of store updates, and
    after any sequence of position fixes whatever their coordinates, is at
    least the total before.  Two fixes at the same point, fed to a fresh
    engine or to an engine just reset, leave the total at 0. *)
Theorem distance_total_monotone :
  (forall st delta,
     DistanceStore.get (DistanceStore.update st delta) =
     if num_finite delta && ngtb delta (Fin 0)
     then nadd (DistanceStore.total st) delta
     else DistanceStore.total st) /\
  (forall st deltas,
     DistanceStore.total st <> NaN ->
     nleb (DistanceStore.total st)
          (DistanceStore.total (distance_run st deltas)) = true) /\
  (forall M e fixes,
     DistanceStore.total (distanceStore e) <> NaN ->
     nleb (DistanceStore.total (distanceStore e))
          (DistanceStore.total (distanceStore (engine_run M e fixes))) = true) /\
  (forall M la lo h1 h2 v1 v2 t1 t2,
     exact_at_origin M ->
     DistanceStore.total
       (distanceStore
          (engine_run M fresh
             [ mkGeoPosition (mkCoords (Fin la) (Fin lo) h1 v1) t1;
               mkGeoPosition (mkCoords (Fin la) (Fin lo) h2 v2) t2 ])) = Fin 0) /\
  (forall M e la lo h1 h2 v1 v2 t1 t2,
     exact_at_origin M ->
     DistanceStore.total
       (distanceStore
          (engine_run M (resetAllStores e)
             [ mkGeoPosition (mkCoords (Fin la) (Fin lo) h1 v1) t1;
               mkGeoPosition (mkCoords (Fin la) (Fin lo) h2 v2) t2 ])) = Fin 0).
Proof.
  split; [ | split; [ | split; [ | split ] ] ].
  - intros st delta. apply distance_update_spec.
  - intros st deltas. apply distance_run_le.
  - intros M e fixes. apply engine_run_le.
  - intros M la lo h1 h2 v1 v2 t1 t2 HM.
    unfold engine_run, fold_left, handlePosition at 1.
    cbn [lastPosition distanceStore coords latitude longitude timestamp].
    unfold handlePosition.
    cbn [lastPosition distanceStore coords latitude longitude timestamp fresh].
    rewrite computeTravelDelta_same by exact HM.
    reflexivity.
  - intros M e la lo h1 h2 v1 v2 t1 t2 HM.
    unfold engine_run, fold_left, handlePosition at 1.
    cbn [lastPosition distanceStore coords latitude longitude timestamp].
    unfold handlePosition.
    cbn [lastPosition distanceStore coords latitude longitude timestamp
         resetAllStores].
    rewrite computeTravelDelta_same by exact HM.
    reflexivity.
Qed.

(** The statement of C1 at a concrete run: the store fed a negative, a
    non-number and two positive deltas, and a fresh engine fed the same
    fix twice. *)
Lemma distance_total_monotone_witness :
  nleb (Fin 0)
       (DistanceStore.total
          (distance_run DistanceStore.defaults
             [Fin (-3); NaN; Fin 2.5; Fin 0; Fin 4])) = true /\
  DistanceStore.total
    (distanceStore
       (engine_run small_angle_math fresh
          [ mkGeoPosition (mkCoords (Fin 45) (Fin 7.5) Null Null) (Fin 1000);
            mkGeoPosition (mkCoords (Fin 45) (Fin 7.5) Null Null) (Fin 1000) ]))
  = Fin 0.
Proof.
  destruct distance_total_monotone as (_ & Hrun & _ & Hsame & _).
  split.
  - apply (Hrun DistanceStore.defaults). discriminate.
  - apply Hsame. exact small_angle_math_exact.
Defined.

(** ** The speed resolver *)

(** The guard [!dt || dt <= 0] rejects exactly the [dt] that are not
    strictly positive: 0, the negatives and [NaN]. *)
Lemma dt_guard (dt : num) :
  negb (num_truthy dt) || nleb dt (Fin 0) = negb (ngtb dt (Fin 0)).
Proof.
  destruct dt as [q | | |]; simpl; trivial.
  destruct (Qltb 0 q) eqn:H0, (Qleb q 0) eqn:H1, (Qeqb q 0) eqn:H2;
    simpl; trivial; qbool; lra.
Qed.

Lemma resolveSpeed_cases (lastPosition : option Position) (rawSpeed : value)
    (distanceDelta : num) (snapshot : Position) :
  resolveSpeed lastPosition rawSpeed distanceDelta snapshot =
  if isFinite rawSpeed then rawSpeed
  else
    match lastPosition with
    | None => Null
    | Some previous =>
        let dt := nsub (time snapshot) (time previous) in
        if ngtb dt (Fin 0) && num_finite distanceDelta
        then Num (ndiv distanceDelta dt)
        else Null
    end.
Proof.
  unfold resolveSpeed.
  destruct (isFinite rawSpeed); trivial.
  destruct lastPosition as [previous |]; trivial.
  cbv zeta. rewrite dt_guard.
  destruct (ngtb _ _); simpl; trivial.
  now destruct (num_finite distanceDelta).
Qed.

(** C2, as the script has it.  A finite [rawSpeed] is returned verbatim.
    Otherwise, with a previous fix, a [dt = current.time - previous.time]
    that is strictly positive and a finite [deltaMeters], the result is
    [deltaMeters / dt]; in every other case (no previous fix, [dt] zero,
    negative or [NaN], [deltaMeters] not finite) it is [null].  The
    finiteness of [dt] is not tested: for every finite [dt] the resolver is
    the one of the specification, while [dt = +Infinity] yields
    [deltaMeters / dt = 0].  A fix with the time of the previous one yields
    [null]. *)
Theorem resolveSpeed_preference_order :
  (forall lastPosition rawSpeed distanceDelta snapshot,
     resolveSpeed lastPosition rawSpeed distanceDelta snapshot =
     if isFinite rawSpeed then rawSpeed
     else
       match lastPosition with
       | None => Null
       | Some previous =>
           let dt := nsub (time snapshot) (time previous) in
           if ngtb dt (Fin 0) && num_finite distanceDelta
           then Num (ndiv distanceDelta dt)
           else Null
       end) /\
  (forall previous rawSpeed distanceDelta snapshot,
     num_finite (nsub (time snapshot) (time previous)) = true ->
     resolveSpeed (Some previous) rawSpeed distanceDelta snapshot =
     resolveSpeed_claimed (Some previous) rawSpeed distanceDelta snapshot) /\
  (forall rawSpeed distanceDelta snapshot,
     resolveSpeed None rawSpeed distanceDelta snapshot =
     resolveSpeed_claimed None rawSpeed distanceDelta snapshot) /\
  (forall previous rawSpeed d snapshot,
     isFinite rawSpeed = false ->
     nsub (time snapshot) (time previous) = PosInf ->
     resolveSpeed (Some previous) rawSpeed (Fin d) snapshot = Num (Fin 0)) /\
  (forall previous rawSpeed distanceDelta snapshot t,
     isFinite rawSpeed = false ->
     time previous = Fin t -> time snapshot = Fin t ->
     resolveSpeed (Some previous) rawSpeed distanceDelta snapshot = Null).
Proof.
  split; [ | split; [ | split; [ | split ] ] ].
  - intros. apply resolveSpeed_cases.
  - intros previous rawSpeed distanceDelta snapshot Hdt.
    rewrite resolveSpeed_cases. unfold resolveSpeed_claimed.
    cbv zeta. now rewrite Hdt.
  - intros. rewrite resolveSpeed_cases. reflexivity.
  - intros previous rawSpeed d snapshot Hraw Hdt.
    rewrite resolveSpeed_cases, Hraw. cbv zeta. rewrite Hdt. reflexivity.
  - intros previous rawSpeed distanceDelta snapshot t Hraw Hp Hs.
    rewrite resolveSpeed_cases, Hraw, Hp, Hs. cbv zeta.
    cbn [nsub]. rewrite (Qred_zero (t - t)) by lra. reflexivity.
Qed.

(** C2 as stated fails when [dt] is [+Infinity]: [dt] is then not finite,
    yet the script returns [5 / Infinity = 0] where the specification's
    resolver returns [null]. *)
Lemma resolveSpeed_claim_counterexample :
  let previous := mkPosition (Fin 0) (Fin 0) (Fin 0) in
  let current := mkPosition (Fin 0) (Fin 0) PosInf in
  num_finite (nsub (time current) (time previous)) = false /\
  resolveSpeed (Some previous) Null (Fin 5) current = Num (Fin 0) /\
  resolveSpeed_claimed (Some previous) Null (Fin 5) current = Null /\
  resolveSpeed (Some previous) Null (Fin 5) current <>
  resolveSpeed_claimed (Some previous) Null (Fin 5) current.
Proof. repeat split. discriminate. Qed.

(** The statement of C2 at concrete fixes two seconds apart, 30 m of
    travel and no sensor speed: 15 m/s on both sides. *)
Lemma resolveSpeed_preference_order_witness :
  resolveSpeed (Some (mkPosition (Fin 0) (Fin 0) (Fin 10))) Null (Fin 30)
    (mkPosition (Fin 0) (Fin 0) (Fin 12)) =
  resolveSpeed_claimed (Some (mkPosition (Fin 0) (Fin 0) (Fin 10))) Null
    (Fin 30) (mkPosition (Fin 0) (Fin 0) (Fin 12)) /\
  resolveSpeed (Some (mkPosition (Fin 0) (Fin 0) (Fin 10))) Null (Fin 30)
    (mkPosition (Fin 0) (Fin 0) (Fin 10)) = Null.
Proof.
  destruct resolveSpeed_preference_order as (_ & Hfin & _ & _ & Hsame).
  split.
  - apply Hfin. reflexivity.
  - apply (Hsame _ _ _ _ 10); reflexivity.
Defined.

(** ** The quarter-mile tracker *)

(** The status of the tracker tells whether a run is armed: this holds
    initially and after every call. *)
Lemma armed_iff_running_update (t : QuarterMileTracker.tracker)
    (totalDistance : num) (speed : value) (timestamp : num) :
  armed_iff_running
    (QuarterMileTracker.update t totalDistance speed timestamp).
Proof.
  unfold armed_iff_running, QuarterMileTracker.update.
  destruct (QuarterMileTracker.runStart t) as [start |].
  - cbv zeta.
    destruct (ngeb (nsub totalDistance (QuarterMileTracker.distance start))
                QUARTER_MILE_M).
    + now destruct (num_finite (nsub timestamp (QuarterMileTracker.time start))
                    && ngtb (nsub timestamp (QuarterMileTracker.time start))
                         (Fin 0)).
    + destruct (negb (is_null speed) && isFinite speed
                && nltb (toNumber speed) (Fin 0.5)); [ reflexivity | ].
      cbn [QuarterMileTracker.runStart QuarterMileTracker.status].
      now destruct (ngtb (nsub QUARTER_MILE_M
                            (nsub totalDistance
                               (QuarterMileTracker.distance start))) (Fin 0)).
  - now destruct (shouldArmRun speed).
Qed.

Lemma armed_iff_running_run (samples : list (num * value * num)) :
  forall t, armed_iff_running t -> armed_iff_running (quarter_run t samples).
Proof.
  induction samples as [| [[d v] ts] rest IH]; intros t H; simpl; trivial.
  apply IH, armed_iff_running_update.
Qed.

(** The rule both trackers use for the best time: [elapsed] replaces it
    when it is [null] or strictly above [elapsed]. *)
Lemma best_time_floor (best : value) (elapsed b : num) :
  best = Num b ->
  exists b',
    (if is_null best || nltb elapsed (toNumber best)
     then Num elapsed else best) = Num b' /\
    (b' = b \/ nltb b' b = true).
Proof.
  intros ->. simpl. destruct (nltb elapsed b) eqn:Hlt.
  - exists elapsed. auto.
  - exists b. auto.
Qed.

Lemma nltb_irrefl (a : num) : nltb a a = false.
Proof. destruct a; simpl; trivial. qbool. lra. Qed.

(** C3.  For a tracker with a run armed and a covered distance
    [totalDistance - runStart.distance] of at least 402.336 m, the call
    clears the run; with [elapsed = timestamp - runStart.time] finite and
    strictly positive it stores [elapsed] as [lastTime], replaces
    [bestTime] by [elapsed] exactly when [bestTime] is [null] or [elapsed]
    is strictly smaller (so a best time never increases and a tie keeps
    it) and sets the status to Completed; with any other [elapsed] the
    status is Standby and both times are unchanged.  A run of 20 s
    followed by a run of 25 s leaves [bestTime = 20]. *)
Theorem quarter_mile_completion :
  (forall t start totalDistance speed timestamp,
     QuarterMileTracker.runStart t = Some start ->
     ngeb (nsub totalDistance (QuarterMileTracker.distance start))
          QUARTER_MILE_M = true ->
     let elapsed := nsub timestamp (QuarterMileTracker.time start) in
     let t' := QuarterMileTracker.update t totalDistance speed timestamp in
     QuarterMileTracker.runStart t' = None /\
     (num_finite elapsed = true -> ngtb elapsed (Fin 0) = true ->
      QuarterMileTracker.view_status (QuarterMileTracker.get t')
        = QuarterMileTracker.Completed /\
      QuarterMileTracker.lastTime (QuarterMileTracker.st t') = Num elapsed /\
      QuarterMileTracker.bestTime (QuarterMileTracker.st t') =
        (if is_null (QuarterMileTracker.bestTime (QuarterMileTracker.st t))
            || nltb elapsed
                 (toNumber
                    (QuarterMileTracker.bestTime (QuarterMileTracker.st t)))
         then Num elapsed
         else QuarterMileTracker.bestTime (QuarterMileTracker.st t)) /\
      (forall b,
         QuarterMileTracker.bestTime (QuarterMileTracker.st t) = Num b ->
         exists b',
           QuarterMileTracker.bestTime (QuarterMileTracker.st t') = Num b' /\
           (b' = b \/ nltb b' b = true)) /\
      (QuarterMileTracker.bestTime (QuarterMileTracker.st t) = Num elapsed ->
       QuarterMileTracker.bestTime (QuarterMileTracker.st t') = Num elapsed)) /\
     (num_finite elapsed && ngtb elapsed (Fin 0) = false ->
      QuarterMileTracker.view_status (QuarterMileTracker.get t')
        = QuarterMileTracker.Standby /\
      QuarterMileTracker.st t' = QuarterMileTracker.st t)) /\
  (let first_run :=
     quarter_run QuarterMileTracker.init
       [ (Fin 0, Num (Fin 5), Fin 0);
         (Fin 200, Num (Fin 25), Fin 10);
         (Fin 402.336, Num (Fin 25), Fin 20) ] in
   let second_run :=
     quarter_run first_run
       [ (Fin 402.336, Num (Fin 5), Fin 100);
         (Fin 900, Num (Fin 30), Fin 125) ] in
   QuarterMileTracker.get first_run =
     QuarterMileTracker.mkView QuarterMileTracker.Completed
       (Num (Fin 20)) (Num (Fin 20)) /\
   QuarterMileTracker.runStart first_run = None /\
   QuarterMileTracker.get second_run =
     QuarterMileTracker.mkView QuarterMileTracker.Completed
       (Num (Fin 25)) (Num (Fin 20)) /\
   QuarterMileTracker.runStart second_run = None).
Proof.
  split.
  - intros t start totalDistance speed timestamp Hrun Hcov elapsed t'.
    subst t' elapsed. unfold QuarterMileTracker.update.
    rewrite Hrun. cbv zeta. rewrite Hcov.
    destruct (num_finite (nsub timestamp (QuarterMileTracker.time start))
              && ngtb (nsub timestamp (QuarterMileTracker.time start)) (Fin 0))
      eqn:Hel.
    + split; [ reflexivity | ]. split.
      * intros _ _. cbn.
        repeat split.
        -- intros b Hb. now apply best_time_floor.
        -- intros Hb. rewrite Hb. cbn. now rewrite nltb_irrefl.
      * discriminate.
    + split; [ reflexivity | ]. split.
      * intros Hf Hp. rewrite Hf, Hp in Hel. discriminate.
      * intros _. split; reflexivity.
  - cbv zeta. repeat split.
Qed.

(** The general part of C3 at a concrete tracker: a run armed at
    distance 0 and time 0, completed at 402.336 m and 20 s. *)
Lemma quarter_mile_completion_witness :
  let t :=
    QuarterMileTracker.mkTracker QuarterMileTracker.defaults
      (Some (QuarterMileTracker.mkRunStart (Fin 0) (Fin 0)))
      QuarterMileTracker.Running in
  let t' := QuarterMileTracker.update t (Fin 402.336) (Num (Fin 25)) (Fin 20) in
  QuarterMileTracker.runStart t' = None /\
  QuarterMileTracker.view_status (QuarterMileTracker.get t')
    = QuarterMileTracker.Completed /\
  QuarterMileTracker.lastTime (QuarterMileTracker.st t') = Num (Fin 20).
Proof.
  cbv zeta.
  destruct (proj1 quarter_mile_completion
              (QuarterMileTracker.mkTracker QuarterMileTracker.defaults
                 (Some (QuarterMileTracker.mkRunStart (Fin 0) (Fin 0)))
                 QuarterMileTracker.Running)
              (QuarterMileTracker.mkRunStart (Fin 0) (Fin 0))
              (Fin 402.336) (Num (Fin 25)) (Fin 20)
              eq_refl eq_refl) as (Hclear & Hdone & _).
  destruct (Hdone eq_refl eq_refl) as (Hst & Hlast & _).
  repeat split; assumption.
Defined.

Lemma nltb_not_nleb (a b : num) : nltb a b = true -> nleb b a = false.
Proof. destruct a, b; simpl; try congruence; intros; qbool; lra. Qed.

Lemma remaining_positive (covered : num) :
  nltb covered QUARTER_MILE_M = true ->
  ngtb (nsub QUARTER_MILE_M covered) (Fin 0) = true.
Proof.
  unfold QUARTER_MILE_M, ngtb.
  destruct covered; simpl; try congruence; intros; qbool; lra.
Qed.

(** C9.  While a run is armed and the covered distance is below
    402.336 m, a call whose speed is [null] or not finite keeps the run:
    [runStart] and the stored times are unchanged and the status is the
    Running annotation with the remaining distance.  The run is cleared
    exactly when the speed is finite and strictly below 0.5 m/s, and the
    status is then Standby. *)
Theorem quarter_mile_survives_dropout
    (t : QuarterMileTracker.tracker) (start : QuarterMileTracker.RunStart)
    (totalDistance : num) (speed : value) (timestamp : num) :
  QuarterMileTracker.runStart t = Some start ->
  nltb (nsub totalDistance (QuarterMileTracker.distance start))
       QUARTER_MILE_M = true ->
  let covered := nsub totalDistance (QuarterMileTracker.distance start) in
  let t' := QuarterMileTracker.update t totalDistance speed timestamp in
  (isFinite speed = false ->
   QuarterMileTracker.runStart t' = Some start /\
   QuarterMileTracker.status t' =
     QuarterMileTracker.RunningLeft (nsub QUARTER_MILE_M covered) /\
   QuarterMileTracker.st t' = QuarterMileTracker.st t) /\
  (QuarterMileTracker.runStart t' = None <->
   isFinite speed = true /\ nltb (toNumber speed) (Fin 0.5) = true) /\
  (QuarterMileTracker.runStart t' = None ->
   QuarterMileTracker.status t' = QuarterMileTracker.Standby) /\
  (QuarterMileTracker.runStart t' <> None ->
   QuarterMileTracker.runStart t' = Some start /\
   QuarterMileTracker.status t' =
     QuarterMileTracker.RunningLeft (nsub QUARTER_MILE_M covered)).
Proof.
  intros Hrun Hcov covered t'. subst t' covered.
  unfold QuarterMileTracker.update. rewrite Hrun. cbv zeta.
  unfold ngeb. rewrite (nltb_not_nleb _ _ Hcov).
  rewrite (remaining_positive _ Hcov).
  destruct speed as [| v]; simpl.
  - repeat split; try discriminate; try tauto. intros []; discriminate.
  - destruct (num_finite v) eqn:Hv; simpl.
    + destruct (nltb v (Fin 0.5)) eqn:Hlow; simpl.
      * repeat split; try discriminate; try tauto.
      * repeat split; try discriminate; try tauto. intros []; discriminate.
    + repeat split; try discriminate; try tauto. intros []; discriminate.
Qed.

(** C9 at a concrete run: armed at 0 m, 100 m covered, and a fix without
    speed. *)
Lemma quarter_mile_survives_dropout_witness :
  QuarterMileTracker.runStart
    (QuarterMileTracker.update
       (QuarterMileTracker.mkTracker QuarterMileTracker.defaults
          (Some (QuarterMileTracker.mkRunStart (Fin 0) (Fin 0)))
          QuarterMileTracker.Running)
       (Fin 100) Null (Fin 7))
  = Some (QuarterMileTracker.mkRunStart (Fin 0) (Fin 0)) /\
  QuarterMileTracker.status
    (QuarterMileTracker.update
       (QuarterMileTracker.mkTracker QuarterMileTracker.defaults
          (Some (QuarterMileTracker.mkRunStart (Fin 0) (Fin 0)))
          QuarterMileTracker.Running)
       (Fin 100) Null (Fin 7))
  = QuarterMileTracker.RunningLeft (Fin (Qred 302.336)).
Proof.
  destruct (quarter_mile_survives_dropout
              (QuarterMileTracker.mkTracker QuarterMileTracker.defaults
                 (Some (QuarterMileTracker.mkRunStart (Fin 0) (Fin 0)))
                 QuarterMileTracker.Running)
              (QuarterMileTracker.mkRunStart (Fin 0) (Fin 0))
              (Fin 100) Null (Fin 7) eq_refl eq_refl) as (Hkeep & _).
  destruct (Hkeep eq_refl) as (Hstart & Hstatus & _).
  split; [ exact Hstart | exact Hstatus ].
Defined.

(** ** The zero-to-sixty tracker *)

(** C4, as the script has it.  From the idle phase with default times, the
    speeds 0, 0, 10, 30, 27 m/s at 0, 1, 2, 3, 4 s put the tracker in the
    phases armed, armed, running, cooldown, cooldown: the run starts at
    2 s and the 30 m/s sample at 3 s already meets the 26.8224 m/s target,
    so that [lastTime = 3 - 2 = 1] second.  With 20 m/s at 3 s instead, the
    phases are armed, armed, running, running, cooldown and
    [lastTime = 4 - 2 = 2] seconds. *)
Theorem zero_sixty_launch_sequence :
  ZeroSixtyTracker.phase ZeroSixtyTracker.init = ZeroSixtyTracker.idle /\
  zero_sixty_phases ZeroSixtyTracker.init launch_samples =
    [ ZeroSixtyTracker.armed; ZeroSixtyTracker.armed;
      ZeroSixtyTracker.running; ZeroSixtyTracker.cooldown;
      ZeroSixtyTracker.cooldown ] /\
  ZeroSixtyTracker.get (zero_sixty_run ZeroSixtyTracker.init launch_samples) =
    ZeroSixtyTracker.mkView (Num (Fin 1)) (Num (Fin 1)) /\
  ZeroSixtyTracker.startTime
    (zero_sixty_run ZeroSixtyTracker.init launch_samples) = Num (Fin 2) /\
  zero_sixty_phases ZeroSixtyTracker.init slow_launch_samples =
    [ ZeroSixtyTracker.armed; ZeroSixtyTracker.armed;
      ZeroSixtyTracker.running; ZeroSixtyTracker.running;
      ZeroSixtyTracker.cooldown ] /\
  ZeroSixtyTracker.get
    (zero_sixty_run ZeroSixtyTracker.init slow_launch_samples) =
    ZeroSixtyTracker.mkView (Num (Fin 2)) (Num (Fin 2)).
Proof. repeat split. Qed.

(** C4 as stated fails: on the speeds 0, 0, 10, 30, 27 the recorded time is
    not 2 seconds, and the phases are not idle, armed, running, running,
    cooldown, whether the initial phase is listed or not. *)
Lemma zero_sixty_claimed_sequence_counterexample :
  ZeroSixtyTracker.lastTime
    (ZeroSixtyTracker.st
       (zero_sixty_run ZeroSixtyTracker.init launch_samples)) <> Num (Fin 2) /\
  zero_sixty_phases ZeroSixtyTracker.init launch_samples <>
    [ ZeroSixtyTracker.idle; ZeroSixtyTracker.armed;
      ZeroSixtyTracker.running; ZeroSixtyTracker.running;
      ZeroSixtyTracker.cooldown ] /\
  ZeroSixtyTracker.phase ZeroSixtyTracker.init
    :: zero_sixty_phases ZeroSixtyTracker.init launch_samples <>
    [ ZeroSixtyTracker.idle; ZeroSixtyTracker.armed;
      ZeroSixtyTracker.running; ZeroSixtyTracker.running;
      ZeroSixtyTracker.cooldown ].
Proof. repeat split; discriminate. Qed.

(** ** The acceleration store *)

Lemma update_current (s : AccelerationStore.store) (speed : value)
    (timestamp : num) :
  AccelerationStore.current (AccelerationStore.update s speed timestamp) =
  AccelerationStore.current (AccelerationStore.derive s speed timestamp).
Proof.
  unfold AccelerationStore.update.
  now destruct (isFinite speed && num_finite timestamp).
Qed.

(** C5 fails on the script: a fix that repeats the time of the previous
    one ([dt = 0]) leaves the [current] of the previous call in place, and
    [get()] reports it.  After (0 m/s, 0 s), (10 m/s, 2 s), (10 m/s, 2 s)
    the reported [current] is 5, not [null]; so it is after three position
    fixes with these sensor speeds, the third repeating the timestamp of
    the second.  In general, with finite
    inputs and a baseline, a [dt] that is not strictly positive keeps the
    old [current]; only a missing baseline or a non-finite input sets it
    to [null]. *)
Theorem acceleration_current_stale_on_repeated_time :
  AccelerationStore.view_current
    (AccelerationStore.get
       (acceleration_run AccelerationStore.init repeated_fix_samples))
  = Num (Fin 5) /\
  (forall M,
     AccelerationStore.view_current
       (AccelerationStore.get
          (accelerationStore (engine_run M fresh repeated_fixes)))
     = Num (Fin 5)) /\
  (forall s speed timestamp,
     isFinite speed = true -> num_finite timestamp = true ->
     AccelerationStore.lastSpeed (AccelerationStore.st s) <> Null ->
     AccelerationStore.lastTime (AccelerationStore.st s) <> Null ->
     ngtb (nsub timestamp
             (toNumber (AccelerationStore.lastTime (AccelerationStore.st s))))
          (Fin 0) = false ->
     AccelerationStore.current (AccelerationStore.update s speed timestamp) =
     AccelerationStore.current s) /\
  (forall s speed timestamp,
     isFinite speed = false \/ num_finite timestamp = false \/
     AccelerationStore.lastSpeed (AccelerationStore.st s) = Null \/
     AccelerationStore.lastTime (AccelerationStore.st s) = Null ->
     AccelerationStore.current (AccelerationStore.update s speed timestamp) =
     Null).
Proof.
  split; [ reflexivity | split; [ intros M; reflexivity | split ] ].
  - intros s speed timestamp Hv Ht Hls Hlt Hdt.
    rewrite update_current. unfold AccelerationStore.derive.
    rewrite Hv, Ht.
    destruct (AccelerationStore.lastSpeed (AccelerationStore.st s));
      [ congruence | ].
    destruct (AccelerationStore.lastTime (AccelerationStore.st s));
      [ congruence | ].
    cbn in *. now rewrite Hdt.
  - intros s speed timestamp H.
    rewrite update_current. unfold AccelerationStore.derive.
    destruct H as [H | [H | [H | H]]]; rewrite H; simpl;
      rewrite ?andb_false_r; reflexivity.
Qed.

(** *** Peaks *)

Lemma peak_le_refl (v : value) : peak_le v v.
Proof. destruct v; simpl; auto. Qed.

Lemma peak_le_trans (a b c : value) :
  peak_le a b -> peak_le b c -> peak_le a c.
Proof.
  destruct a as [| p], b as [| q], c as [| r]; simpl; try tauto.
  intros [-> | H1] [-> | H2]; auto.
  right. eapply nltb_trans; eassumption.
Qed.

Lemma peak_raised_le (old new : value) (c : num) :
  new = old \/ peak_raised old new c -> peak_le old new.
Proof.
  intros [-> | [-> [-> | (p & -> & Hlt)]]]; simpl; auto using peak_le_refl.
Qed.

(** [peak === null ? c : Math.max(peak, c)] for a finite [c]. *)
Lemma raise_peak (old : value) (c : Q) :
  let new :=
    if is_null old then Num (Fin c)
    else Num (Math_max (toNumber old) (Fin c)) in
  new = old \/ peak_raised old new (Fin c).
Proof.
  destruct old as [| p]; simpl.
  - right. split; auto.
  - destruct p as [q | | |]; simpl; auto.
    + destruct (Qltb q c) eqn:Hlt; auto.
      right. split; eauto.
    + right. split; eauto.
Qed.

Lemma record_peaks_accel (x : AccelerationStore.state) (c : Q) :
  AccelerationStore.peakAccel (AccelerationStore.record_peaks x (Fin c)) =
  if Qltb 0 c
  then (if is_null (AccelerationStore.peakAccel x) then Num (Fin c)
        else Num (Math_max (toNumber (AccelerationStore.peakAccel x)) (Fin c)))
  else AccelerationStore.peakAccel x.
Proof.
  unfold AccelerationStore.record_peaks, ngtb. simpl.
  destruct (Qltb 0 c), (Qltb c 0); reflexivity.
Qed.

Lemma record_peaks_decel (x : AccelerationStore.state) (c : Q) :
  AccelerationStore.peakDecel (AccelerationStore.record_peaks x (Fin c)) =
  if Qltb c 0
  then (if is_null (AccelerationStore.peakDecel x)
        then Num (Fin (Qred (Qabs c)))
        else Num (Math_max (toNumber (AccelerationStore.peakDecel x))
                    (Fin (Qred (Qabs c)))))
  else AccelerationStore.peakDecel x.
Proof.
  unfold AccelerationStore.record_peaks, ngtb. simpl.
  destruct (Qltb 0 c), (Qltb c 0); reflexivity.
Qed.

(** What one [update] does to the two peaks. *)
Lemma update_peaks (s : AccelerationStore.store) (speed : value)
    (timestamp : num) :
  let s' := AccelerationStore.update s speed timestamp in
  (AccelerationStore.peakAccel (AccelerationStore.st s') =
     AccelerationStore.peakAccel (AccelerationStore.st s) \/
   exists c,
     AccelerationStore.current s' = Num (Fin c) /\ 0 < c /\
     peak_raised (AccelerationStore.peakAccel (AccelerationStore.st s))
       (AccelerationStore.peakAccel (AccelerationStore.st s')) (Fin c)) /\
  (AccelerationStore.peakDecel (AccelerationStore.st s') =
     AccelerationStore.peakDecel (AccelerationStore.st s) \/
   exists c,
     AccelerationStore.current s' = Num (Fin c) /\ c < 0 /\
     peak_raised (AccelerationStore.peakDecel (AccelerationStore.st s))
       (AccelerationStore.peakDecel (AccelerationStore.st s'))
       (Math_abs (Fin c))).
Proof.
  cbv zeta.
  assert (Hst : forall f : AccelerationStore.state -> value,
            (forall x a b, f (AccelerationStore.set_last x a b) = f x) ->
            f (AccelerationStore.st
                 (AccelerationStore.update s speed timestamp)) =
            f (AccelerationStore.st
                 (AccelerationStore.derive s speed timestamp))).
  { intros f Hf. unfold AccelerationStore.update.
    destruct (isFinite speed && num_finite timestamp); simpl; auto. }
  rewrite (Hst AccelerationStore.peakAccel) by reflexivity.
  rewrite (Hst AccelerationStore.peakDecel) by reflexivity.
  rewrite update_current. clear Hst.
  unfold AccelerationStore.derive.
  destruct (isFinite speed && num_finite timestamp
            && negb (is_null (AccelerationStore.lastSpeed (AccelerationStore.st s)))
            && negb (is_null (AccelerationStore.lastTime (AccelerationStore.st s))));
    [ | simpl; auto ].
  cbv zeta.
  destruct (ngtb _ (Fin 0)); [ | auto ].
  destruct (ndiv _ _) as [c | | |]; simpl; auto.
  rewrite record_peaks_accel, record_peaks_decel. split.
  - destruct (Qltb 0 c) eqn:Hc; auto.
    destruct (raise_peak (AccelerationStore.peakAccel (AccelerationStore.st s)) c)
      as [H | H]; auto.
    right. exists c. qbool. auto.
  - destruct (Qltb c 0) eqn:Hc; auto.
    destruct (raise_peak (AccelerationStore.peakDecel (AccelerationStore.st s))
                (Qred (Qabs c)))
      as [H | H]; auto.
    right. exists c. qbool. auto.
Qed.

Lemma update_peak_le (s : AccelerationStore.store) (speed : value)
    (timestamp : num) :
  let s' := AccelerationStore.update s speed timestamp in
  peak_le (AccelerationStore.peakAccel (AccelerationStore.st s))
          (AccelerationStore.peakAccel (AccelerationStore.st s')) /\
  peak_le (AccelerationStore.peakDecel (AccelerationStore.st s))
          (AccelerationStore.peakDecel (AccelerationStore.st s')).
Proof.
  destruct (update_peaks s speed timestamp) as [Ha Hd]. cbv zeta. split.
  - apply peak_raised_le with (c := toNumber (AccelerationStore.current
        (AccelerationStore.update s speed timestamp))).
    destruct Ha as [Ha | (c & Hc & _ & Hr)]; auto. rewrite Hc. auto.
  - apply peak_raised_le with (c := Math_abs (toNumber (AccelerationStore.current
        (AccelerationStore.update s speed timestamp)))).
    destruct Hd as [Hd | (c & Hc & _ & Hr)]; auto. rewrite Hc. auto.
Qed.

Lemma acceleration_run_peak_le (samples : list (value * num)) :
  forall s,
  peak_le (AccelerationStore.peakAccel (AccelerationStore.st s))
          (AccelerationStore.peakAccel
             (AccelerationStore.st (acceleration_run s samples))) /\
  peak_le (AccelerationStore.peakDecel (AccelerationStore.st s))
          (AccelerationStore.peakDecel
             (AccelerationStore.st (acceleration_run s samples))).
Proof.
  induction samples as [| x xs IH]; intros s; simpl.
  - split; apply peak_le_refl.
  - destruct (update_peak_le s (fst x) (snd x)) as [Ha Hd].
    destruct (IH (AccelerationStore.update s (fst x) (snd x))) as [Ha' Hd'].
    split; eapply peak_le_trans; eassumption.
Qed.

(** C6.  The two peaks are high-water marks.  One [update] leaves a peak
    as it is or raises it: [peakAccel] to the new [current], which is then
    positive, [peakDecel] to the magnitude of the new [current], which is
    then negative; the raised peak replaces [null] or a strictly smaller
    value.  Hence over any sequence of updates a peak never decreases and a
    peak that is a number never becomes [null] again; [reset()] sets both
    to [null].  After (0 m/s, 0 s) and (10 m/s, 2 s), [current] and
    [peakAccel] are 5 and [peakDecel] is [null]. *)
Theorem acceleration_peaks_high_water :
  (forall s speed timestamp,
     let s' := AccelerationStore.update s speed timestamp in
     (AccelerationStore.peakAccel (AccelerationStore.st s') =
        AccelerationStore.peakAccel (AccelerationStore.st s) \/
      exists c,
        AccelerationStore.current s' = Num (Fin c) /\ 0 < c /\
        peak_raised (AccelerationStore.peakAccel (AccelerationStore.st s))
          (AccelerationStore.peakAccel (AccelerationStore.st s')) (Fin c)) /\
     (AccelerationStore.peakDecel (AccelerationStore.st s') =
        AccelerationStore.peakDecel (AccelerationStore.st s) \/
      exists c,
        AccelerationStore.current s' = Num (Fin c) /\ c < 0 /\
        peak_raised (AccelerationStore.peakDecel (AccelerationStore.st s))
          (AccelerationStore.peakDecel (AccelerationStore.st s'))
          (Math_abs (Fin c)))) /\
  (forall s samples,
     peak_le (AccelerationStore.peakAccel (AccelerationStore.st s))
             (AccelerationStore.peakAccel
                (AccelerationStore.st (acceleration_run s samples))) /\
     peak_le (AccelerationStore.peakDecel (AccelerationStore.st s))
             (AccelerationStore.peakDecel
                (AccelerationStore.st (acceleration_run s samples)))) /\
  (forall s samples,
     (AccelerationStore.peakAccel (AccelerationStore.st s) <> Null ->
      AccelerationStore.peakAccel
        (AccelerationStore.st (acceleration_run s samples)) <> Null) /\
     (AccelerationStore.peakDecel (AccelerationStore.st s) <> Null ->
      AccelerationStore.peakDecel
        (AccelerationStore.st (acceleration_run s samples)) <> Null)) /\
  (forall s,
     AccelerationStore.get (AccelerationStore.reset s) =
     AccelerationStore.mkView Null Null Null Null) /\
  AccelerationStore.get
    (acceleration_run AccelerationStore.init spike_samples) =
    AccelerationStore.mkView (Num (Fin 5)) Null (Num (Fin 5)) Null.
Proof.
  split; [ | split; [ | split; [ | split ] ] ].
  - intros s speed timestamp. apply update_peaks.
  - intros s samples. apply acceleration_run_peak_le.
  - intros s samples.
    destruct (acceleration_run_peak_le samples s) as [Ha Hd].
    split; intros Hn Hz.
    + rewrite Hz in Ha.
      destruct (AccelerationStore.peakAccel (AccelerationStore.st s));
        simpl in Ha; auto.
    + rewrite Hz in Hd.
      destruct (AccelerationStore.peakDecel (AccelerationStore.st s));
        simpl in Hd; auto.
  - reflexivity.
  - reflexivity.
Qed.

(** *** The view *)

(** C8, as the script has it.  [currentDecel] is [|current|] for a finite
    negative [current], 0 for a [current] equal to 0, and [null] otherwise
    ([current] positive, [null] or not finite).  The [current] of the view
    is every finite [current] verbatim, 0 included: at a zero reading both
    views show 0. *)
Theorem acceleration_view_of_current :
  forall s,
    let v := AccelerationStore.get s in
    (forall c, AccelerationStore.current s = Num (Fin c) -> c < 0 ->
       AccelerationStore.currentDecel v = Num (Math_abs (Fin c))) /\
    (forall c, AccelerationStore.current s = Num (Fin c) -> c == 0 ->
       AccelerationStore.currentDecel v = Num (Fin 0) /\
       AccelerationStore.view_current v = Num (Fin c)) /\
    (forall c, AccelerationStore.current s = Num (Fin c) -> 0 < c ->
       AccelerationStore.currentDecel v = Null) /\
    (isFinite (AccelerationStore.current s) = false ->
       AccelerationStore.currentDecel v = Null /\
       AccelerationStore.view_current v = Null) /\
    (forall c, AccelerationStore.current s = Num (Fin c) ->
       AccelerationStore.view_current v = Num (Fin c)).
Proof.
  intros s v. subst v. unfold AccelerationStore.get.
  split; [ | split; [ | split; [ | split ] ] ].
  - intros c -> Hc. simpl.
    assert (Hz : Qeqb c 0 = false).
    { apply not_true_iff_false. intros H. qbool. lra. }
    assert (Hl : Qltb c 0 = true) by (qbool; lra).
    now rewrite Hz, Hl.
  - intros c -> Hc. simpl.
    assert (Hz : Qeqb c 0 = true) by (qbool; lra).
    now rewrite Hz.
  - intros c -> Hc. simpl.
    assert (Hz : Qeqb c 0 = false).
    { apply not_true_iff_false. intros H. qbool. lra. }
    assert (Hl : Qltb c 0 = false) by (qbool; lra).
    now rewrite Hz, Hl.
  - intros Hf. rewrite Hf.
    destruct (AccelerationStore.current s) as [| [c | | |]];
      simpl in *; try discriminate; auto.
  - intros c ->. reflexivity.
Qed.

(** C8 as stated fails at a zero reading: after two fixes at a steady
    5 m/s the [current] of the store is 0, and the accel side of the view
    is 0 like the decel side, not [null]. *)
Lemma acceleration_view_zero_counterexample :
  let s := acceleration_run AccelerationStore.init steady_samples in
  AccelerationStore.current s = Num (Fin 0) /\
  AccelerationStore.currentDecel (AccelerationStore.get s) = Num (Fin 0) /\
  AccelerationStore.view_current (AccelerationStore.get s) = Num (Fin 0) /\
  AccelerationStore.view_current (AccelerationStore.get s) <> Null.
Proof. cbv zeta. repeat split. discriminate. Qed.

(** ** The speed statistics store *)

Lemma stats_update_skip (st : SpeedStatsStore.state) (speed : value) :
  isFinite speed = false -> SpeedStatsStore.update st speed = st.
Proof. intros H. unfold SpeedStatsStore.update. now rewrite H. Qed.

Lemma Math_min_finite (m v : Q) :
  Math_min (Fin m) (Fin v) = Fin (if Qltb v m then v else m).
Proof. simpl. now destruct (Qltb v m). Qed.

Lemma Math_max_finite (m v : Q) :
  Math_max (Fin m) (Fin v) = Fin (if Qltb m v then v else m).
Proof. simpl. now destruct (Qltb m v). Qed.

(** For a count that is not negative, [count ? a : b] tests
    [count > 0]. *)
Lemma count_truthy (count : num) :
  nltb count (Fin 0) = false -> num_truthy count = ngtb count (Fin 0).
Proof.
  destruct count as [c | | |]; simpl; try congruence. intros Hc.
  destruct (Qeqb c 0) eqn:Hz, (Qltb 0 c) eqn:Hl; simpl; trivial;
    qbool; try lra.
  exfalso. apply not_true_iff_false in Hz. apply Hz. qbool. lra.
Qed.

(** C7.  [update(speed)] leaves the store, and so the stats it returns,
    unchanged when [speed] is not finite.  For a finite [speed] it adds 1
    to [count] and [speed] to [total], seeds [min] and [max] with [speed]
    when they are [null] and otherwise sets them to [Math.min(min, speed)]
    and [Math.max(max, speed)], the smaller and the larger of the two by
    comparison.  For a [count] that is not negative, the reported average
    is [total / count] when [count > 0] and [null] otherwise.
    After 10, 20 and 30 m/s from the defaults: average 20, min 10,
    max 30. *)
Theorem speed_stats_update :
  (forall st speed,
     isFinite speed = false ->
     SpeedStatsStore.update st speed = st /\
     SpeedStatsStore.get (SpeedStatsStore.update st speed) =
     SpeedStatsStore.get st) /\
  (forall st v,
     let st' := SpeedStatsStore.update st (Num (Fin v)) in
     SpeedStatsStore.count st' = nadd (SpeedStatsStore.count st) (Fin 1) /\
     SpeedStatsStore.total st' = nadd (SpeedStatsStore.total st) (Fin v) /\
     (SpeedStatsStore.min st = Null -> SpeedStatsStore.min st' = Num (Fin v)) /\
     (SpeedStatsStore.max st = Null -> SpeedStatsStore.max st' = Num (Fin v)) /\
     (forall m, SpeedStatsStore.min st = Num m ->
        SpeedStatsStore.min st' = Num (Math_min m (Fin v))) /\
     (forall m, SpeedStatsStore.max st = Num m ->
        SpeedStatsStore.max st' = Num (Math_max m (Fin v)))) /\
  (forall m v,
     Math_min (Fin m) (Fin v) = Fin (if Qltb v m then v else m) /\
     Math_max (Fin m) (Fin v) = Fin (if Qltb m v then v else m)) /\
  (forall st,
     nltb (SpeedStatsStore.count st) (Fin 0) = false ->
     SpeedStatsStore.average (SpeedStatsStore.get st) =
     if ngtb (SpeedStatsStore.count st) (Fin 0)
     then Num (ndiv (SpeedStatsStore.total st) (SpeedStatsStore.count st))
     else Null) /\
  SpeedStatsStore.get (stats_run SpeedStatsStore.defaults three_speeds) =
    SpeedStatsStore.mkStats (Num (Fin 10)) (Num (Fin 30)) (Num (Fin 20)).
Proof.
  split; [ | split; [ | split; [ | split ] ] ].
  - intros st speed H. now rewrite stats_update_skip.
  - intros st v st'. subst st'. unfold SpeedStatsStore.update. simpl.
    repeat split.
    + now intros ->.
    + now intros ->.
    + now intros m ->.
    + now intros m ->.
  - intros m v. split; [ apply Math_min_finite | apply Math_max_finite ].
  - intros st Hpos. unfold SpeedStatsStore.get. simpl.
    now rewrite (count_truthy _ Hpos).
  - reflexivity.
Qed.

(** The general parts of C7 at the store after 10 and 20 m/s: a non-number
    is skipped, and the average is [30 / 2]. *)
Lemma speed_stats_update_witness :
  let st :=
    stats_run SpeedStatsStore.defaults
      [ CallUpdate (Num (Fin 10)); CallUpdate (Num (Fin 20)) ] in
  SpeedStatsStore.update st (Num NaN) = st /\
  SpeedStatsStore.average (SpeedStatsStore.get st) =
    Num (ndiv (SpeedStatsStore.total st) (SpeedStatsStore.count st)).
Proof.
  cbv zeta.
  destruct speed_stats_update as (Hskip & _ & _ & Havg & _).
  split.
  - apply Hskip. reflexivity.
  - rewrite Havg; reflexivity.
Defined.

(** *** The invariant *)

Lemma stats_inv_defaults : stats_inv SpeedStatsStore.defaults.
Proof.
  exists 0. simpl. repeat split; auto; try lra.
Qed.

Lemma stats_inv_update (st : SpeedStatsStore.state) (speed : value) :
  stats_inv st -> stats_inv (SpeedStatsStore.update st speed).
Proof.
  intros Hinv.
  destruct (isFinite speed) eqn:Hf;
    [ | now rewrite stats_update_skip ].
  destruct speed as [| [v | | |]]; try discriminate.
  destruct Hinv as (c & Hc & Hpos & Hmin & Hmax & Hord).
  unfold SpeedStatsStore.update. simpl. rewrite Hc. simpl.
  exists (Qred (c + 1)).
  pose proof (Qred_correct (c + 1)) as Hq.
  split; [ reflexivity | ]. split; [ lra | ].
  destruct (Qlt_le_dec 0 c) as [Hlt | Hle].
  - destruct (Hord Hlt) as (lo & hi & Elo & Ehi & Hle).
    rewrite Elo, Ehi. simpl.
    repeat split; try (intros; exfalso; lra); try discriminate.
    intros _.
    exists (if Qltb v lo then v else lo), (if Qltb hi v then v else hi).
    destruct (Qltb v lo) eqn:H1, (Qltb hi v) eqn:H2;
      repeat split; qbool; lra.
  - assert (Hz : c == 0) by lra.
    rewrite (proj1 Hmin Hz), (proj1 Hmax Hz). simpl.
    repeat split; try (intros; exfalso; lra); try discriminate.
    intros _. exists v, v. repeat split. lra.
Qed.

Lemma stats_inv_call (st : SpeedStatsStore.state) (c : StatsCall) :
  stats_inv st -> stats_inv (stats_call st c).
Proof.
  destruct c as [speed |]; simpl.
  - apply stats_inv_update.
  - intros _. apply stats_inv_defaults.
Qed.

Lemma stats_inv_run (calls : list StatsCall) :
  forall st, stats_inv st -> stats_inv (stats_run st calls).
Proof.
  induction calls as [| c cs IH]; intros st H; simpl; auto.
  apply IH. now apply stats_inv_call.
Qed.

Lemma stats_of_defaults : stats_of [] SpeedStatsStore.defaults.
Proof.
  split; [ | split ].
  - exists 0. split; reflexivity.
  - auto.
  - congruence.
Qed.

Lemma stats_of_update (l : list Q) (st : SpeedStatsStore.state) (v : Q) :
  stats_of l st ->
  stats_of (l ++ [v]) (SpeedStatsStore.update st (Num (Fin v))).
Proof.
  intros ((c & Hc & Hlen) & Hnil & Hcons).
  unfold SpeedStatsStore.update. simpl.
  split; [ | split ].
  - exists (Qred (c + 1)). simpl. rewrite Hc. split; [ reflexivity | ].
    rewrite Qred_correct, Hlen, length_app, Nat2Z.inj_add, inject_Z_plus.
    reflexivity.
  - intros E. destruct l; discriminate E.
  - intros _. simpl. destruct l as [| a l'].
    + destruct (Hnil eq_refl) as [-> ->]. simpl.
      exists v, v. repeat split; auto.
      * destruct H as [<- | []]. lra.
      * destruct H as [<- | []]. lra.
    + destruct Hcons as (lo & hi & -> & -> & Ilo & Ihi & Hb);
        [ discriminate | ].
      simpl is_null. cbv iota. simpl toNumber.
      rewrite Math_min_finite, Math_max_finite.
      exists (if Qltb v lo then v else lo), (if Qltb hi v then v else hi).
      split; [ reflexivity | ]. split; [ reflexivity | ].
      split; [ | split ].
      * destruct (Qltb v lo); apply in_or_app; simpl; auto.
      * destruct (Qltb hi v); apply in_or_app; simpl; auto.
      * intros x Hx. apply in_app_or in Hx.
        destruct Hx as [Hx | [<- | []]].
        -- destruct (Hb x Hx) as [B1 B2].
           destruct (Qltb v lo) eqn:H1, (Qltb hi v) eqn:H2;
             split; qbool; lra.
        -- destruct (Qltb v lo) eqn:H1, (Qltb hi v) eqn:H2;
             split; qbool; lra.
Qed.

Lemma stats_of_run (calls : list StatsCall) :
  forall l st, stats_of l st ->
  stats_of (recorded l calls) (stats_run st calls).
Proof.
  induction calls as [| c cs IH]; intros l st H; simpl; auto.
  destruct c as [[| [v | | |]] |]; simpl; apply IH;
    auto using stats_of_update, stats_of_defaults.
Qed.

(** C10.  The invariant of the speed statistics ([count] is 0 exactly
    when [min] is [null] and exactly when [max] is [null], and
    [min <= max] whenever [count > 0]) holds of the defaults, is preserved
    by every [update] and established by [reset], so it holds after every
    sequence of calls.  After any sequence of calls from the defaults,
    [count] is the number of finite speeds recorded since the last reset,
    and [min] and [max] are the least and the greatest of them. *)
Theorem speed_stats_invariant :
  stats_inv SpeedStatsStore.defaults /\
  (forall st speed,
     stats_inv st -> stats_inv (SpeedStatsStore.update st speed)) /\
  (forall st, stats_inv (SpeedStatsStore.reset st)) /\
  (forall calls, stats_inv (stats_run SpeedStatsStore.defaults calls)) /\
  (forall calls,
     stats_of (recorded [] calls) (stats_run SpeedStatsStore.defaults calls)).
Proof.
  split; [ | split; [ | split; [ | split ] ] ].
  - apply stats_inv_defaults.
  - apply stats_inv_update.
  - intros st. apply stats_inv_defaults.
  - intros calls. apply stats_inv_run, stats_inv_defaults.
  - intros calls. apply stats_of_run, stats_of_defaults.
Qed.

(** The preservation part of C10 at the store after 10 m/s, updated with
    20 m/s. *)
Lemma speed_stats_invariant_witness :
  stats_inv
    (SpeedStatsStore.update
       (SpeedStatsStore.update SpeedStatsStore.defaults (Num (Fin 10)))
       (Num (Fin 20))).
Proof.
  destruct speed_stats_invariant as (Hd & Hupd & _).
  apply Hupd, Hupd, Hd.
Defined.

(** * Further properties of the engine *)

(** ** The distance store over a run *)

Lemma distance_run_filter (deltas : list num) :
  forall st,
    distance_run st deltas = distance_run st (filter accepted deltas).
Proof.
  induction deltas as [| d ds IH]; intros st; simpl; trivial.
  unfold distance_run in *. simpl.
  destruct (accepted d) eqn:Hd; simpl.
  - apply IH.
  - unfold DistanceStore.update at 2. unfold accepted in Hd.
    rewrite Hd. apply IH.
Qed.

Lemma distance_run_accepted (deltas : list num) :
  forall st,
    forallb accepted deltas = true ->
    DistanceStore.total (distance_run st deltas) =
    fold_left nadd deltas (DistanceStore.total st).
Proof.
  induction deltas as [| d ds IH]; intros st H; simpl; trivial.
  simpl in H. apply andb_true_iff in H. destruct H as [Hd Hds].
  unfold distance_run in *. simpl.
  rewrite IH by assumption. unfold DistanceStore.update.
  unfold accepted in Hd. now rewrite Hd.
Qed.

Lemma forallb_filter_same {A : Type} (f : A -> bool) (l : list A) :
  forallb f (filter f l) = true.
Proof.
  induction l as [| a l IH]; simpl; trivial.
  destruct (f a) eqn:Ha; simpl; trivial. now rewrite Ha.
Qed.

(** X1.  Over any sequence of updates the distance store sees only the
    deltas that are finite and strictly positive: the run is the run over
    those deltas alone, and the total is the starting total plus these
    deltas, added in order.  From the defaults the total is never negative
    and never [NaN]. *)
Theorem distance_run_counts_accepted_only :
  (forall st deltas,
     distance_run st deltas = distance_run st (filter accepted deltas)) /\
  (forall st deltas,
     DistanceStore.total (distance_run st deltas) =
     fold_left nadd (filter accepted deltas) (DistanceStore.total st)) /\
  (forall deltas,
     nleb (Fin 0)
          (DistanceStore.total (distance_run DistanceStore.defaults deltas))
     = true).
Proof.
  split; [ | split ].
  - intros st deltas. apply distance_run_filter.
  - intros st deltas. rewrite distance_run_filter.
    apply distance_run_accepted, forallb_filter_same.
  - intros deltas.
    apply (distance_run_le deltas DistanceStore.defaults). discriminate.
Qed.

(** ** The speed statistics over a run *)

Lemma stats_total_run (calls : list StatsCall) :
  forall acc st,
    SpeedStatsStore.total st = fold_left nadd (map Fin acc) (Fin 0) ->
    SpeedStatsStore.total (stats_run st calls) =
    fold_left nadd (map Fin (recorded acc calls)) (Fin 0).
Proof.
  induction calls as [| c cs IH]; intros acc st H; simpl; trivial.
  destruct c as [[| [v | | |]] |]; simpl; apply IH; trivial.
  unfold SpeedStatsStore.update. simpl.
  rewrite map_app, fold_left_app, <- H. reflexivity.
Qed.

(** X2.  After any sequence of updates and resets from the defaults,
    [total] is the sum, in order, of the finite speeds recorded since the
    last reset (updates with [null] or a non-finite speed add nothing), and
    the reported average is that sum divided by [count], or [null] when
    nothing is recorded. *)
Theorem speed_stats_total_is_sum :
  forall calls,
    let st := stats_run SpeedStatsStore.defaults calls in
    let sum := fold_left nadd (map Fin (recorded [] calls)) (Fin 0) in
    SpeedStatsStore.total st = sum /\
    (recorded [] calls = [] ->
     SpeedStatsStore.average (SpeedStatsStore.get st) = Null) /\
    (recorded [] calls <> [] ->
     SpeedStatsStore.average (SpeedStatsStore.get st) =
     Num (ndiv sum (SpeedStatsStore.count st))).
Proof.
  intros calls st sum. subst st sum.
  assert (Ht := stats_total_run calls [] SpeedStatsStore.defaults eq_refl).
  destruct (stats_of_run calls [] SpeedStatsStore.defaults stats_of_defaults)
    as ((c & Hc & Hlen) & _ & _).
  split; [ exact Ht | ].
  unfold SpeedStatsStore.get. simpl. rewrite Hc, Ht. simpl.
  split; intros Hrec.
  - rewrite Hrec in Hlen. simpl in Hlen.
    assert (Hz : Qeqb c 0 = true) by (qbool; exact Hlen).
    now rewrite Hz.
  - assert (Hpos : 0 < c).
    { rewrite Hlen. destruct (recorded [] calls); [ congruence | ].
      simpl length. rewrite Nat2Z.inj_succ.
      unfold Qlt, inject_Z. simpl. lia. }
    assert (Hz : Qeqb c 0 = false).
    { apply not_true_iff_false. intros E. qbool. lra. }
    now rewrite Hz.
Qed.

(** ** The acceleration store over a run *)

Lemma raised_positive (old new : value) (c : Q) :
  0 < c -> null_or_positive old ->
  new = old \/ peak_raised old new (Fin c) ->
  null_or_positive new.
Proof.
  intros Hc Hold [-> | [-> _]]; trivial.
  right. exists c. auto.
Qed.

Lemma peaks_positive_update (s : AccelerationStore.store) (speed : value)
    (timestamp : num) :
  null_or_positive (AccelerationStore.peakAccel (AccelerationStore.st s)) /\
  null_or_positive (AccelerationStore.peakDecel (AccelerationStore.st s)) ->
  null_or_positive
    (AccelerationStore.peakAccel
       (AccelerationStore.st (AccelerationStore.update s speed timestamp))) /\
  null_or_positive
    (AccelerationStore.peakDecel
       (AccelerationStore.st (AccelerationStore.update s speed timestamp))).
Proof.
  intros [Ha Hd].
  destruct (update_peaks s speed timestamp) as [Ua Ud]. split.
  - destruct Ua as [-> | (c & _ & Hc & Hr)]; trivial.
    eapply raised_positive; [ exact Hc | exact Ha | right; exact Hr ].
  - destruct Ud as [-> | (c & _ & Hc & Hr)]; trivial.
    simpl in Hr.
    eapply raised_positive; [ | exact Hd | right; exact Hr ].
    rewrite Qred_correct. apply Qabs_case; intros; lra.
Qed.

(** X3.  The peaks are never zero, negative or non-finite: if each peak is
    [null] or a finite strictly positive number, so it is after an update;
    hence after any sequence of updates from the defaults. *)
Theorem acceleration_peaks_positive :
  (forall s speed timestamp,
     null_or_positive (AccelerationStore.peakAccel (AccelerationStore.st s)) /\
     null_or_positive (AccelerationStore.peakDecel (AccelerationStore.st s)) ->
     null_or_positive
       (AccelerationStore.peakAccel
          (AccelerationStore.st
             (AccelerationStore.update s speed timestamp))) /\
     null_or_positive
       (AccelerationStore.peakDecel
          (AccelerationStore.st
             (AccelerationStore.update s speed timestamp)))) /\
  (forall samples,
     null_or_positive
       (AccelerationStore.peakAccel
          (AccelerationStore.st
             (acceleration_run AccelerationStore.init samples))) /\
     null_or_positive
       (AccelerationStore.peakDecel
          (AccelerationStore.st
             (acceleration_run AccelerationStore.init samples)))).
Proof.
  split.
  - apply peaks_positive_update.
  - intros samples.
    assert (H : forall s,
      null_or_positive (AccelerationStore.peakAccel (AccelerationStore.st s)) /\
      null_or_positive (AccelerationStore.peakDecel (AccelerationStore.st s)) ->
      null_or_positive
        (AccelerationStore.peakAccel
           (AccelerationStore.st (acceleration_run s samples))) /\
      null_or_positive
        (AccelerationStore.peakDecel
           (AccelerationStore.st (acceleration_run s samples)))).
    { induction samples as [| x xs IH]; intros s Hs; simpl; trivial.
      apply IH. now apply peaks_positive_update. }
    apply H. split; left; reflexivity.
Qed.

(** The statement of X3 at the store after a spike and a braking. *)
Lemma acceleration_peaks_positive_witness :
  null_or_positive
    (AccelerationStore.peakDecel
       (AccelerationStore.st
          (AccelerationStore.update
             (acceleration_run AccelerationStore.init spike_samples)
             (Num (Fin 4)) (Fin 3)))).
Proof.
  destruct acceleration_peaks_positive as [Hstep Hrun].
  apply Hstep. apply (Hrun spike_samples).
Defined.

Lemma update_baseline (s : AccelerationStore.store) (speed : value)
    (timestamp : num) :
  let s' := AccelerationStore.update s speed timestamp in
  (AccelerationStore.lastSpeed (AccelerationStore.st s'),
   AccelerationStore.lastTime (AccelerationStore.st s')) =
  if isFinite speed && num_finite timestamp
  then (speed, Num timestamp)
  else (AccelerationStore.lastSpeed (AccelerationStore.st s),
        AccelerationStore.lastTime (AccelerationStore.st s)).
Proof.
  cbv zeta. unfold AccelerationStore.update, AccelerationStore.derive.
  destruct (isFinite speed && num_finite timestamp) eqn:Hf; simpl; trivial.
Qed.

(** X4.  The baseline of the acceleration store is the last sample that
    had a finite speed and a finite timestamp, whether or not an
    acceleration could be computed from it (a repeated or earlier
    timestamp included); samples with [null] or non-finite values leave
    the baseline alone. *)
Theorem acceleration_baseline_is_last_finite_sample :
  forall samples s,
    (AccelerationStore.lastSpeed
       (AccelerationStore.st (acceleration_run s samples)),
     AccelerationStore.lastTime
       (AccelerationStore.st (acceleration_run s samples))) =
    last_finite_sample
      (AccelerationStore.lastSpeed (AccelerationStore.st s),
       AccelerationStore.lastTime (AccelerationStore.st s))
      samples.
Proof.
  induction samples as [| x xs IH]; intros s; simpl; trivial.
  rewrite IH. f_equal. apply update_baseline.
Qed.

(** ** The quarter-mile tracker over a run *)

(** Case split on the first boolean test of the goal. *)
Ltac case_bool :=
  match goal with
  | |- context [if ?b then _ else _] =>
      lazymatch type of b with
      | bool => let E := fresh "E" in destruct b eqn:E
      end
  end.

(** X5.  The quarter-mile tracker records a time only when it completes a
    run.  A call on an unarmed tracker leaves the stored times alone: it
    arms at the distance and time of the call when the speed is finite and
    at least 1 m/s (completion is not evaluated on that call) and shows
    Standby otherwise.  The status Completed is shown only by a call that
    found a run armed, at least 402.336 m covered and a finite positive
    elapsed time, which it stored as [lastTime]; every other call leaves
    the stored times unchanged. *)
Theorem quarter_mile_records_only_on_completion :
  forall t totalDistance speed timestamp,
    let t' := QuarterMileTracker.update t totalDistance speed timestamp in
    (QuarterMileTracker.runStart t = None ->
     QuarterMileTracker.st t' = QuarterMileTracker.st t /\
     (shouldArmRun speed = true ->
      QuarterMileTracker.runStart t' =
        Some (QuarterMileTracker.mkRunStart totalDistance timestamp) /\
      QuarterMileTracker.status t' = QuarterMileTracker.Running) /\
     (shouldArmRun speed = false ->
      QuarterMileTracker.runStart t' = None /\
      QuarterMileTracker.status t' = QuarterMileTracker.Standby)) /\
    (QuarterMileTracker.status t' = QuarterMileTracker.Completed ->
     exists start,
       QuarterMileTracker.runStart t = Some start /\
       ngeb (nsub totalDistance (QuarterMileTracker.distance start))
            QUARTER_MILE_M = true /\
       num_finite (nsub timestamp (QuarterMileTracker.time start)) = true /\
       ngtb (nsub timestamp (QuarterMileTracker.time start)) (Fin 0) = true /\
       QuarterMileTracker.lastTime (QuarterMileTracker.st t') =
         Num (nsub timestamp (QuarterMileTracker.time start)) /\
       QuarterMileTracker.runStart t' = None) /\
    (QuarterMileTracker.status t' <> QuarterMileTracker.Completed ->
     QuarterMileTracker.st t' = QuarterMileTracker.st t).
Proof.
  intros t totalDistance speed timestamp t'. subst t'.
  unfold QuarterMileTracker.update.
  destruct (QuarterMileTracker.runStart t) as [start |].
  - cbv zeta. split; [ discriminate | ].
    destruct (ngeb (nsub totalDistance (QuarterMileTracker.distance start))
                QUARTER_MILE_M) eqn:Hcov.
    + destruct (num_finite (nsub timestamp (QuarterMileTracker.time start))
                && ngtb (nsub timestamp (QuarterMileTracker.time start))
                     (Fin 0)) eqn:Hel.
      * cbn [QuarterMileTracker.status QuarterMileTracker.st
             QuarterMileTracker.lastTime QuarterMileTracker.runStart].
        split; [ | congruence ].
        intros _. exists start.
        apply andb_true_iff in Hel. destruct Hel as [Hf Hp].
        repeat split; trivial.
      * split; [ discriminate | reflexivity ].
    + destruct (negb (is_null speed) && isFinite speed
                && nltb (toNumber speed) (Fin 0.5)).
      * split; [ discriminate | reflexivity ].
      * cbn [QuarterMileTracker.status QuarterMileTracker.st].
        split; [ | reflexivity ].
        case_bool; discriminate.
  - split.
    + intros _. destruct (shouldArmRun speed); simpl;
        repeat split; try discriminate; try reflexivity.
    + destruct (shouldArmRun speed); simpl; split;
        try discriminate; reflexivity.
Qed.

Lemma quarter_times_update (t : QuarterMileTracker.tracker)
    (totalDistance : num) (speed : value) (timestamp : num) :
  let t' := QuarterMileTracker.update t totalDistance speed timestamp in
  QuarterMileTracker.st t' = QuarterMileTracker.st t \/
  exists e,
    0 < e /\
    QuarterMileTracker.lastTime (QuarterMileTracker.st t') = Num (Fin e) /\
    QuarterMileTracker.bestTime (QuarterMileTracker.st t') =
      (if is_null (QuarterMileTracker.bestTime (QuarterMileTracker.st t))
          || nltb (Fin e)
               (toNumber
                  (QuarterMileTracker.bestTime (QuarterMileTracker.st t)))
       then Num (Fin e)
       else QuarterMileTracker.bestTime (QuarterMileTracker.st t)).
Proof.
  cbv zeta. unfold QuarterMileTracker.update.
  destruct (QuarterMileTracker.runStart t) as [start |].
  - cbv zeta. destruct (ngeb _ QUARTER_MILE_M).
    + destruct (nsub timestamp (QuarterMileTracker.time start)) as [e | | |];
        simpl; auto.
      destruct (Qltb 0 e) eqn:He; simpl; auto.
      right. exists e. qbool. auto.
    + case_bool; simpl; auto.
  - destruct (shouldArmRun speed); simpl; auto.
Qed.

(** The best-time rule keeps well-formed times well-formed. *)
Lemma times_ok_record (best last : value) (e : Q) :
  0 < e -> times_ok best last ->
  times_ok
    (if is_null best || nltb (Fin e) (toNumber best) then Num (Fin e) else best)
    (Num (Fin e)).
Proof.
  intros He [[-> ->] | (b & l & -> & -> & Hb & Hbl)]; simpl.
  - right. exists e, e. repeat split; trivial. lra.
  - right. destruct (Qltb e b) eqn:Hlt.
    + exists e, e. repeat split; trivial. lra.
    + exists b, e. qbool. repeat split; trivial.
Qed.

Lemma best_le_refl (v : value) : best_le v v.
Proof. destruct v; simpl; auto. Qed.

Lemma best_le_trans (a b c : value) :
  best_le a b -> best_le b c -> best_le a c.
Proof.
  destruct a as [| p], b as [| q], c as [| r]; simpl; try tauto.
  intros [-> | H1] [-> | H2]; auto.
  right. eapply nltb_trans; eassumption.
Qed.

Lemma best_le_record (best : value) (e : num) :
  best_le best
    (if is_null best || nltb e (toNumber best) then Num e else best).
Proof.
  destruct best as [| b]; simpl; trivial.
  destruct (nltb e b) eqn:H; simpl; auto.
Qed.

(** X6.  From the defaults, after any sequence of calls, the two stored
    times of the quarter-mile tracker are both [null] or both finite and
    strictly positive, with [bestTime <= lastTime]; the property is kept by
    every call. *)
Theorem quarter_mile_times_well_formed :
  (forall t totalDistance speed timestamp,
     times_ok (QuarterMileTracker.bestTime (QuarterMileTracker.st t))
              (QuarterMileTracker.lastTime (QuarterMileTracker.st t)) ->
     let t' := QuarterMileTracker.update t totalDistance speed timestamp in
     times_ok (QuarterMileTracker.bestTime (QuarterMileTracker.st t'))
              (QuarterMileTracker.lastTime (QuarterMileTracker.st t'))) /\
  (forall samples,
     let t := quarter_run QuarterMileTracker.init samples in
     times_ok (QuarterMileTracker.bestTime (QuarterMileTracker.st t))
              (QuarterMileTracker.lastTime (QuarterMileTracker.st t))).
Proof.
  assert (Hstep : forall t totalDistance speed timestamp,
     times_ok (QuarterMileTracker.bestTime (QuarterMileTracker.st t))
              (QuarterMileTracker.lastTime (QuarterMileTracker.st t)) ->
     times_ok
       (QuarterMileTracker.bestTime
          (QuarterMileTracker.st
             (QuarterMileTracker.update t totalDistance speed timestamp)))
       (QuarterMileTracker.lastTime
          (QuarterMileTracker.st
             (QuarterMileTracker.update t totalDistance speed timestamp)))).
  { intros t d v ts H.
    destruct (quarter_times_update t d v ts) as [-> | (e & He & -> & ->)];
      trivial.
    exact (times_ok_record _ _ e He H). }
  split; [ exact Hstep | ].
  intros samples. cbv zeta.
  assert (H : forall t,
     times_ok (QuarterMileTracker.bestTime (QuarterMileTracker.st t))
              (QuarterMileTracker.lastTime (QuarterMileTracker.st t)) ->
     times_ok
       (QuarterMileTracker.bestTime
          (QuarterMileTracker.st (quarter_run t samples)))
       (QuarterMileTracker.lastTime
          (QuarterMileTracker.st (quarter_run t samples)))).
  { induction samples as [| [[d v] ts] rest IH]; intros t Ht; simpl; trivial.
    apply IH, Hstep, Ht. }
  apply H. left. split; reflexivity.
Qed.

(** X6 at a concrete tracker: a best of 20 s, then a run of 25 s. *)
Lemma quarter_mile_times_well_formed_witness :
  let t :=
    QuarterMileTracker.mkTracker
      (QuarterMileTracker.mkState (Num (Fin 20)) (Num (Fin 20)))
      (Some (QuarterMileTracker.mkRunStart (Fin 0) (Fin 100)))
      QuarterMileTracker.Running in
  let t' := QuarterMileTracker.update t (Fin 500) (Num (Fin 30)) (Fin 125) in
  times_ok (QuarterMileTracker.bestTime (QuarterMileTracker.st t'))
           (QuarterMileTracker.lastTime (QuarterMileTracker.st t')).
Proof.
  cbv zeta. apply (proj1 quarter_mile_times_well_formed).
  right. exists 20, 20. repeat split; reflexivity || discriminate.
Defined.

(** X7.  Over any sequence of calls, from any tracker, the best
    quarter-mile time never increases: once set it is never cleared and is
    only ever replaced by a strictly smaller time. *)
Theorem quarter_mile_best_never_increases :
  forall samples t,
    best_le (QuarterMileTracker.bestTime (QuarterMileTracker.st t))
            (QuarterMileTracker.bestTime
               (QuarterMileTracker.st (quarter_run t samples))).
Proof.
  induction samples as [| [[d v] ts] rest IH]; intros t; simpl.
  - apply best_le_refl.
  - eapply best_le_trans; [ | apply IH ].
    destruct (quarter_times_update t d v ts) as [-> | (e & _ & _ & ->)].
    + apply best_le_refl.
    + apply best_le_record.
Qed.

(** ** The zero-to-sixty tracker over a run *)

Lemma zero_sixty_times_update (t : ZeroSixtyTracker.tracker) (speed : value)
    (timestamp : num) :
  let t' := ZeroSixtyTracker.update t speed timestamp in
  let elapsed := nsub timestamp (toNumber (ZeroSixtyTracker.startTime t)) in
  (ZeroSixtyTracker.st t' = ZeroSixtyTracker.st t /\
   (ZeroSixtyTracker.phase t' = ZeroSixtyTracker.cooldown ->
    ZeroSixtyTracker.phase t = ZeroSixtyTracker.cooldown)) \/
  (ZeroSixtyTracker.phase t = ZeroSixtyTracker.running /\
   ZeroSixtyTracker.phase t' = ZeroSixtyTracker.cooldown /\
   isFinite speed = true /\ num_finite timestamp = true /\
   ngeb (toNumber speed) ZERO_TO_SIXTY_TARGET_MS = true /\
   ngtb elapsed (Fin 0) = true /\
   ZeroSixtyTracker.lastTime (ZeroSixtyTracker.st t') = Num elapsed /\
   ZeroSixtyTracker.bestTime (ZeroSixtyTracker.st t') =
     (if is_null (ZeroSixtyTracker.bestTime (ZeroSixtyTracker.st t))
         || nltb elapsed
              (toNumber (ZeroSixtyTracker.bestTime (ZeroSixtyTracker.st t)))
      then Num elapsed
      else ZeroSixtyTracker.bestTime (ZeroSixtyTracker.st t))).
Proof.
  cbv zeta. unfold ZeroSixtyTracker.update. cbv zeta.
  destruct (isFinite speed) eqn:Hv; [ | left; auto ].
  destruct (num_finite timestamp) eqn:Ht; [ | left; auto ].
  cbn [negb orb].
  destruct (ZeroSixtyTracker.phase t) eqn:Hp.
  - left. case_bool; cbn; split; trivial; congruence.
  - left. case_bool; cbn; split; trivial; congruence.
  - destruct (ngeb (toNumber speed) ZERO_TO_SIXTY_TARGET_MS) eqn:Hgo.
    + destruct (ngtb (nsub timestamp (toNumber (ZeroSixtyTracker.startTime t)))
                  (Fin 0)) eqn:He.
      * right. cbn [ZeroSixtyTracker.phase ZeroSixtyTracker.st
                    ZeroSixtyTracker.lastTime ZeroSixtyTracker.bestTime].
        repeat split; trivial.
      * left. cbn. split; trivial. discriminate.
    + left. case_bool; cbn; split; trivial; congruence.
  - left. case_bool; cbn; split; trivial; congruence.
Qed.

(** X8.  The zero-to-sixty tracker ignores a call whose speed or
    timestamp is not finite.  The running phase is entered only from the
    armed phase, by a speed above 0.5 m/s, and the start time is then the
    timestamp of that call; the cooldown phase is entered only from the
    running phase, by a speed of at least 26.8224 m/s and a positive
    elapsed time, which is stored as [lastTime]; every other call leaves
    the stored times unchanged. *)
Theorem zero_sixty_transitions :
  forall t speed timestamp,
    let t' := ZeroSixtyTracker.update t speed timestamp in
    (isFinite speed = false \/ num_finite timestamp = false -> t' = t) /\
    (ZeroSixtyTracker.phase t' = ZeroSixtyTracker.running ->
     ZeroSixtyTracker.phase t = ZeroSixtyTracker.running \/
     (ZeroSixtyTracker.phase t = ZeroSixtyTracker.armed /\
      ngtb (toNumber speed) (Fin 0.5) = true /\
      ZeroSixtyTracker.startTime t' = Num timestamp)) /\
    (ZeroSixtyTracker.phase t' = ZeroSixtyTracker.cooldown ->
     ZeroSixtyTracker.phase t = ZeroSixtyTracker.cooldown \/
     (ZeroSixtyTracker.phase t = ZeroSixtyTracker.running /\
      ngeb (toNumber speed) ZERO_TO_SIXTY_TARGET_MS = true /\
      ngtb (nsub timestamp (toNumber (ZeroSixtyTracker.startTime t)))
           (Fin 0) = true /\
      ZeroSixtyTracker.lastTime (ZeroSixtyTracker.st t') =
        Num (nsub timestamp (toNumber (ZeroSixtyTracker.startTime t))))) /\
    (ZeroSixtyTracker.phase t' <> ZeroSixtyTracker.cooldown \/
     ZeroSixtyTracker.phase t = ZeroSixtyTracker.cooldown ->
     ZeroSixtyTracker.st t' = ZeroSixtyTracker.st t).
Proof.
  intros t speed timestamp t'. subst t'.
  split; [ | split; [ | split ] ].
  - unfold ZeroSixtyTracker.update.
    intros [H | H]; rewrite H; simpl; rewrite ?orb_true_r; reflexivity.
  - unfold ZeroSixtyTracker.update. cbv zeta.
    destruct (negb (isFinite speed) || negb (num_finite timestamp));
      [ auto | ].
    destruct (ZeroSixtyTracker.phase t) eqn:Hp;
      repeat case_bool; cbn; try rewrite Hp; try discriminate; auto.
  - destruct (zero_sixty_times_update t speed timestamp)
      as [[_ H] | (Hp & _ & _ & _ & Hgo & He & Hl & _)]; auto.
  - destruct (zero_sixty_times_update t speed timestamp)
      as [[H _] | (Hp & Hp' & _)]; trivial.
    intros [H | H]; congruence.
Qed.




(** X10.  Over any sequence of calls, from any tracker, the best
    zero-to-sixty time never increases: once set it is never cleared and is
    only ever replaced by a strictly smaller time. *)
Theorem zero_sixty_best_never_increases :
  forall samples t,
    best_le (ZeroSixtyTracker.bestTime (ZeroSixtyTracker.st t))
            (ZeroSixtyTracker.bestTime
               (ZeroSixtyTracker.st (zero_sixty_run t samples))).
Proof.
  induction samples as [| x xs IH]; intros t; simpl.
  - apply best_le_refl.
  - eapply best_le_trans; [ | apply IH ].
    destruct (zero_sixty_times_update t (fst x) (snd x))
      as [[-> _] | (_ & _ & _ & _ & _ & _ & _ & ->)].
    + apply best_le_refl.
    + apply best_le_record.
Qed.

(** ** A pass of the engine without a speed *)

(** X11.  A fix without sensor speed that cannot yield a secant speed (the
    first fix, or a fix whose timestamp is not after the previous one)
    gives no speed sample: the pass leaves the speed statistics and the
    zero-to-sixty tracker untouched, reports a [null] acceleration without
    touching the stored acceleration state, does not arm a quarter-mile
    run, and still becomes the previous fix of the next pass. *)
Theorem engine_pass_without_speed
    (M : MathLib) (e : Engine) (position : GeoPosition) :
  isFinite (speed (coords position)) = false ->
  (lastPosition e = None \/
   exists previous,
     lastPosition e = Some previous /\
     ngtb (nsub (ndiv (timestamp position) (Fin 1000)) (time previous))
          (Fin 0) = false) ->
  let e' := handlePosition M e position in
  speedStatsStore e' = speedStatsStore e /\
  zeroSixtyTracker e' = zeroSixtyTracker e /\
  AccelerationStore.current (accelerationStore e') = Null /\
  AccelerationStore.st (accelerationStore e') =
    AccelerationStore.st (accelerationStore e) /\
  (QuarterMileTracker.runStart (quarterMileTracker e) = None ->
   QuarterMileTracker.runStart (quarterMileTracker e') = None /\
   QuarterMileTracker.status (quarterMileTracker e') =
     QuarterMileTracker.Standby) /\
  lastPosition e' =
    Some (mkPosition (latitude (coords position))
            (longitude (coords position))
            (ndiv (timestamp position) (Fin 1000))).
Proof.
  intros Hraw Hprev e'. subst e'. unfold handlePosition. cbv zeta.
  cbn [speedStatsStore zeroSixtyTracker accelerationStore quarterMileTracker
       lastPosition].
  assert (Hnull :
    resolveSpeed (lastPosition e) (speed (coords position))
      (computeTravelDelta M (lastPosition e)
         (mkPosition (latitude (coords position))
            (longitude (coords position))
            (ndiv (timestamp position) (Fin 1000))))
      (mkPosition (latitude (coords position))
         (longitude (coords position))
         (ndiv (timestamp position) (Fin 1000))) = Null).
  { rewrite resolveSpeed_cases, Hraw.
    destruct Hprev as [-> | (previous & -> & Hdt)]; trivial.
    cbv zeta. cbn [time]. now rewrite Hdt. }
  rewrite Hnull.
  do 4 (split; [ reflexivity | ]). split; [ | reflexivity ].
  intros Hrun. unfold QuarterMileTracker.update. rewrite Hrun.
  split; reflexivity.
Qed.

(** X11 at a fresh engine fed two fixes without speed at the same time. *)
Lemma engine_pass_without_speed_witness :
  let p := mkGeoPosition (mkCoords (Fin 45) (Fin 7) Null Null) (Fin 5000) in
  let e := handlePosition small_angle_math fresh p in
  speedStatsStore (handlePosition small_angle_math e p) = speedStatsStore e /\
  AccelerationStore.current
    (accelerationStore (handlePosition small_angle_math e p)) = Null.
Proof.
  cbv zeta.
  destruct (engine_pass_without_speed small_angle_math
              (handlePosition small_angle_math fresh
                 (mkGeoPosition (mkCoords (Fin 45) (Fin 7) Null Null)
                    (Fin 5000)))
              (mkGeoPosition (mkCoords (Fin 45) (Fin 7) Null Null) (Fin 5000))
              eq_refl
              (or_intror
                 (ex_intro _ (mkPosition (Fin 45) (Fin 7) (Fin 5))
                    (conj eq_refl eq_refl))))
    as (Hs & _ & Hc & _).
  split; [ exact Hs | exact Hc ].
Defined.

(** * Properties of the readouts *)

(** ** The heading *)

(** The remainder modulo 360 of a rational. *)
Lemma nrem_360 (x : Q) :
  exists r k,
    nrem (Fin x) (Fin 360) = Fin r /\
    r == x - 360 * inject_Z k /\
    - (360) < r /\ r < 360 /\ (0 <= x -> 0 <= r).
Proof.
  exists (Qred (x - 360 * inject_Z (Qtrunc (x / 360)))), (Qtrunc (x / 360)).
  split; [ reflexivity | ].
  rewrite Qred_correct. split; [ reflexivity | ].
  assert (Hx : x == 360 * (x / 360)) by (field; discriminate).
  unfold Qtrunc. destruct (Qleb 0 (x / 360)) eqn:Hs.
  - pose proof (Qfloor_le (x / 360)) as H1.
    pose proof (Qlt_floor (x / 360)) as H2.
    rewrite inject_Z_plus in H2. change (inject_Z 1) with 1 in H2.
    qbool. repeat split; intros; lra.
  - pose proof (Qle_ceiling (x / 360)) as H1.
    pose proof (Qceiling_lt (x / 360)) as H2.
    unfold Z.sub in H2. rewrite inject_Z_plus in H2.
    change (inject_Z (- (1))) with (- (1)) in H2.
    qbool. repeat split; intros; lra.
Qed.

Lemma normalizedHeading_spec (q : Q) :
  exists n k,
    normalizedHeading (Fin q) = Fin n /\
    n == q + 360 * inject_Z k /\ 0 <= n /\ n < 360.
Proof.
  unfold normalizedHeading.
  destruct (nrem_360 q) as (r1 & k1 & -> & E1 & L1 & U1 & _).
  cbn [nadd].
  destruct (nrem_360 (Qred (r1 + 360))) as (r2 & k2 & -> & E2 & L2 & U2 & P2).
  rewrite Qred_correct in E2, P2.
  exists r2, (1 - k1 - k2)%Z. split; [ reflexivity | ].
  split; [ | split; [ apply P2; lra | exact U2 ] ].
  unfold Z.sub. rewrite !inject_Z_plus, !inject_Z_opp.
  change (inject_Z 1) with 1. lra.
Qed.



Lemma cardinal_index (n : Q) :
  0 <= n -> n < 360 ->
  exists z,
    Math_round (ndiv (Fin n) (Fin 45)) = Fin (inject_Z z) /\
    (0 <= z <= 8)%Z /\
    (z = 0%Z <-> n < 22.5) /\ (z = 8%Z <-> 337.5 <= n).
Proof.
  intros H0 H1. cbn [ndiv Math_round].
  change (Qeqb 45 0) with false. cbv iota.
  set (m := Qred (n / 45) + (1 # 2)).
  assert (Hm : m == n / 45 + (1 # 2)) by (unfold m; now rewrite Qred_correct).
  assert (Hn : n == 45 * (n / 45)) by (field; discriminate).
  exists (Qfloor m). split; [ reflexivity | ].
  pose proof (Qfloor_le m) as F1. pose proof (Qlt_floor m) as F2.
  rewrite inject_Z_plus in F2. change (inject_Z 1) with 1 in F2.
  assert (B0 : inject_Z (-1) < inject_Z (Qfloor m))
    by (change (inject_Z (-1)) with (- (1)); lra).
  assert (B8 : inject_Z (Qfloor m) < inject_Z 9)
    by (change (inject_Z 9) with 9; lra).
  rewrite <- Zlt_Qlt in B0, B8.
  split; [ lia | ]. split; split; intros H.
  - rewrite H in F2. change (inject_Z 0) with 0 in F2. lra.
  - assert (B : inject_Z (Qfloor m) < inject_Z 1)
      by (change (inject_Z 1) with 1; lra).
    rewrite <- Zlt_Qlt in B. lia.
  - rewrite H in F1. change (inject_Z 8) with 8 in F1. lra.
  - assert (B : inject_Z 7 < inject_Z (Qfloor m))
      by (change (inject_Z 7) with 7; lra).
    rewrite <- Zlt_Qlt in B. lia.
Qed.

(** X13.  For every finite heading the readout names a cardinal: the
    index computed from the normalized heading always falls inside the
    table of nine names, so the cardinal is never [undefined]; and it is
    ["N"] exactly when the normalized heading is within 22.5 degrees of
    north, on either side. *)
Theorem heading_cardinal_always_defined :
  forall q,
    exists n c,
      formatHeading (Num (Fin q)) = HeadingOf (Fin n) (Some c) /\
      0 <= n /\ n < 360 /\
      In c headings /\
      (c = "N"%string <-> n < 22.5 \/ 337.5 <= n).
Proof.
  intros q. unfold formatHeading. simpl.
  destruct (normalizedHeading_spec q) as (n & k & -> & _ & L & U).
  destruct (cardinal_index n L U) as (z & Hz & Hr & Hn & Hs).
  unfold headingToCardinal. cbv zeta. rewrite Hz.
  unfold array_get. rewrite Qfloor_Z.
  assert (Hi : Qeqb (inject_Z z) (inject_Z z) = true) by (qbool; reflexivity).
  assert (Hp : Qleb 0 (inject_Z z) = true).
  { qbool. change 0 with (inject_Z 0). rewrite <- Zle_Qle. lia. }
  rewrite Hi, Hp. cbn [andb].
  assert (Hc : (z = 0 \/ z = 1 \/ z = 2 \/ z = 3 \/ z = 4 \/ z = 5 \/ z = 6 \/
                z = 7 \/ z = 8)%Z) by lia.
  exists n.
  destruct Hc as [E | [E | [E | [E | [E | [E | [E | [E | E]]]]]]]];
    rewrite E; cbn [Z.to_nat Pos.to_nat Pos.iter_op Nat.add nth_error headings];
    eexists; (split; [ reflexivity | ]);
    (split; [ exact L | ]); (split; [ exact U | ]);
    (split; [ simpl; tauto | ]);
    (split;
     [ intros Hc; try discriminate Hc;
       first [ left; apply Hn; exact E | right; apply Hs; exact E ]
     | intros [Hd | Hd];
       [ apply Hn in Hd | apply Hs in Hd ]; try reflexivity; lia ]).
Qed.

(** ** The viewport scale *)

Lemma clamp_scale (raw : num) :
  raw <> NaN ->
  exists s,
    Math_max (Fin 0.35) (Math_min raw (Fin 1.75)) = Fin s /\
    0.35 <= s /\ s <= 1.75.
Proof.
  intros Hr. destruct raw as [r | | |]; try congruence; simpl.
  - destruct (Qltb 1.75 r) eqn:H1; simpl.
    + exists 1.75. split; [ reflexivity | split; lra ].
    + destruct (Qltb 0.35 r) eqn:H2; qbool.
      * exists r. split; [ reflexivity | split; lra ].
      * exists 0.35. split; [ reflexivity | split; lra ].
  - exists 1.75. split; [ reflexivity | split; lra ].
  - exists 0.35. split; [ reflexivity | split; lra ].
Qed.

Lemma available_side (bounds : num) :
  num_finite bounds = true ->
  exists a, Math_max bounds (Fin 1) = Fin a /\ 1 <= a.
Proof.
  destruct bounds as [b | | |]; try discriminate. intros _. simpl.
  destruct (Qltb b 1) eqn:H; qbool.
  - exists 1. split; [ reflexivity | lra ].
  - exists b. split; [ reflexivity | lra ].
Qed.

Lemma base_side (parsed fallback : num) :
  fallback <> PosInf -> fallback <> NegInf ->
  exists w, (if num_finite parsed then parsed else or_one fallback) = Fin w.
Proof.
  intros H1 H2. destruct parsed as [p | | |]; simpl; eauto;
    unfold or_one; destruct fallback as [f | | |]; simpl; try congruence;
    eauto; destruct (Qeqb f 0); simpl; eauto.
Qed.

Lemma ratio_not_NaN (a w : Q) : 1 <= a -> ndiv (Fin a) (Fin w) <> NaN.
Proof.
  intros Ha. simpl. destruct (Qeqb w 0); [ | discriminate ].
  destruct (Qeqb a 0) eqn:Hz; [ qbool; lra | ].
  destruct (Qltb 0 a); discriminate.
Qed.

Lemma Math_min_not_NaN (a b : num) :
  a <> NaN -> b <> NaN -> Math_min a b <> NaN.
Proof.
  destruct a, b; simpl; try congruence; try discriminate;
    destruct (Qltb _ _); discriminate.
Qed.

(** X14.  Whatever the style variables hold (numbers, zero, garbage) and
    whatever the sizes of the window, the scale written for the page is a
    number between 0.35 and 1.75, provided the two rectangles read from
    the document have finite sides. *)
Theorem viewport_scale_is_clamped
    (innerWidth innerHeight boundsWidth boundsHeight : num)
    (width height fallbackWidth fallbackHeight : num) :
  num_finite boundsWidth = true -> num_finite boundsHeight = true ->
  num_finite fallbackWidth = true -> num_finite fallbackHeight = true ->
  exists s,
    snd (applyScale innerWidth innerHeight boundsWidth boundsHeight
           width height fallbackWidth fallbackHeight) = Fin s /\
    0.35 <= s /\ s <= 1.75.
Proof.
  intros Hbw Hbh Hfw Hfh. unfold applyScale, readBaseDimensions.
  cbn [snd fst].
  destruct (available_side _ Hbw) as (aw & -> & Haw).
  destruct (available_side _ Hbh) as (ah & -> & Hah).
  destruct (base_side width fallbackWidth) as (w & ->);
    try (destruct fallbackWidth; discriminate).
  destruct (base_side height fallbackHeight) as (h & ->);
    try (destruct fallbackHeight; discriminate).
  apply clamp_scale, Math_min_not_NaN; now apply ratio_not_NaN.
Qed.

(** X14 at a 1280 by 720 stage, a 640 by 360 design size that parsed, and
    at a design width that did not parse with a fallback of 0. *)
Lemma viewport_scale_is_clamped_witness :
  (exists s,
     snd (applyScale (Fin 1280) (Fin 720) (Fin 1280) (Fin 720)
            (Fin 640) (Fin 360) (Fin 0) (Fin 0)) = Fin s /\
     0.35 <= s /\ s <= 1.75) /\
  (exists s,
     snd (applyScale (Fin 400) (Fin 800) (Fin 400) (Fin 800)
            NaN (Fin 0) (Fin 0) (Fin 900)) = Fin s /\
     0.35 <= s /\ s <= 1.75).
Proof.
  split; apply viewport_scale_is_clamped; reflexivity.
Defined.

(** ** The session clock *)

Lemma pad_two_digits_below_100 (n : nat) :
  (n < 100)%nat -> pad (Z.of_nat n) = two_digits (Z.of_nat n).
Proof.
  intros H.
  assert (Hall :
    forallb (fun k => String.eqb (pad (Z.of_nat k)) (two_digits (Z.of_nat k)))
            (seq 0 100) = true) by (vm_compute; reflexivity).
  rewrite forallb_forall in Hall.
  apply String.eqb_eq, Hall, in_seq. lia.
Qed.

Lemma pad_two_digits (v : Z) :
  (0 <= v < 100)%Z -> pad v = two_digits v.
Proof.
  intros H. rewrite <- (Z2Nat.id v) by lia.
  apply pad_two_digits_below_100. lia.
Qed.

(** X15.  For a count of seconds that is not negative, [formatClock]
    splits it into hours, minutes below 60 and seconds below 60 that add
    up to the count; the minutes and the seconds are always written with
    exactly two digits, and so are the hours below one hundred, so that up
    to 99:59:59 the text is made of eight characters, two digits, a colon,
    two digits, a colon, two digits. *)
Theorem formatClock_fields :
  forall totalSeconds,
    (0 <= totalSeconds)%Z ->
    let hours := (totalSeconds / 3600)%Z in
    let minutes := (Z.rem totalSeconds 3600 / 60)%Z in
    let seconds := Z.rem totalSeconds 60 in
    (totalSeconds = 3600 * hours + 60 * minutes + seconds)%Z /\
    (0 <= hours)%Z /\ (0 <= minutes < 60)%Z /\ (0 <= seconds < 60)%Z /\
    formatClock totalSeconds =
      (pad hours ++ ":" ++ two_digits minutes ++ ":" ++ two_digits seconds)
        %string /\
    ((totalSeconds < 360000)%Z ->
     formatClock totalSeconds =
       (two_digits hours ++ ":" ++ two_digits minutes ++ ":"
          ++ two_digits seconds)%string /\
     String.length (formatClock totalSeconds) = 8%nat).
Proof.
  intros t Ht hours minutes seconds. subst hours minutes seconds.
  rewrite !Z.rem_mod_nonneg by lia.
  assert (Hm : (0 <= t mod 3600 / 60 < 60)%Z).
  { split; [ apply Z.div_pos; [ apply Z.mod_pos_bound | ]; lia | ].
    apply Z.div_lt_upper_bound; [ lia | ].
    pose proof (Z.mod_pos_bound t 3600). lia. }
  assert (Hs : (0 <= t mod 60 < 60)%Z) by (apply Z.mod_pos_bound; lia).
  assert (Hh : (0 <= t / 3600)%Z) by (apply Z.div_pos; lia).
  assert (Hfmt :
    formatClock t =
    (pad (t / 3600) ++ ":" ++ two_digits (t mod 3600 / 60) ++ ":"
       ++ two_digits (t mod 60))%string).
  { unfold formatClock. cbv zeta. rewrite !Z.rem_mod_nonneg by lia.
    rewrite (pad_two_digits (t mod 3600 / 60)) by lia.
    rewrite (pad_two_digits (t mod 60)) by lia. reflexivity. }
  split; [ | repeat split; try lia; trivial ].
  - pose proof (Z.div_mod t 3600). pose proof (Z.div_mod (t mod 3600) 60).
    pose proof (Z.mod_mod_divide t 3600 60) as Hd.
    rewrite Z.mod_mod_divide in H0 by (exists 60%Z; reflexivity).
    lia.
  - rewrite Hfmt, pad_two_digits; trivial.
    split; [ lia | apply Z.div_lt_upper_bound; lia ].
  - rewrite Hfmt, pad_two_digits.
    + reflexivity.
    + split; [ lia | apply Z.div_lt_upper_bound; lia ].
Qed.

(** X15 at 3725 seconds: 01:02:05. *)
Lemma formatClock_fields_witness :
  formatClock 3725 = "01:02:05"%string /\
  String.length (formatClock 3725) = 8%nat.
Proof.
  destruct (formatClock_fields 3725 ltac:(discriminate))
    as (_ & _ & _ & _ & _ & H).
  destruct (H eq_refl) as [H1 H2].
  split; [ exact H1 | exact H2 ].
Defined.

(** X16.  The elapsed seconds shown by the session clock are 0 while no
    session has started, are never negative (a clock set back shows 0),
    never decrease when the current time advances, and, for a session that
    started in the past, are within half a second of the true elapsed
    time. *)
Theorem elapsedSeconds_bounds :
  (forall now, elapsedSeconds None now = 0%Z) /\
  (forall sessionStart now, (0 <= elapsedSeconds sessionStart now)%Z) /\
  (forall sessionStart now later,
     (now <= later)%Z ->
     (elapsedSeconds sessionStart now <= elapsedSeconds sessionStart later)%Z) /\
  (forall start now,
     start <> 0%Z -> (start <= now)%Z ->
     let e := elapsedSeconds (Some start) now in
     (1000 * e - 500 <= now - start < 1000 * e + 500)%Z).
Proof.
  split; [ reflexivity | split; [ | split ] ].
  - intros [start |] now; unfold elapsedSeconds; [ | lia ].
    destruct (start =? 0)%Z; lia.
  - intros [start |] now later H; unfold elapsedSeconds; [ | lia ].
    destruct (start =? 0)%Z; [ lia | ].
    apply Z.max_le_compat_l, Z.div_le_mono; lia.
  - intros start now Hs Hn e. subst e. unfold elapsedSeconds.
    apply Z.eqb_neq in Hs. rewrite Hs.
    pose proof (Z.div_mod (now - start + 500) 1000 ltac:(discriminate)).
    pose proof (Z.mod_pos_bound (now - start + 500) 1000 eq_refl).
    assert (0 <= (now - start + 500) / 1000)%Z by (apply Z.div_pos; lia).
    lia.
Qed.

(** X16 at a session started at 1000 ms and read at 4600 ms: 4 s. *)
Lemma elapsedSeconds_bounds_witness :
  (elapsedSeconds (Some 1000%Z) 2000 <= elapsedSeconds (Some 1000%Z) 4600)%Z /\
  (1000 * elapsedSeconds (Some 1000%Z) 4600 - 500 <= 4600 - 1000
   < 1000 * elapsedSeconds (Some 1000%Z) 4600 + 500)%Z.
Proof.
  destruct elapsedSeconds_bounds as (_ & _ & Hmono & Hnear).
  split.
  - apply Hmono. discriminate.
  - apply (Hnear 1000%Z 4600%Z); discriminate.
Defined.

(** * Properties of the carousel *)

Lemma has_add_same (id : Z) (s : list Z) :
  Carousel.has id (Carousel.add id s) = true.
Proof.
  unfold Carousel.add. destruct (Carousel.has id s) eqn:H; trivial.
  unfold Carousel.has. rewrite existsb_app. simpl.
  rewrite Z.eqb_refl. now rewrite orb_true_r.
Qed.

Lemma has_add_other (x id : Z) (s : list Z) :
  Carousel.has x s = true -> Carousel.has x (Carousel.add id s) = true.
Proof.
  intros H. unfold Carousel.add. destruct (Carousel.has id s); trivial.
  unfold Carousel.has in *. rewrite existsb_app, H. reflexivity.
Qed.

Lemma carousel_ok_parts (c : Carousel.carousel) :
  carousel_ok c <-> shown_ok c /\ pointers_ok c.
Proof. unfold carousel_ok, shown_ok, pointers_ok. tauto. Qed.

Lemma shown_ok_applyTransform (w extra : num) (c : Carousel.carousel) :
  shown_ok c -> shown_ok (Carousel.applyTransform w extra c).
Proof. intros H. exact H. Qed.

Lemma shown_ok_set_pointer (id : option Z) (a b : num) (l : list Z)
    (m : bool) (c : Carousel.carousel) :
  shown_ok c -> shown_ok (Carousel.set_pointer id a b l m c).
Proof. intros H. exact H. Qed.

Lemma shown_ok_set_transition (b : bool) (c : Carousel.carousel) :
  shown_ok c -> shown_ok (Carousel.set_transition b c).
Proof. intros H. exact H. Qed.

Lemma shown_ok_goTo (w : num) (target : Z) (c : Carousel.carousel) :
  shown_ok c -> shown_ok (Carousel.goTo w target c).
Proof.
  intros H. unfold Carousel.goTo.
  destruct (Carousel.pages c) as [| p ps] eqn:Hp; trivial.
  cbv zeta. destruct (Z.eqb _ (Carousel.index c)) eqn:He; [ exact H | ].
  unfold shown_ok.
  cbn [Carousel.index Carousel.pages Carousel.updateControls
       Carousel.applyTransform Carousel.set_transition Carousel.set_index
       Carousel.labelText Carousel.indicatorText Carousel.prevDisabled
       Carousel.nextDisabled].
  rewrite Hp. cbn [length].
  repeat split; try reflexivity; lia.
Qed.

Lemma shown_ok_refreshPages (w : num) (children : list Carousel.Page)
    (c : Carousel.carousel) :
  (0 <= Carousel.index c)%Z ->
  shown_ok (Carousel.refreshPages w children c).
Proof.
  intros H. unfold Carousel.refreshPages. cbv zeta.
  destruct children as [| p ps].
  - unfold shown_ok. cbn. repeat split; try reflexivity; lia.
  - cbn [Carousel.index Carousel.set_pages] in *.
    destruct (Z.leb_spec (Z.of_nat (length (p :: ps))) (Carousel.index c))
      as [Hl | Hl]; unfold shown_ok;
      cbn [Carousel.index Carousel.pages Carousel.updateControls
           Carousel.applyTransform Carousel.set_pages Carousel.set_index
           Carousel.labelText Carousel.indicatorText Carousel.prevDisabled
           Carousel.nextDisabled];
      cbn [length] in *;
      repeat split; try reflexivity; lia.
Qed.

Lemma goTo_pointers (w : num) (target : Z) (c : Carousel.carousel) :
  Carousel.pointerId (Carousel.goTo w target c) = Carousel.pointerId c /\
  Carousel.activePointers (Carousel.goTo w target c)
    = Carousel.activePointers c /\
  Carousel.isMultiTouch (Carousel.goTo w target c) = Carousel.isMultiTouch c /\
  Carousel.pages (Carousel.goTo w target c) = Carousel.pages c.
Proof.
  unfold Carousel.goTo. destruct (Carousel.pages c) eqn:Hp; auto.
  cbv zeta. destruct (Z.eqb _ _); cbn; auto.
Qed.

Lemma refreshPages_pointers (w : num) (children : list Carousel.Page)
    (c : Carousel.carousel) :
  pointers_ok c -> pointers_ok (Carousel.refreshPages w children c).
Proof.
  intros H. unfold Carousel.refreshPages. cbv zeta.
  destruct children; [ exact H | ].
  destruct (Z.leb _ _); exact H.
Qed.

Lemma finishSwipe_shown (w : num) (c : Carousel.carousel) :
  shown_ok c -> shown_ok (Carousel.finishSwipe w c).
Proof.
  intros H. unfold Carousel.finishSwipe. cbv zeta.
  destruct (ngtb _ _); [ destruct (nltb _ _) | ];
    first [ apply (shown_ok_goTo w _ c H) | exact H ].
Qed.

Lemma carousel_ok_handle (c : Carousel.carousel) (x : num * Carousel.Event) :
  carousel_ok c -> carousel_ok (Carousel.handle c x).
Proof.
  rewrite !carousel_ok_parts. intros [Hs Hp].
  destruct x as [w e]. unfold Carousel.handle. cbn [fst snd].
  destruct e as [children | | | ev | ev | ev |].
  - split; [ apply shown_ok_refreshPages, Hs
           | now apply refreshPages_pointers ].
  - split; [ now apply shown_ok_goTo | ].
    destruct (goTo_pointers w (Carousel.index c - 1) c) as (E1 & E2 & E3 & _).
    unfold pointers_ok. now rewrite E1, E2, E3.
  - split; [ now apply shown_ok_goTo | ].
    destruct (goTo_pointers w (Carousel.index c + 1) c) as (E1 & E2 & E3 & _).
    unfold pointers_ok. now rewrite E1, E2, E3.
  - unfold Carousel.pointerDown. cbv zeta.
    destruct (_ && negb _); [ tauto | ].
    destruct (_ && (1 <? _)%nat).
    + split; [ exact Hs | ]. split; cbn; [ reflexivity | discriminate ].
    + cbn [Carousel.isMultiTouch Carousel.set_pointer].
      destruct (Carousel.isMultiTouch c) eqn:Hm.
      * split; [ exact Hs | ]. destruct Hp as [Hp1 Hp2].
        split; cbn; [ auto | ].
        intros id Hid. rewrite (Hp1 Hm) in Hid. discriminate.
      * split; [ exact Hs | ].
        split; cbn; [ discriminate | ].
        intros id Hid. inversion Hid. apply has_add_same.
  - unfold Carousel.pointerMove.
    destruct (_ || _); [ tauto | ]. split; [ exact Hs | exact Hp ].
  - unfold Carousel.pointerUp. cbv zeta.
    set (active := Carousel.delete _ _).
    set (multi := match active with [] => false | _ => _ end).
    destruct Hp as [Hp1 Hp2].
    assert (Hmulti : multi = true -> Carousel.pointerId c = None).
    { intros Hm. apply Hp1. unfold multi in Hm.
      destruct active; [ discriminate | exact Hm ]. }
    destruct (Carousel.other_pointer ev _) eqn:Ho.
    + cbn [Carousel.pointerId Carousel.set_pointer].
      destruct (Carousel.pointerId c) as [id |] eqn:Hid.
      * destruct (Carousel.has id active) eqn:Hh.
        -- split; [ exact Hs | ]. split; cbn.
           ++ intros Hm. specialize (Hmulti Hm). congruence.
           ++ intros id' E. inversion E. now subst.
        -- split; [ exact Hs | ]. split; cbn; [ reflexivity | discriminate ].
      * split; [ exact Hs | ]. split; cbn; [ reflexivity | discriminate ].
    + split.
      * apply shown_ok_set_pointer. destruct (negb multi).
        -- apply finishSwipe_shown, shown_ok_set_transition,
             shown_ok_set_pointer, Hs.
        -- exact Hs.
      * split; cbn; [ reflexivity | discriminate ].
  - split; [ exact Hs | exact Hp ].
Qed.

Lemma carousel_ok_create (w : num) (children : list Carousel.Page) :
  carousel_ok (Carousel.create w children).
Proof.
  apply carousel_ok_parts. split.
  - apply shown_ok_refreshPages. cbn. lia.
  - apply refreshPages_pointers. split; cbn; discriminate.
Qed.

Lemma carousel_ok_run (events : list (num * Carousel.Event)) :
  forall c, carousel_ok c -> carousel_ok (Carousel.run c events).
Proof.
  induction events as [| x xs IH]; intros c H; simpl; trivial.
  apply IH, carousel_ok_handle, H.
Qed.

Lemma goTo_index (w : num) (target : Z) (c : Carousel.carousel) :
  Carousel.index (Carousel.goTo w target c) =
  match Carousel.pages c with
  | [] => Carousel.index c
  | _ => Z.max 0 (Z.min target (Z.of_nat (length (Carousel.pages c)) - 1))
  end.
Proof.
  unfold Carousel.goTo. destruct (Carousel.pages c) eqn:Hp; trivial.
  cbv zeta. destruct (Z.eqb_spec
    (Z.max 0 (Z.min target (Z.of_nat (length (p :: l)) - 1)))
    (Carousel.index c)) as [E | E].
  - cbn [Carousel.index Carousel.applyTransform Carousel.set_transition].
    now rewrite E.
  - reflexivity.
Qed.

Lemma last_index_bound (c : Carousel.carousel) :
  carousel_ok c ->
  (0 <= Carousel.index c <= Z.max 0 (Z.of_nat (length (Carousel.pages c)) - 1))%Z.
Proof. intros (H0 & H1 & _). lia. Qed.

(** X17.  The carousel is consistent when it is created and stays so
    under every event (clicks, pointer events, resizes, changes of the
    pages): the index is always a position of the track (0 when the track
    is empty).  In a consistent carousel the Previous button is disabled
    exactly on the first page, the Next button exactly on the last page,
    and the indicator reads the index plus one, a slash, and the number of
    pages (1 for an empty track). *)
Theorem carousel_stays_consistent :
  (forall rectWidth children,
     carousel_ok (Carousel.create rectWidth children)) /\
  (forall c x, carousel_ok c -> carousel_ok (Carousel.handle c x)) /\
  (forall rectWidth children events,
     carousel_ok (Carousel.run (Carousel.create rectWidth children) events)) /\
  (forall c,
     carousel_ok c ->
     let last := Z.max 0 (Z.of_nat (length (Carousel.pages c)) - 1) in
     (0 <= Carousel.index c <= last)%Z /\
     (Carousel.prevDisabled c = true <-> Carousel.index c = 0%Z) /\
     (Carousel.nextDisabled c = true <-> Carousel.index c = last) /\
     Carousel.indicatorText c =
       (toString (Carousel.index c + 1) ++ " / "
          ++ toString (Z.max (Z.of_nat (length (Carousel.pages c))) 1))%string).
Proof.
  split; [ | split; [ | split ] ].
  - apply carousel_ok_create.
  - apply carousel_ok_handle.
  - intros w children events. apply carousel_ok_run, carousel_ok_create.
  - intros c Hok last. subst last.
    pose proof (last_index_bound c Hok) as Hb.
    destruct Hok as (H0 & H1 & _ & _ & _ & Hi & Hp & Hn).
    split; [ exact Hb | ]. split; [ | split ].
    + rewrite Hp. unfold Carousel.prev_of. rewrite Z.leb_le. lia.
    + rewrite Hn. unfold Carousel.next_of.
      destruct (Carousel.pages c) as [| p ps].
      * cbn [length] in *. split; [ lia | reflexivity ].
      * rewrite Z.leb_le. lia.
    + rewrite Hi. unfold Carousel.indicator_of. cbv zeta.
      rewrite Z.min_l by lia. reflexivity.
Qed.

(** X17 at a track of three pages after a click on Next. *)
Lemma carousel_stays_consistent_witness :
  let c :=
    Carousel.handle
      (Carousel.create (Fin 400) [Some "Speed"%string; None; None])
      (Fin 400, Carousel.NextClick) in
  Carousel.indicatorText c = "2 / 3"%string /\
  (Carousel.prevDisabled c = true <-> Carousel.index c = 0%Z).
Proof.
  cbv zeta.
  destruct carousel_stays_consistent as (Hc & Hh & _ & Hr).
  destruct (Hr _ (Hh _ (Fin 400, Carousel.NextClick)
                    (Hc (Fin 400) [Some "Speed"%string; None; None])))
    as (_ & Hp & _ & Hi).
  split; [ exact Hi | exact Hp ].
Defined.

Lemma finishSwipe_index (w : num) (c : Carousel.carousel) :
  Carousel.index (Carousel.finishSwipe w c) =
  if ngtb (Math_abs (Carousel.deltaX c))
          (Math_min (Fin 120) (nmul (Carousel.width c) (Fin 0.2)))
  then
    if nltb (Carousel.deltaX c) (Fin 0)
    then Carousel.index (Carousel.goTo w (Carousel.index c + 1) c)
    else Carousel.index (Carousel.goTo w (Carousel.index c - 1) c)
  else Carousel.index c.
Proof.
  unfold Carousel.finishSwipe. cbv zeta.
  destruct (ngtb _ _); [ destruct (nltb _ _) | ]; reflexivity.
Qed.

Lemma finishSwipe_pages (w : num) (c : Carousel.carousel) :
  Carousel.pages (Carousel.finishSwipe w c) = Carousel.pages c.
Proof.
  unfold Carousel.finishSwipe. cbv zeta.
  destruct (ngtb _ _); [ destruct (nltb _ _) | ];
    cbn [Carousel.pages Carousel.set_pointer Carousel.applyTransform];
    try apply goTo_pointers; reflexivity.
Qed.

Lemma pointerUp_index (w : num) (ev : Carousel.PointerEvent)
    (c : Carousel.carousel) :
  Carousel.pages (Carousel.pointerUp w ev c) = Carousel.pages c /\
  (Carousel.index (Carousel.pointerUp w ev c) = Carousel.index c \/
   (Carousel.pointerId c = Some (Carousel.eventPointerId ev) /\
    exists c2,
      Carousel.index c2 = Carousel.index c /\
      Carousel.pages c2 = Carousel.pages c /\
      Carousel.deltaX c2 = Carousel.deltaX c /\
      Carousel.width c2 = Carousel.width c /\
      Carousel.index (Carousel.pointerUp w ev c) =
        Carousel.index (Carousel.finishSwipe w c2))).
Proof.
  unfold Carousel.pointerUp. cbv zeta.
  set (active := Carousel.delete _ _).
  set (multi := match active with [] => false | _ => _ end).
  destruct (Carousel.other_pointer ev _) eqn:Ho.
  - cbn [Carousel.pointerId Carousel.set_pointer].
    destruct (Carousel.pointerId c) as [id |];
      [ destruct (Carousel.has id active) | ]; auto.
  - unfold Carousel.other_pointer in Ho.
    cbn [Carousel.pointerId Carousel.set_pointer] in Ho.
    destruct (Carousel.pointerId c) as [id |] eqn:Hid; [ | discriminate ].
    apply negb_false_iff, Z.eqb_eq in Ho. subst id.
    destruct (negb multi).
    + split.
      { cbn [Carousel.pages Carousel.set_pointer].
        rewrite finishSwipe_pages. reflexivity. }
      right. split; [ reflexivity | ].
      exists (Carousel.set_transition false
                (Carousel.set_pointer (Some (Carousel.eventPointerId ev))
                   (Carousel.startX c) (Carousel.deltaX c) active multi c)).
      repeat split; reflexivity.
    + auto.
Qed.

(** X18.  No click and no pointer gesture moves the carousel by more than
    one page or changes the pages: in a consistent carousel, after any
    event other than a change of the pages, the index is the old one, the
    one before or the one after.  Next on the last page and Previous on
    the first page leave the index where it is. *)
Theorem carousel_moves_one_page_at_most
    (c : Carousel.carousel) (x : num * Carousel.Event) :
  carousel_ok c ->
  is_gesture (snd x) = true ->
  let c' := Carousel.handle c x in
  let last := Z.max 0 (Z.of_nat (length (Carousel.pages c)) - 1) in
  Carousel.pages c' = Carousel.pages c /\
  (Carousel.index c - 1 <= Carousel.index c' <= Carousel.index c + 1)%Z /\
  (snd x = Carousel.NextClick ->
   Carousel.index c' = Z.min (Carousel.index c + 1) last) /\
  (snd x = Carousel.PrevClick ->
   Carousel.index c' = Z.max (Carousel.index c - 1) 0).
Proof.
  intros Hok Hg c' last. subst c' last.
  pose proof (last_index_bound c Hok) as Hb.
  assert (Hgo : forall target,
    (Carousel.index c - 1 <= target <= Carousel.index c + 1)%Z ->
    Carousel.index (Carousel.goTo (fst x) target c) =
      Z.max 0 (Z.min target
                 (Z.max 0 (Z.of_nat (length (Carousel.pages c)) - 1)))).
  { intros target Ht. rewrite goTo_index.
    destruct (Carousel.pages c) as [| p ps]; cbn [length] in *; lia. }
  destruct x as [w e]. cbn [fst snd] in *. unfold Carousel.handle.
  cbn [fst snd].
  destruct e as [children | | | ev | ev | ev |]; try discriminate Hg.
  - split; [ apply goTo_pointers | ]. rewrite Hgo by lia.
    repeat split; try discriminate; lia.
  - split; [ apply goTo_pointers | ]. rewrite Hgo by lia.
    repeat split; try discriminate; lia.
  - assert (E : Carousel.index (Carousel.pointerDown w ev c) = Carousel.index c
                /\ Carousel.pages (Carousel.pointerDown w ev c)
                   = Carousel.pages c).
    { unfold Carousel.pointerDown. cbv zeta.
      repeat case_bool; split; reflexivity. }
    destruct E as [-> ->]. repeat split; try discriminate; lia.
  - assert (E : Carousel.index (Carousel.pointerMove w ev c) = Carousel.index c
                /\ Carousel.pages (Carousel.pointerMove w ev c)
                   = Carousel.pages c).
    { unfold Carousel.pointerMove. case_bool; split; reflexivity. }
    destruct E as [-> ->]. repeat split; try discriminate; lia.
  - destruct (pointerUp_index w ev c) as [Hp [-> | (_ & c2 & E1 & E2 & _ & _ & ->)]].
    + repeat split; try discriminate; trivial; lia.
    + split; [ exact Hp | ].
      rewrite finishSwipe_index, !goTo_index, E1, E2.
      repeat split; try discriminate;
        repeat case_bool; destruct (Carousel.pages c); cbn [length] in *; lia.
  - unfold Carousel.resize.
    cbn [Carousel.index Carousel.pages Carousel.applyTransform
         Carousel.set_width].
    repeat split; try discriminate; lia.
Qed.

(** X18 at a track of three pages, on its last page, and a click on
    Next. *)
Lemma carousel_moves_one_page_at_most_witness :
  let c :=
    Carousel.run (Carousel.create (Fin 400) [None; None; None])
      [ (Fin 400, Carousel.NextClick); (Fin 400, Carousel.NextClick) ] in
  Carousel.index (Carousel.handle c (Fin 400, Carousel.NextClick)) = 2%Z.
Proof.
  cbv zeta.
  destruct (carousel_moves_one_page_at_most
              (Carousel.run (Carousel.create (Fin 400) [None; None; None])
                 [ (Fin 400, Carousel.NextClick);
                   (Fin 400, Carousel.NextClick) ])
              (Fin 400, Carousel.NextClick)
              (carousel_ok_run _ _ (carousel_ok_create _ _)) eq_refl)
    as (_ & _ & Hn & _).
  exact (Hn eq_refl).
Defined.

Lemma finishSwipe_offset (w : num) (c : Carousel.carousel) :
  Carousel.pages c <> [] ->
  Carousel.offset (Carousel.finishSwipe w c) =
  nadd (nmul (Fin (inject_Z (- Carousel.index (Carousel.finishSwipe w c))))
          (or_one w))
       (Fin 0).
Proof.
  intros Hp. unfold Carousel.finishSwipe, Carousel.goTo. cbv zeta.
  destruct (Carousel.pages c) as [| p ps]; [ congruence | ].
  repeat case_bool; reflexivity.
Qed.

(** X19.  Lifting the tracked pointer ends the swipe by the threshold
    [min(120, 0.2 * width)]: a drag longer than the threshold moves one
    page, forward when it went left and backward when it went right,
    stopping at the ends of the track; a shorter drag keeps the page.  In
    every case no pointer is tracked any more, the drag distance is back
    to 0, the transition is restored, and on a track with pages the track
    is aligned on the current page. *)
Theorem carousel_swipe_threshold
    (w : num) (ev : Carousel.PointerEvent) (c : Carousel.carousel) :
  carousel_ok c ->
  Carousel.pointerId c = Some (Carousel.eventPointerId ev) ->
  let c' := Carousel.pointerUp w ev c in
  let threshold := Math_min (Fin 120) (nmul (Carousel.width c) (Fin 0.2)) in
  let last := Z.max 0 (Z.of_nat (length (Carousel.pages c)) - 1) in
  Carousel.index c' =
    (if ngtb (Math_abs (Carousel.deltaX c)) threshold
     then
       if nltb (Carousel.deltaX c) (Fin 0)
       then Z.min (Carousel.index c + 1) last
       else Z.max (Carousel.index c - 1) 0
     else Carousel.index c) /\
  Carousel.pointerId c' = None /\
  Carousel.deltaX c' = Fin 0 /\
  Carousel.transitionNone c' = false /\
  (Carousel.pages c <> [] ->
   Carousel.offset c' =
   nadd (nmul (Fin (inject_Z (- Carousel.index c'))) (or_one w)) (Fin 0)).
Proof.
  intros Hok Hid c' threshold last. subst c' threshold last.
  pose proof (last_index_bound c Hok) as Hb.
  destruct Hok as (_ & _ & Hm & _).
  assert (Hmf : Carousel.isMultiTouch c = false).
  { destruct (Carousel.isMultiTouch c); trivial.
    rewrite (Hm eq_refl) in Hid. discriminate. }
  unfold Carousel.pointerUp. cbv zeta.
  set (active := Carousel.delete _ _).
  assert (Hmulti : match active with [] => false
                   | _ => Carousel.isMultiTouch c end = false)
    by (destruct active; trivial).
  rewrite Hmulti.
  unfold Carousel.other_pointer.
  cbn [Carousel.pointerId Carousel.set_pointer]. rewrite Hid, Z.eqb_refl.
  cbn [negb].
  set (c2 := Carousel.set_transition false _).
  cbn [Carousel.index Carousel.pointerId Carousel.deltaX Carousel.offset
       Carousel.transitionNone Carousel.set_pointer].
  split; [ | split; [ reflexivity | split; [ reflexivity | split ] ] ].
  - rewrite finishSwipe_index, !goTo_index.
    change (Carousel.deltaX c2) with (Carousel.deltaX c).
    change (Carousel.width c2) with (Carousel.width c).
    change (Carousel.index c2) with (Carousel.index c).
    change (Carousel.pages c2) with (Carousel.pages c).
    repeat case_bool; trivial;
      destruct (Carousel.pages c); cbn [length] in *; lia.
  - unfold Carousel.finishSwipe, Carousel.goTo. cbv zeta.
    repeat case_bool; destruct (Carousel.pages c2); reflexivity.
  - intros Hp. apply finishSwipe_offset. exact Hp.
Qed.

(** X19 at a track of two pages 400 px wide and a drag of 150 px to the
    left. *)
Lemma carousel_swipe_threshold_witness :
  let down := Carousel.mkPointerEvent Carousel.touch 0 7 (Fin 300) in
  let move := Carousel.mkPointerEvent Carousel.touch 0 7 (Fin 150) in
  let c :=
    Carousel.run (Carousel.create (Fin 400) [None; None])
      [ (Fin 400, Carousel.PointerDown down);
        (Fin 400, Carousel.PointerMove move) ] in
  Carousel.index (Carousel.pointerUp (Fin 400) move c) = 1%Z.
Proof.
  cbv zeta.
  set (c := Carousel.run _ _).
  assert (Hok : carousel_ok c)
    by (apply carousel_ok_run, carousel_ok_create).
  assert (Hid : Carousel.pointerId c = Some 7%Z)
    by (vm_compute; reflexivity).
  destruct (carousel_swipe_threshold (Fin 400)
              (Carousel.mkPointerEvent Carousel.touch 0 7 (Fin 150))
              c Hok Hid) as (Hi & _).
  rewrite Hi. vm_compute. reflexivity.
Defined.

(** X20.  A second finger cancels the swipe: a touch that arrives while
    another pointer is down starts a multi-touch gesture, after which no
    pointer is tracked, the drag distance is 0 and the track is aligned on
    the unchanged page.  While the gesture lasts, no pointer event changes
    the page or starts tracking a pointer, and the gesture ends only when
    the last pointer is lifted. *)
Theorem carousel_multi_touch_cancels_swipe :
  (forall w ev c,
     Carousel.pointerType ev = Carousel.touch ->
     (1 < length (Carousel.add (Carousel.eventPointerId ev)
                    (Carousel.activePointers c)))%nat ->
     let c' := Carousel.pointerDown w ev c in
     Carousel.isMultiTouch c' = true /\
     Carousel.pointerId c' = None /\
     Carousel.deltaX c' = Fin 0 /\
     Carousel.index c' = Carousel.index c /\
     Carousel.transitionNone c' = false /\
     Carousel.offset c' =
       nadd (nmul (Fin (inject_Z (- Carousel.index c))) (or_one w)) (Fin 0)) /\
  (forall w ev c,
     carousel_ok c -> Carousel.isMultiTouch c = true ->
     (Carousel.index (Carousel.pointerDown w ev c) = Carousel.index c /\
      Carousel.pointerId (Carousel.pointerDown w ev c) = None /\
      Carousel.isMultiTouch (Carousel.pointerDown w ev c) = true) /\
     Carousel.pointerMove w ev c = c /\
     (Carousel.index (Carousel.pointerUp w ev c) = Carousel.index c /\
      Carousel.pointerId (Carousel.pointerUp w ev c) = None /\
      (Carousel.isMultiTouch (Carousel.pointerUp w ev c) = false <->
       Carousel.delete (Carousel.eventPointerId ev)
         (Carousel.activePointers c) = []))).
Proof.
  split.
  - intros w ev c Ht Hn c'. subst c'. unfold Carousel.pointerDown.
    cbv zeta. rewrite Ht. cbn [andb].
    apply Nat.ltb_lt in Hn. rewrite Hn.
    repeat split; reflexivity.
  - intros w ev c Hok Hm.
    destruct Hok as (_ & _ & Hnone & _). specialize (Hnone Hm).
    split; [ | split ].
    + unfold Carousel.pointerDown. cbv zeta.
      destruct (_ && negb _); [ auto | ].
      destruct (_ && (1 <? _)%nat); [ repeat split; reflexivity | ].
      cbn [Carousel.isMultiTouch Carousel.set_pointer]. rewrite Hm.
      cbn [Carousel.index Carousel.pointerId Carousel.isMultiTouch
           Carousel.set_pointer]. auto.
    + unfold Carousel.pointerMove. now rewrite Hm.
    + unfold Carousel.pointerUp. cbv zeta.
      unfold Carousel.other_pointer.
      cbn [Carousel.pointerId Carousel.set_pointer]. rewrite Hnone.
      cbn [Carousel.index Carousel.pointerId Carousel.isMultiTouch
           Carousel.set_pointer].
      split; [ reflexivity | split; [ reflexivity | ] ].
      destruct (Carousel.delete _ _); rewrite ?Hm; split;
        trivial; discriminate.
Qed.

(** X20 at a drag in progress with one finger when a second one lands. *)
Lemma carousel_multi_touch_cancels_swipe_witness :
  let first := Carousel.mkPointerEvent Carousel.touch 0 1 (Fin 300) in
  let second := Carousel.mkPointerEvent Carousel.touch 0 2 (Fin 100) in
  let c :=
    Carousel.run (Carousel.create (Fin 400) [None; None])
      [ (Fin 400, Carousel.PointerDown first);
        (Fin 400, Carousel.PointerMove
                    (Carousel.mkPointerEvent Carousel.touch 0 1 (Fin 100))) ] in
  Carousel.isMultiTouch (Carousel.pointerDown (Fin 400) second c) = true /\
  Carousel.index
    (Carousel.pointerUp (Fin 400) first
       (Carousel.pointerDown (Fin 400) second c)) =
  Carousel.index (Carousel.pointerDown (Fin 400) second c).
Proof.
  cbv zeta.
  set (c := Carousel.run _ _).
  set (second := Carousel.mkPointerEvent Carousel.touch 0 2 (Fin 100)).
  assert (Hok : carousel_ok c)
    by (apply carousel_ok_run, carousel_ok_create).
  assert (Hn : (1 < length (Carousel.add (Carousel.eventPointerId second)
                              (Carousel.activePointers c)))%nat)
    by (vm_compute; lia).
  destruct carousel_multi_touch_cancels_swipe as [Hstart Hduring].
  destruct (Hstart (Fin 400) second c eq_refl Hn) as (Hm & _).
  split; [ exact Hm | ].
  apply (Hduring (Fin 400) _ (Carousel.pointerDown (Fin 400) second c)).
  - apply (carousel_ok_handle c (Fin 400, Carousel.PointerDown second) Hok).
  - exact Hm.
Defined.

(** * Properties of the custom display files *)

(** ** Escaping the end of a script *)

(** What [replace_ci] does at the head of a string, outside a match. *)
Lemma escape_head (c : ascii) (rest : string) :
  replace_ci script_close script_close_escaped 0 (String c rest) =
  if starts_with_ci script_close (String c rest)
  then (script_close_escaped
          ++ replace_ci script_close script_close_escaped 7 rest)%string
  else String c (replace_ci script_close script_close_escaped 0 rest).
Proof. reflexivity. Qed.

Lemma starts_with_ci_cons (a b : ascii) (p s : string) :
  starts_with_ci (String a p) (String b s) = eq_ci a b && starts_with_ci p s.
Proof. reflexivity. Qed.

(** A prefix without [<] of the escaped text is a prefix of the text. *)
Lemma prefix_of_escaped (w : string) :
  no_lt w = true ->
  forall r,
    starts_with_ci w (replace_ci script_close script_close_escaped 0 r) = true ->
    starts_with_ci w r = true.
Proof.
  induction w as [| x w IH]; intros Hw r H; trivial.
  simpl in Hw. apply andb_true_iff in Hw. destruct Hw as [Hx Hw].
  destruct r as [| c rest]; [ discriminate H | ].
  rewrite escape_head in H.
  destruct (starts_with_ci script_close (String c rest)).
  - change (script_close_escaped ++ ?t)%string
      with (String "<" (String "\" (String "/" ("script" ++ t))))%string in H.
    cbn [starts_with_ci] in H. apply andb_true_iff in H.
    destruct H as [H _]. rewrite H in Hx. discriminate.
  - cbn [starts_with_ci] in *. apply andb_true_iff in H.
    destruct H as [H1 H2]. rewrite H1. now apply IH.
Qed.

Lemma contains_after_escaped (t : string) :
  contains_ci script_close (script_close_escaped ++ t) =
  contains_ci script_close t.
Proof. reflexivity. Qed.

Lemma escape_no_script_close (s : string) :
  forall k,
    contains_ci script_close
      (replace_ci script_close script_close_escaped k s) = false.
Proof.
  induction s as [| c rest IH]; intros k; [ reflexivity | ].
  destruct k as [| k]; [ | apply IH ].
  rewrite escape_head.
  destruct (starts_with_ci script_close (String c rest)) eqn:Hm.
  - rewrite contains_after_escaped. apply IH.
  - cbn [contains_ci]. rewrite IH, orb_false_r.
    destruct (starts_with_ci script_close
                (String c (replace_ci script_close script_close_escaped 0 rest)))
      eqn:Ho; trivial.
    change script_close with (String "<" "/script") in Ho, Hm.
    rewrite starts_with_ci_cons in Ho, Hm.
    apply andb_true_iff in Ho. destruct Ho as [Hc Ho].
    apply prefix_of_escaped in Ho; [ | reflexivity ].
    rewrite Hc, Ho in Hm. discriminate.
Qed.

(** X21.  The text that [escapeScriptContent] returns never contains the
    characters that close a script element, in any letter case: script
    text placed in the composed document cannot end its own element. *)
Theorem escaped_script_cannot_close_its_element :
  forall content,
    contains_ci "</script" (escapeScriptContent content) = false.
Proof.
  intros content. apply (escape_no_script_close content 0).
Qed.

Lemma escape_clean (s : string) :
  contains_ci script_close s = false ->
  replace_ci script_close script_close_escaped 0 s = s.
Proof.
  induction s as [| c rest IH]; intros H; trivial.
  cbn [contains_ci] in H. apply orb_false_iff in H. destruct H as [H1 H2].
  rewrite escape_head, H1, IH; trivial.
Qed.

(** X22.  [escapeScriptContent] returns its argument unchanged exactly
    when the argument does not contain the closing characters of a script
    element (in any letter case); in particular escaping twice is escaping
    once. *)
Theorem escape_changes_only_script_closers :
  (forall content,
     escapeScriptContent content = content <->
     contains_ci "</script" content = false) /\
  (forall content,
     escapeScriptContent (escapeScriptContent content) =
     escapeScriptContent content).
Proof.
  split.
  - intros content. split; intros H.
    + rewrite <- H. apply (escape_no_script_close content 0).
    + now apply escape_clean.
  - intros content. apply escape_clean, (escape_no_script_close content 0).
Qed.

(** ** Grouping the selected files *)

Lemma last_dot_split_none (s : string) :
  no_dot s = true -> last_dot_split s = None.
Proof.
  induction s as [| c rest IH]; intros H; trivial.
  simpl in H. apply andb_true_iff in H. destruct H as [Hc Hr].
  simpl. rewrite (IH Hr). apply negb_true_iff in Hc. now rewrite Hc.
Qed.

Lemma last_dot_split_app (base ext : string) :
  no_dot ext = true ->
  last_dot_split (base ++ String "." ext) = Some (base, ext).
Proof.
  intros H. induction base as [| c base IH]; simpl.
  - now rewrite (last_dot_split_none ext H).
  - now rewrite IH.
Qed.

Lemma last_dot_split_none_inv (s : string) :
  last_dot_split s = None -> no_dot s = true.
Proof.
  induction s as [| x r IH]; intros H; trivial.
  simpl in H. destruct (last_dot_split r) as [[b a] |]; [ discriminate | ].
  simpl. destruct (Ascii.eqb x "."); [ discriminate | ].
  now apply IH.
Qed.

Lemma last_dot_split_sound (s : string) :
  forall before after,
    last_dot_split s = Some (before, after) ->
    s = (before ++ String "." after)%string /\ no_dot after = true.
Proof.
  induction s as [| c rest IH]; intros before after H; [ discriminate | ].
  simpl in H. destruct (last_dot_split rest) as [[b a] |] eqn:Hr.
  - inversion H; subst. destruct (IH b after eq_refl) as [-> Hn].
    split; [ reflexivity | exact Hn ].
  - destruct (Ascii.eqb_spec c ".") as [-> | Hc]; [ | discriminate ].
    inversion H; subst. split; [ reflexivity | ].
    now apply last_dot_split_none_inv.
Qed.

(** X23.  The extension of a file name is what follows its last dot: a
    name made of any base, a dot and a non-empty extension without dot is
    split into that base and that extension; conversely every name that is
    split is of this form; and a name without dot, or ending with a dot,
    has no extension and is skipped. *)
Theorem file_extension_is_after_last_dot :
  (forall base ext,
     ext <> EmptyString -> no_dot ext = true ->
     extension_match (base ++ String "." ext) = Some (base, ext)) /\
  (forall name before captured,
     extension_match name = Some (before, captured) ->
     name = (before ++ String "." captured)%string /\
     captured <> EmptyString /\ no_dot captured = true) /\
  (forall name, no_dot name = true -> extension_match name = None) /\
  (forall name, extension_match (name ++ ".") = None).
Proof.
  split; [ | split; [ | split ] ].
  - intros base ext He Hn. unfold extension_match.
    rewrite (last_dot_split_app base ext Hn).
    destruct ext; [ congruence | reflexivity ].
  - intros name before captured H. unfold extension_match in H.
    destruct (last_dot_split name) as [[b a] |] eqn:Hs; [ | discriminate ].
    destruct (String.eqb_spec a "") as [-> | Ha]; [ discriminate | ].
    inversion H; subst.
    destruct (last_dot_split_sound _ _ _ Hs) as [E Hn]. auto.
  - intros name H. unfold extension_match.
    now rewrite (last_dot_split_none name H).
  - intros name. unfold extension_match.
    change (name ++ ".")%string with (name ++ String "." "")%string.
    now rewrite (last_dot_split_app name "" eq_refl).
Qed.

(** X23 at a name with two dots. *)
Lemma file_extension_is_after_last_dot_witness :
  extension_match "track.view.CSS" = Some ("track.view", "CSS")%string.
Proof.
  apply (proj1 file_extension_is_after_last_dot "track.view" "CSS")%string;
    [ discriminate | reflexivity ].
Defined.


















(** ** The label of a display *)

Lemma collapse_sep_clean (s : string) :
  forall b, all_chars (fun c => negb (is_sep c)) (collapse is_sep b s) = true.
Proof.
  induction s as [| c rest IH]; intros b; trivial.
  simpl. destruct (is_sep c) eqn:Hc.
  - destruct b; simpl; apply IH.
  - simpl. rewrite Hc. apply IH.
Qed.

Lemma collapse_space_keeps (p : ascii -> bool) (s : string) :
  p " "%char = true ->
  forall b, all_chars p s = true ->
            all_chars p (collapse is_space b s) = true.
Proof.
  intros Hp. induction s as [| c rest IH]; intros b H; trivial.
  simpl in *. apply andb_true_iff in H. destruct H as [Hc Hr].
  destruct (is_space c).
  - destruct b; simpl; rewrite ?Hp; now apply IH.
  - simpl. rewrite Hc. now apply IH.
Qed.

Lemma collapse_space_only (s : string) :
  forall b,
    all_chars (fun c => negb (is_space c) || Ascii.eqb c " ")
              (collapse is_space b s) = true.
Proof.
  induction s as [| c rest IH]; intros b; trivial.
  simpl. destruct (is_space c) eqn:Hc.
  - destruct b; simpl; apply IH.
  - simpl. rewrite Hc. apply IH.
Qed.

Lemma space_is_space (c : ascii) : Ascii.eqb c " " = true -> is_space c = true.
Proof. intros H. apply Ascii.eqb_eq in H. now subst. Qed.

Lemma collapse_space_single (s : string) :
  forall b, no_double_space b (collapse is_space b s) = true.
Proof.
  induction s as [| c rest IH]; intros b; trivial.
  simpl. destruct (is_space c) eqn:Hc.
  - destruct b; simpl; apply IH.
  - simpl. destruct (Ascii.eqb c " ") eqn:E.
    + apply space_is_space in E. congruence.
    + apply IH.
Qed.

Lemma trimStart_keeps (p : ascii -> bool) (s : string) :
  all_chars p s = true -> all_chars p (trimStart s) = true.
Proof.
  induction s as [| c rest IH]; intros H; trivial.
  simpl. destruct (is_space c); trivial.
  simpl in H. apply andb_true_iff in H. now apply IH.
Qed.

Lemma trimEnd_keeps (p : ascii -> bool) (s : string) :
  all_chars p s = true -> all_chars p (trimEnd s) = true.
Proof.
  induction s as [| c rest IH]; intros H; trivial.
  simpl in *. apply andb_true_iff in H. destruct H as [Hc Hr].
  specialize (IH Hr). destruct (trimEnd rest).
  - destruct (is_space c); simpl; trivial. now rewrite Hc.
  - simpl in *. now rewrite Hc.
Qed.

Lemma trimStart_single (s : string) :
  forall b, no_double_space b s = true ->
            no_double_space true (trimStart s) = true.
Proof.
  induction s as [| c rest IH]; intros b H; trivial.
  simpl in *. destruct (is_space c) eqn:Hc.
  - destruct (Ascii.eqb c " ").
    + apply andb_true_iff in H. now apply (IH true).
    + now apply (IH false).
  - simpl. destruct (Ascii.eqb c " ") eqn:E.
    + apply space_is_space in E. congruence.
    + exact H.
Qed.

Lemma trimEnd_inside (s : string) :
  forall b, no_double_space b s = true ->
            spaced_inside b (trimEnd s) = true.
Proof.
  induction s as [| c rest IH]; intros b H; trivial.
  simpl in *. destruct (Ascii.eqb c " ") eqn:E.
  - apply andb_true_iff in H. destruct H as [Hb Hr].
    specialize (IH true Hr).
    destruct (trimEnd rest) eqn:Ht.
    + now rewrite (space_is_space c E).
    + simpl. rewrite E, Hb. simpl. simpl in IH. exact IH.
  - specialize (IH false H).
    destruct (trimEnd rest) eqn:Ht.
    + destruct (is_space c); trivial. simpl. now rewrite E.
    + simpl. rewrite E. simpl in IH. exact IH.
Qed.

(** A word character that is not an underscore stays, in upper case,
    outside the separators and the white space. *)
Lemma upper_word (c : ascii) :
  is_word c = true -> is_sep c = false ->
  is_sep (upper c) = false /\ is_space (upper c) = false /\
  Ascii.eqb (upper c) " " = false /\
  is_space c = false /\ Ascii.eqb c " " = false.
Proof.
  destruct c as [[] [] [] [] [] [] [] []]; vm_compute; intuition congruence.
Qed.

Lemma capitalize_tidy (s : string) :
  forall w b,
    all_chars (fun c => negb (is_sep c)) s = true ->
    all_chars (fun c => negb (is_space c) || Ascii.eqb c " ") s = true ->
    spaced_inside b s = true ->
    all_chars (fun c => negb (is_sep c)) (capitalize w s) = true /\
    all_chars (fun c => negb (is_space c) || Ascii.eqb c " ")
              (capitalize w s) = true /\
    spaced_inside b (capitalize w s) = true /\
    (String.eqb (capitalize w s) "" = String.eqb s "").
Proof.
  induction s as [| c rest IH]; intros w b H1 H2 H3; [ auto | ].
  simpl in H1, H2. apply andb_true_iff in H1, H2.
  destruct H1 as [S1 R1], H2 as [S2 R2].
  apply negb_true_iff in S1.
  simpl. destruct (is_word c) eqn:Hw.
  - destruct (upper_word c Hw S1) as (U1 & U2 & U3 & U4 & U5).
    simpl in H3. rewrite U5 in H3.
    destruct (IH true false R1 R2 H3) as (I1 & I2 & I3 & _).
    destruct w; simpl; rewrite ?U1, ?U2, ?U3, ?S1, ?U4, ?U5, ?I1, ?I2;
      auto.
  - simpl in H3. simpl. rewrite S1, S2. simpl.
    destruct (Ascii.eqb c " ").
    + apply andb_true_iff in H3. destruct H3 as [H3 H5].
      apply andb_true_iff in H3. destruct H3 as [H3 H4].
      destruct (IH false true R1 R2 H5) as (I1 & I2 & I3 & I4).
      rewrite I1, I2, I3, I4, H3, H4. auto.
    + destruct (IH false false R1 R2 H3) as (I1 & I2 & I3 & _).
      rewrite I1, I2, I3. auto.
Qed.

Lemma collapse_sep_blank (s : string) :
  forall b,
    all_chars (fun c => is_sep c || is_space c) s = true ->
    all_chars is_space (collapse is_sep b s) = true.
Proof.
  induction s as [| c rest IH]; intros b H; trivial.
  simpl in *. apply andb_true_iff in H. destruct H as [Hc Hr].
  destruct (is_sep c).
  - destruct b; simpl; now apply IH.
  - simpl in *. rewrite Hc. now apply IH.
Qed.

Lemma trimStart_blank (s : string) :
  all_chars is_space s = true -> trimStart s = EmptyString.
Proof.
  induction s as [| c rest IH]; intros H; trivial.
  simpl in *. apply andb_true_iff in H. destruct H as [Hc Hr].
  rewrite Hc. now apply IH.
Qed.

(** X26.  The label made from a base name is tidy: it has neither
    underscore nor hyphen, no white space other than single spaces, and no
    space at its beginning or at its end.  An empty base name gives
    ["Custom Display"], while a base name made only of underscores,
    hyphens and white space gives the empty label. *)
Theorem display_label_is_tidy :
  (forall baseName, tidy (formatDisplayLabel baseName) = true) /\
  formatDisplayLabel "" = "Custom Display"%string /\
  (forall baseName,
     baseName <> EmptyString ->
     all_chars (fun c => is_sep c || is_space c) baseName = true ->
     formatDisplayLabel baseName = EmptyString).
Proof.
  split; [ | split; [ reflexivity | ] ].
  - intros baseName. unfold formatDisplayLabel.
    destruct (String.eqb baseName ""); [ reflexivity | ].
    set (a := collapse is_sep false baseName).
    set (b := collapse is_space false a).
    assert (A1 : all_chars (fun c => negb (is_sep c)) a = true)
      by apply collapse_sep_clean.
    assert (B1 : all_chars (fun c => negb (is_sep c)) b = true)
      by (apply collapse_space_keeps; trivial).
    assert (B2 : all_chars (fun c => negb (is_space c) || Ascii.eqb c " ") b
                 = true) by apply collapse_space_only.
    assert (B3 : no_double_space false b = true)
      by apply collapse_space_single.
    unfold trim.
    destruct (capitalize_tidy (trimEnd (trimStart b)) false true)
      as (C1 & C2 & C3 & _).
    + now apply trimEnd_keeps, trimStart_keeps.
    + now apply trimEnd_keeps, trimStart_keeps.
    + apply trimEnd_inside. now apply (trimStart_single b false).
    + unfold tidy. now rewrite C1, C2, C3.
  - intros baseName Hne Hall. unfold formatDisplayLabel.
    destruct (String.eqb_spec baseName ""); [ congruence | ].
    unfold trim. rewrite trimStart_blank; [ reflexivity | ].
    apply collapse_space_keeps; [ reflexivity | ].
    now apply collapse_sep_blank.
Qed.

(** X26 at a base name made of separators only. *)
Lemma display_label_is_tidy_witness :
  formatDisplayLabel "_-_ -" = EmptyString.
Proof.
  apply (proj2 (proj2 display_label_is_tidy)); [ discriminate | reflexivity ].
Defined.

(** * Properties of the telemetry snapshot *)

Lemma telemetry_lookup_app (key : string) (a b : Telemetry.Object) :
  Telemetry.lookup key (a ++ b) =
  match Telemetry.lookup key b with
  | Some v => Some v
  | None => Telemetry.lookup key a
  end.
Proof.
  induction a as [| [k v] a IH]; simpl.
  - now destruct (Telemetry.lookup key b).
  - rewrite IH. now destruct (Telemetry.lookup key b).
Qed.

Lemma push_hit (t update : Telemetry.Object) (now : Z) (key : string)
    (v : Telemetry.Value) :
  key <> "updatedAt"%string ->
  Telemetry.lookup key update = Some v ->
  Telemetry.lookup key (Telemetry.pushTelemetry t update now) = Some v.
Proof.
  intros Hk H. unfold Telemetry.pushTelemetry.
  rewrite !telemetry_lookup_app, H. cbn [Telemetry.lookup].
  destruct (String.eqb_spec "updatedAt" key); congruence.
Qed.

Lemma push_miss (t update : Telemetry.Object) (now : Z) (key : string) :
  key <> "updatedAt"%string ->
  Telemetry.lookup key update = None ->
  Telemetry.lookup key (Telemetry.pushTelemetry t update now) =
  Telemetry.lookup key t.
Proof.
  intros Hk H. unfold Telemetry.pushTelemetry.
  rewrite !telemetry_lookup_app, H. cbn [Telemetry.lookup].
  destruct (String.eqb_spec "updatedAt" key); congruence.
Qed.

Lemma push_updatedAt (t update : Telemetry.Object) (now : Z) :
  Telemetry.lookup "updatedAt" (Telemetry.pushTelemetry t update now) =
  Some (Telemetry.number now).
Proof.
  unfold Telemetry.pushTelemetry. now rewrite telemetry_lookup_app.
Qed.

(** The keys of the readouts are none of the three the clock and the
    reset write. *)
Lemma readouts_keys (e : Engine) (key : string) (v : Telemetry.Value) :
  Telemetry.lookup key (Telemetry.readouts e) = Some v ->
  key <> "updatedAt"%string /\ key <> "sessionSeconds"%string /\
  key <> "measurementTimestamp"%string /\
  Telemetry.lookup key (Telemetry.renderSpeed Null) = None /\
  In key [ "speedMin"; "speedMax"; "speedAvg"; "accelCurrent";
           "decelCurrent"; "peakAccel"; "peakDecel"; "distanceMeters";
           "distanceKm"; "distanceMiles"; "quarterStatus"; "quarterLast";
           "quarterBest"; "zeroSixtyLast"; "zeroSixtyBest" ]%string.
Proof.
  intros H.
  assert (Hin : In key [ "speedMin"; "speedMax"; "speedAvg"; "accelCurrent";
           "decelCurrent"; "peakAccel"; "peakDecel"; "distanceMeters";
           "distanceKm"; "distanceMiles"; "quarterStatus"; "quarterLast";
           "quarterBest"; "zeroSixtyLast"; "zeroSixtyBest" ]%string).
  { unfold Telemetry.readouts, Telemetry.renderSpeedStats,
      Telemetry.renderAcceleration, Telemetry.renderDistance,
      Telemetry.renderQuarterMile, Telemetry.renderZeroSixty in H.
    cbn [app Telemetry.lookup] in H.
    repeat match type of H with
           | context [String.eqb ?s key] =>
               destruct (String.eqb_spec s key) as [<- | ?];
               [ cbn [In]; tauto | ]
           end.
    discriminate. }
  repeat split; try exact Hin;
    cbn [In] in Hin; intuition (subst; try discriminate; reflexivity).
Qed.

Lemma follows_push (a : Telemetry.App) (t before after : Telemetry.Object)
    (now : Z) :
  (forall key, Telemetry.lookup key after <> None ->
               Telemetry.lookup key (Telemetry.readouts (Telemetry.engine a))
               = None) ->
  Telemetry.telemetryState a =
  Telemetry.pushTelemetry t
    (before ++ Telemetry.readouts (Telemetry.engine a) ++ after) now ->
  follows_stores a.
Proof.
  intros Hafter Ht key v H. rewrite Ht.
  destruct (readouts_keys _ _ _ H) as (Hu & _).
  apply push_hit; [ exact Hu | ].
  rewrite !telemetry_lookup_app.
  destruct (Telemetry.lookup key after) eqn:E.
  - rewrite Hafter in H; congruence.
  - now rewrite H.
Qed.

Lemma follows_clock (now pushedAt : Z) (a : Telemetry.App) :
  follows_stores a ->
  follows_stores (Telemetry.updateSessionClock now pushedAt a).
Proof.
  intros Ha. unfold Telemetry.updateSessionClock.
  destruct (Telemetry.same_seconds _ _); [ exact Ha | ].
  intros key v H. cbn [Telemetry.engine Telemetry.telemetryState] in *.
  destruct (readouts_keys _ _ _ H) as (Hu & Hs & _).
  rewrite push_miss; [ now apply Ha | exact Hu | ].
  cbn [Telemetry.lookup].
  destruct (String.eqb_spec "sessionSeconds" key); congruence.
Qed.

Lemma blank_update_shape (e : Engine) :
  Telemetry.blank_update e =
  ([ ("lat", Telemetry.V Null); ("lon", Telemetry.V Null);
     ("heading", Telemetry.V Null) ]%string ++ Telemetry.renderSpeed Null)
  ++ Telemetry.readouts e
  ++ [ ("measurementTimestamp"%string, Telemetry.V Null) ].
Proof. unfold Telemetry.blank_update. now rewrite <- app_assoc. Qed.

Lemma after_blank (e : Engine) (key : string) :
  Telemetry.lookup key
    [ ("measurementTimestamp"%string, Telemetry.V Null) ] <> None ->
  Telemetry.lookup key (Telemetry.readouts e) = None.
Proof.
  intros H. destruct (Telemetry.lookup key (Telemetry.readouts e)) eqn:E;
    [ | reflexivity ].
  destruct (readouts_keys _ _ _ E) as (_ & _ & Hm & _).
  cbn [Telemetry.lookup] in H.
  destruct (String.eqb_spec "measurementTimestamp" key);
    congruence.
Qed.

Lemma follows_handle (M : MathLib) (a : Telemetry.App)
    (event : Telemetry.Event) :
  follows_stores a -> follows_stores (Telemetry.handle M a event).
Proof.
  intros Ha. destruct event as [position now | now pushedAt
    | started now pushedAt finished | started now pushedAt | ]; simpl.
  - eapply (follows_push _ _ _ []).
    + intros key H. now elim H.
    + unfold Telemetry.handlePosition.
      cbn [Telemetry.engine Telemetry.telemetryState].
      rewrite app_nil_r, app_assoc. reflexivity.
  - now apply follows_clock.
  - eapply follows_push.
    + apply after_blank.
    + unfold Telemetry.resetAllStores.
      cbn [Telemetry.engine Telemetry.telemetryState].
      rewrite blank_update_shape. reflexivity.
  - unfold Telemetry.startTracking.
    destruct (Telemetry.isTracking a); [ exact Ha | ].
    apply follows_clock. exact Ha.
  - exact Ha.
Qed.

(** X27.  The snapshot follows the stores: from the start of the script,
    whatever was read from local storage and whatever fixes, ticks of the
    clock, resets, starts and stops follow, every key of the speed
    statistics, the acceleration, the distance, the quarter mile and the
    zero-to-sixty holds in the snapshot what [get] of its store returns
    now. *)
Theorem telemetry_follows_the_stores (M : MathLib) (e : Engine)
    (created now : Z) (events : list Telemetry.Event) :
  follows_stores (Telemetry.run M (Telemetry.load e created now) events).
Proof.
  unfold Telemetry.run.
  assert (H0 : follows_stores (Telemetry.load e created now)).
  { eapply follows_push.
    - apply after_blank.
    - unfold Telemetry.load, Telemetry.restorePersistedReadouts.
      cbn [Telemetry.engine Telemetry.telemetryState].
      rewrite blank_update_shape. reflexivity. }
  revert H0. generalize (Telemetry.load e created now).
  induction events as [| event events IH]; intros a Ha; [ exact Ha | ].
  simpl. apply IH. now apply follows_handle.
Qed.

Lemma elapsedSeconds_at_once (started now : Z) :
  (now - started < 500)%Z -> elapsedSeconds (Some started) now = 0%Z.
Proof.
  intros H. unfold elapsedSeconds.
  destruct (started =? 0)%Z; [ reflexivity | ].
  assert (Hd : ((now - started + 500) / 1000 <= 0)%Z).
  { apply Z.lt_succ_r. apply Z.div_lt_upper_bound; lia. }
  lia.
Qed.

(** One key after [resetAllStores()]: the update decides it when it has
    the key, the clock when the key is [sessionSeconds], and the snapshot
    of before otherwise. *)
Lemma reset_lookup (started now pushedAt finished : Z) (a : Telemetry.App)
    (key : string) :
  key <> "updatedAt"%string ->
  Telemetry.lookup key
    (Telemetry.telemetryState
       (Telemetry.resetAllStores started now pushedAt finished a)) =
  match Telemetry.lookup key
          (Telemetry.blank_update (resetAllStores (Telemetry.engine a))) with
  | Some v => Some v
  | None =>
      Telemetry.lookup key
        (Telemetry.telemetryState
           (Telemetry.updateSessionClock now pushedAt
              {| Telemetry.engine := resetAllStores (Telemetry.engine a);
                 Telemetry.telemetryState := Telemetry.telemetryState a;
                 Telemetry.sessionStart := Some started;
                 Telemetry.isTracking := Telemetry.isTracking a |}))
  end.
Proof.
  intros Hk. unfold Telemetry.resetAllStores.
  cbn [Telemetry.telemetryState].
  destruct (Telemetry.lookup key (Telemetry.blank_update _)) eqn:E.
  - now apply push_hit.
  - now apply push_miss.
Qed.

(** X28.  A reset puts the snapshot back to its defaults, but for the
    time of the last fix: when the clock of the page moves by less than
    half a second during the reset, every key of the default snapshot
    other than [gpsTimestamp], [sessionSeconds] and [updatedAt] holds its
    default again, [sessionSeconds] holds zero, [updatedAt] the time of the
    last push and the new key [measurementTimestamp] holds [null], while
    [gpsTimestamp] keeps what it held before the reset. *)
Theorem reset_keeps_last_gps_timestamp (a : Telemetry.App)
    (created started now pushedAt finished : Z)
    (Hclock : (now - started < 500)%Z) :
  let after :=
    Telemetry.telemetryState
      (Telemetry.resetAllStores started now pushedAt finished a) in
  (forall key v,
     Telemetry.lookup key (Telemetry.createDefaultTelemetrySnapshot created)
     = Some v ->
     key <> "gpsTimestamp"%string -> key <> "sessionSeconds"%string ->
     key <> "updatedAt"%string ->
     Telemetry.lookup key after = Some v) /\
  Telemetry.same_seconds (Telemetry.lookup "sessionSeconds" after) 0 = true /\
  Telemetry.lookup "updatedAt" after = Some (Telemetry.number finished) /\
  Telemetry.lookup "measurementTimestamp" after = Some (Telemetry.V Null) /\
  Telemetry.lookup "gpsTimestamp" after =
  Telemetry.lookup "gpsTimestamp" (Telemetry.telemetryState a).
Proof.
  intros after. subst after.
  split; [ | split; [ | split; [ | split ] ] ].
  - intros key v H Hg Hs Hu.
    rewrite reset_lookup by exact Hu.
    unfold Telemetry.createDefaultTelemetrySnapshot in H.
    cbn [Telemetry.lookup] in H.
    repeat match type of H with
           | context [String.eqb ?s key] =>
               destruct (String.eqb_spec s key) as [<- | ?];
               [ try congruence;
                 vm_compute in H; injection H as <-;
                 vm_compute; reflexivity | ]
           end.
    discriminate.
  - rewrite reset_lookup by discriminate.
    replace (Telemetry.lookup "sessionSeconds" (Telemetry.blank_update _))
      with (@None Telemetry.Value) by (vm_compute; reflexivity).
    unfold Telemetry.updateSessionClock.
    cbn [Telemetry.sessionStart Telemetry.telemetryState].
    rewrite (elapsedSeconds_at_once _ _ Hclock).
    destruct (Telemetry.same_seconds
                (Telemetry.lookup "sessionSeconds" (Telemetry.telemetryState a))
                0) eqn:E.
    + exact E.
    + cbn [Telemetry.telemetryState]. rewrite push_hit with (v := Telemetry.number 0);
        [ reflexivity | discriminate | reflexivity ].
  - unfold Telemetry.resetAllStores. cbn [Telemetry.telemetryState].
    apply push_updatedAt.
  - rewrite reset_lookup by discriminate.
    vm_compute. reflexivity.
  - rewrite reset_lookup by discriminate.
    replace (Telemetry.lookup "gpsTimestamp" (Telemetry.blank_update _))
      with (@None Telemetry.Value) by (vm_compute; reflexivity).
    unfold Telemetry.updateSessionClock.
    destruct (Telemetry.same_seconds _ _); cbn [Telemetry.telemetryState];
      [ reflexivity | ].
    apply push_miss; [ discriminate | reflexivity ].
Qed.

(** X28 after one fix at five seconds: the reset leaves that time in the
    snapshot. *)
Lemma reset_keeps_last_gps_timestamp_witness :
  Telemetry.lookup "gpsTimestamp"
    (Telemetry.telemetryState
       (Telemetry.resetAllStores 2000 2000 2000 2000 page_after_fix))
  = Some (Telemetry.V (Num (Fin 5))) /\
  Telemetry.lookup "distanceMeters"
    (Telemetry.telemetryState
       (Telemetry.resetAllStores 2000 2000 2000 2000 page_after_fix))
  = Some (Telemetry.number 0).
Proof.
  destruct (reset_keeps_last_gps_timestamp page_after_fix 0 2000 2000 2000
              2000 ltac:(reflexivity)) as (Hdefault & _ & _ & _ & Hgps).
  split.
  - rewrite Hgps. vm_compute. reflexivity.
  - apply Hdefault; [ reflexivity | discriminate | discriminate | discriminate ].
Defined.

Lemma finite_or_null_ok (x : value) :
  null_or_finite (Some (Telemetry.V (Telemetry.finite_or_null x))) = true.
Proof.
  unfold Telemetry.finite_or_null.
  destruct x as [| n]; [ reflexivity | ].
  destruct (isFinite (Num n)) eqn:E; [ exact E | reflexivity ].
Qed.

Lemma headingValue_ok (heading : value) :
  null_or_finite (Some (Telemetry.V (headingValue heading))) = true.
Proof.
  unfold headingValue.
  destruct heading as [| [q | | |]]; reflexivity.
Qed.

Lemma renderSpeed_ok (speed : value) :
  null_or_finite (Telemetry.lookup "speed" (Telemetry.renderSpeed speed))
  = true /\
  forall key, In key [ "lat"; "lon"; "heading"; "accelCurrent";
                       "decelCurrent" ]%string ->
              Telemetry.lookup key (Telemetry.renderSpeed speed) = None.
Proof.
  unfold Telemetry.renderSpeed.
  destruct (isFinite speed) eqn:E.
  - split.
    + destruct speed as [| n]; [ discriminate | exact E ].
    + intros key H. cbn [In] in H.
      intuition (subst; reflexivity).
  - split; [ reflexivity | ].
    intros key H. cbn [In] in H. intuition (subst; reflexivity).
Qed.

Lemma readouts_ok (e : Engine) :
  null_or_finite (Telemetry.lookup "accelCurrent" (Telemetry.readouts e))
  = true /\
  null_or_finite (Telemetry.lookup "decelCurrent" (Telemetry.readouts e))
  = true /\
  forall key, In key [ "lat"; "lon"; "heading"; "speed" ]%string ->
              Telemetry.lookup key (Telemetry.readouts e) = None.
Proof.
  split; [ | split ].
  - apply (finite_or_null_ok
             (AccelerationStore.view_current
                (AccelerationStore.get (accelerationStore e)))).
  - apply (finite_or_null_ok
             (AccelerationStore.currentDecel
                (AccelerationStore.get (accelerationStore e)))).
  - intros key H. cbn [In] in H. intuition (subst; reflexivity).
Qed.

(** The filtered keys after a push of an update that sets them all. *)
Lemma filtered_push (t update : Telemetry.Object) (now : Z) :
  (forall key, In key filtered_keys ->
               null_or_finite (Telemetry.lookup key update) = true) ->
  forall key, In key filtered_keys ->
    null_or_finite
      (Telemetry.lookup key (Telemetry.pushTelemetry t update now)) = true.
Proof.
  intros H key Hin. specialize (H key Hin).
  destruct (Telemetry.lookup key update) as [v |] eqn:E; [ | discriminate ].
  rewrite (push_hit _ _ _ _ v); trivial.
  unfold filtered_keys in Hin. cbn [In] in Hin.
  intuition (subst; discriminate).
Qed.

Lemma filtered_clock (now pushedAt : Z) (a : Telemetry.App) :
  (forall key, In key filtered_keys ->
     null_or_finite (Telemetry.lookup key (Telemetry.telemetryState a))
     = true) ->
  forall key, In key filtered_keys ->
    null_or_finite
      (Telemetry.lookup key
         (Telemetry.telemetryState
            (Telemetry.updateSessionClock now pushedAt a))) = true.
Proof.
  intros Ha key Hin. unfold Telemetry.updateSessionClock.
  destruct (Telemetry.same_seconds _ _); [ now apply Ha | ].
  cbn [Telemetry.telemetryState].
  rewrite push_miss; [ now apply Ha | | ];
    unfold filtered_keys in Hin; cbn [In] in Hin;
    intuition (subst; try discriminate; reflexivity).
Qed.

Lemma blank_update_ok (e : Engine) :
  forall key, In key filtered_keys ->
    null_or_finite (Telemetry.lookup key (Telemetry.blank_update e)) = true.
Proof.
  intros key Hin. unfold Telemetry.blank_update.
  destruct (readouts_ok e) as (Ha & Hd & Hnone).
  rewrite !telemetry_lookup_app.
  unfold filtered_keys in Hin. cbn [In] in Hin.
  destruct Hin as [<- | [<- | [<- | [<- | [<- | [<- | []]]]]]];
    rewrite ?Hnone by (cbn [In]; tauto);
    try reflexivity.
  - cbn [Telemetry.lookup String.eqb Ascii.eqb Bool.eqb].
    destruct (Telemetry.lookup "accelCurrent" (Telemetry.readouts e));
      [ exact Ha | discriminate ].
  - cbn [Telemetry.lookup String.eqb Ascii.eqb Bool.eqb].
    destruct (Telemetry.lookup "decelCurrent" (Telemetry.readouts e));
      [ exact Hd | discriminate ].
Qed.

Lemma fix_update_ok (M : MathLib) (e : Engine) (position : GeoPosition) :
  forall key, In key filtered_keys ->
    null_or_finite
      (Telemetry.lookup key
         ([ ("lat", Telemetry.V (Telemetry.finite_or_null
                                   (Num (latitude (coords position)))));
            ("lon", Telemetry.V (Telemetry.finite_or_null
                                   (Num (longitude (coords position)))));
            ("heading", Telemetry.V (headingValue (heading (coords position))));
            ("gpsTimestamp", Telemetry.V (Num (timestampSeconds position)))
          ]%string
          ++ Telemetry.renderSpeed (speedValue M e position)
          ++ Telemetry.readouts (handlePosition M e position))) = true.
Proof.
  intros key Hin.
  destruct (readouts_ok (handlePosition M e position)) as (Ha & Hd & Hnone).
  destruct (renderSpeed_ok (speedValue M e position)) as (Hs & Hsnone).
  rewrite !telemetry_lookup_app.
  unfold filtered_keys in Hin. cbn [In] in Hin.
  destruct Hin as [<- | [<- | [<- | [<- | [<- | [<- | []]]]]]];
    rewrite ?Hnone by (cbn [In]; tauto);
    rewrite ?Hsnone by (cbn [In]; tauto).
  - apply finite_or_null_ok.
  - apply finite_or_null_ok.
  - apply headingValue_ok.
  - destruct (Telemetry.lookup "speed" (Telemetry.renderSpeed _));
      [ exact Hs | discriminate ].
  - destruct (Telemetry.lookup "accelCurrent" (Telemetry.readouts _));
      [ exact Ha | discriminate ].
  - destruct (Telemetry.lookup "decelCurrent" (Telemetry.readouts _));
      [ exact Hd | discriminate ].
Qed.

(** X29.  The snapshot never carries [NaN] or an infinity at the
    position, the heading, the speed or the current acceleration and
    deceleration: from the start of the script and whatever follows, the
    keys [lat], [lon], [heading], [speed], [accelCurrent] and
    [decelCurrent] hold [null] or a finite number. *)
Theorem telemetry_filtered_keys_null_or_finite (M : MathLib) (e : Engine)
    (created now : Z) (events : list Telemetry.Event) :
  forallb
    (fun key =>
       null_or_finite
         (Telemetry.lookup key
            (Telemetry.telemetryState
               (Telemetry.run M (Telemetry.load e created now) events))))
    filtered_keys = true.
Proof.
  apply forallb_forall. unfold Telemetry.run.
  assert (H0 : forall key, In key filtered_keys ->
            null_or_finite
              (Telemetry.lookup key
                 (Telemetry.telemetryState (Telemetry.load e created now)))
            = true).
  { unfold Telemetry.load, Telemetry.restorePersistedReadouts.
    cbn [Telemetry.telemetryState Telemetry.engine].
    apply filtered_push, blank_update_ok. }
  revert H0. generalize (Telemetry.load e created now).
  induction events as [| event events IH]; intros a Ha; [ exact Ha | ].
  simpl. apply IH.
  destruct event as [position at_ | at_ pushedAt
    | started at_ pushedAt finished | started at_ pushedAt | ]; simpl.
  - unfold Telemetry.handlePosition. cbn [Telemetry.telemetryState].
    apply filtered_push, fix_update_ok.
  - now apply filtered_clock.
  - unfold Telemetry.resetAllStores. cbn [Telemetry.telemetryState].
    apply filtered_push, blank_update_ok.
  - unfold Telemetry.startTracking.
    destruct (Telemetry.isTracking a); [ exact Ha | ].
    now apply filtered_clock.
  - exact Ha.
Qed.
